(** * Venue list and venue form: a shallow embedding of the controllers

    The development follows the three source files of the application:
    - [App.tsx]: [fetchVenues], the [sortedVenues] comparator and [getPrice];
    - the venue card: [formatDriveTime];
    - the venue form: [calculateDriveTime], [handleAutoFillLocation],
      [uploadImages] and [handleSubmit].

    JavaScript values are modelled as the code has them.  A [number] is an
    IEEE double; every number the modelled code computes is integer valued,
    infinite or NaN, so a finite number carries a [Z].  Results of
    [parseInt] and of [-] are rounded to the nearest double
    ([round_double]).  Strings are sequences of code units ([string]). *)

From Stdlib Require Import ZArith NArith List String Ascii Bool Lia.
From Stdlib Require Import Permutation Sorted DecimalString.
Import ListNotations.

Local Open Scope string_scope.
Local Open Scope list_scope.

(* ================================================================== *)
(** ** JavaScript numbers *)
(* ================================================================== *)

Module JS.

Inductive number : Type :=
| Fin (z : Z)
| PInf
| NInf
| NaN.

(** 2^53: below it every natural number is a double. *)
Definition two53 : N := 9007199254740992%N.

(** Rounding of a natural number to the nearest double, ties to even
    (53 significant bits); [None] when the rounded value reaches 2^1024. *)
Definition round_mag (n : N) : option N :=
  if (n <? two53)%N then Some n
  else
    let e := (N.log2 n - 52)%N in
    let q := (n / 2 ^ e)%N in
    let r := (n mod 2 ^ e)%N in
    let half := (2 ^ (e - 1))%N in
    let q' := if ((half <? r)%N || ((half =? r)%N && N.odd q))%bool
              then (q + 1)%N else q in
    let v := (q' * 2 ^ e)%N in
    if (2 ^ 1024 <=? v)%N then None else Some v.

Definition round_double (z : Z) : number :=
  match z with
  | Z0 => Fin 0
  | Zpos p => match round_mag (Npos p) with
              | Some v => Fin (Z.of_N v)
              | None => PInf
              end
  | Zneg p => match round_mag (Npos p) with
              | Some v => Fin (- Z.of_N v)
              | None => NInf
              end
  end.

(** [x - y] *)
Definition sub (x y : number) : number :=
  match x, y with
  | NaN, _ | _, NaN => NaN
  | Fin a, Fin b => round_double (a - b)
  | PInf, PInf => NaN
  | NInf, NInf => NaN
  | PInf, _ => PInf
  | NInf, _ => NInf
  | Fin _, PInf => NInf
  | Fin _, NInf => PInf
  end.

(** [x > 0], false on NaN. *)
Definition gt0 (x : number) : bool :=
  match x with
  | Fin z => (0 <? z)%Z
  | PInf => true
  | NInf | NaN => false
  end.

(** [x < y] on numbers *)
Definition ltb (x y : number) : bool :=
  match x, y with
  | NaN, _ | _, NaN => false
  | Fin a, Fin b => (a <? b)%Z
  | NInf, NInf => false
  | NInf, _ => true
  | _, NInf => false
  | PInf, _ => false
  | Fin _, PInf => true
  end.

Definition leb (x y : number) : bool := negb (ltb y x).

Definition eqb (x y : number) : bool :=
  match x, y with
  | Fin a, Fin b => (a =? b)%Z
  | PInf, PInf => true
  | NInf, NInf => true
  | _, _ => false
  end.

Definition is_nan (x : number) : bool :=
  match x with NaN => true | _ => false end.

Definition is_finite (x : number) : bool :=
  match x with Fin _ => true | _ => false end.

(** [!x]: a number is falsy when it is 0 or NaN. *)
Definition falsy (x : number) : bool :=
  match x with
  | Fin z => (z =? 0)%Z
  | NaN => true
  | _ => false
  end.

(** Number-to-string conversion of a template literal, for the integers
    below 2^53 in absolute value, which print as their decimal digits.
    (Above, JavaScript prints the shortest digits that read back as the
    same double, padded with zeros, and an exponent form from 10^21; no
    theorem prints such a value.) *)
Definition to_string (x : number) : string :=
  match x with
  | Fin z => NilZero.string_of_int (Z.to_int z)
  | PInf => "Infinity"
  | NInf => "-Infinity"
  | NaN => "NaN"
  end.

(** [Math.floor(x / d)] for a double [x] with an integer value and a
    positive integer constant [d].  The division gives the double nearest
    to the exact quotient, ties to even: with [t] the scale at which the
    quotient has 53 significant bits, the double is [mant / 2^t] for the
    mantissa [mant] that [nearest_even] picks.  [Math.floor] is then taken
    of that double, which can be the integer above the exact quotient.
    (The quotient of a non-zero integer by such a constant is a normal
    double, neither subnormal nor out of range.) *)
Definition nearest_even (num den : Z) : Z :=
  let q := (num / den)%Z in
  let r := (num mod den)%Z in
  if (2 * r <? den)%Z then q
  else if (den <? 2 * r)%Z then (q + 1)%Z
  else if Z.even q then q else (q + 1)%Z.

(** [n * 2^t / d] as a fraction, for a scale [t] of either sign *)
Definition scaled (n d t : Z) : Z * Z :=
  if (0 <=? t)%Z then ((n * 2 ^ t)%Z, d) else (n, (d * 2 ^ (- t))%Z).

(** The scale and the mantissa of the double quotient of two positive
    integers. *)
Definition quotient_double (n d : Z) : Z * Z :=
  let t0 := (52 - (Z.log2 n - Z.log2 d))%Z in
  let t := if (fst (scaled n d t0) / snd (scaled n d t0) <? 2 ^ 52)%Z
           then (t0 + 1)%Z else t0 in
  (t, nearest_even (fst (scaled n d t)) (snd (scaled n d t))).

Definition floor_quotient (n d : Z) : Z :=
  let '(t, mant) := quotient_double n d in
  if (0 <=? t)%Z then (mant / 2 ^ t)%Z else (mant * 2 ^ (- t))%Z.

Definition ceil_quotient (n d : Z) : Z :=
  let '(t, mant) := quotient_double n d in
  if (0 <=? t)%Z then ((mant + 2 ^ t - 1) / 2 ^ t)%Z
  else (mant * 2 ^ (- t))%Z.

Definition floor_div (x : number) (d : Z) : number :=
  match x with
  | Fin Z0 => Fin 0
  | Fin (Zpos p) => Fin (floor_quotient (Zpos p) d)
  | Fin (Zneg p) => Fin (- ceil_quotient (Zpos p) d)
  | _ => x
  end.

(** [Math.round(x / d)] and [x % d] for a positive integer constant [d].
    The quotient itself is not an integer, so the division is taken
    together with the rounding that follows it; on integers below 2^53
    this is what the two double operations compute.  [Math.round] rounds
    halves up; [%] takes the sign of the dividend and is exact. *)
Definition round_div (x : number) (d : Z) : number :=
  match x with
  | Fin z => Fin ((2 * z + d) / (2 * d))
  | _ => x
  end.

Definition rem (x : number) (d : Z) : number :=
  match x with
  | Fin z => Fin (Z.rem z d)
  | _ => NaN
  end.

(** *** Strings *)

Definition is_digit (c : ascii) : bool :=
  (48 <=? nat_of_ascii c)%nat && (nat_of_ascii c <=? 57)%nat.

Definition digit_of (c : ascii) : N := N.of_nat (nat_of_ascii c - 48).

(** White space that [parseInt] skips, among the code units below 256:
    TAB, LF, VT, FF, CR, SP and NBSP. *)
Definition is_space (c : ascii) : bool :=
  let n := nat_of_ascii c in
  ((9 <=? n)%nat && (n <=? 13)%nat) || (n =? 32)%nat || (n =? 160)%nat.

Fixpoint skip_spaces (s : string) : string :=
  match s with
  | String c r => if is_space c then skip_spaces r else s
  | EmptyString => s
  end.

Fixpoint take_digits (s : string) : string :=
  match s with
  | String c r => if is_digit c then String c (take_digits r) else EmptyString
  | EmptyString => EmptyString
  end.

(** Value of a string of decimal digits, most significant first. *)
Fixpoint decimal_value_from (acc : N) (s : string) : N :=
  match s with
  | EmptyString => acc
  | String c r => decimal_value_from (10 * acc + digit_of c)%N r
  end.

Definition decimal_value (s : string) : N := decimal_value_from 0 s.

(** [parseInt(s, 10)]: leading white space, an optional sign, then the
    longest run of digits; NaN when there is no digit. *)
Definition parseInt10 (s : string) : number :=
  let s1 := skip_spaces s in
  let '(neg, s2) :=
    match s1 with
    | String "-" r => (true, r)
    | String "+" r => (false, r)
    | _ => (false, s1)
    end in
  match take_digits s2 with
  | EmptyString => NaN
  | ds =>
      let n := Z.of_N (decimal_value ds) in
      round_double (if neg then (- n)%Z else n)
  end.

(** [s.replace(/,/g, "")] *)
Fixpoint remove_commas (s : string) : string :=
  match s with
  | EmptyString => EmptyString
  | String c r => if (c =? ",")%char then remove_commas r
                  else String c (remove_commas r)
  end.

(** [s.replace("s", "")]: only the first occurrence is removed. *)
Fixpoint remove_first_s (s : string) : string :=
  match s with
  | EmptyString => EmptyString
  | String c r => if (c =? "s")%char then r else String c (remove_first_s r)
  end.

(** [s.match(/(\d+)/)]: the capture group of the leftmost match, which is
    the longest run of digits starting at the first digit of [s]. *)
Fixpoint match_digits (s : string) : option string :=
  match s with
  | EmptyString => None
  | String c r => if is_digit c then Some (take_digits s) else match_digits r
  end.

(** Predicates on strings used to state what the parsers accept. *)
Fixpoint all_digits (s : string) : bool :=
  match s with
  | EmptyString => true
  | String c r => is_digit c && all_digits r
  end.

Fixpoint no_digit (s : string) : bool :=
  match s with
  | EmptyString => true
  | String c r => negb (is_digit c) && no_digit r
  end.

Definition starts_with_digit (s : string) : bool :=
  match s with
  | EmptyString => false
  | String c _ => is_digit c
  end.

Fixpoint repeat_char (c : ascii) (n : nat) : string :=
  match n with
  | O => EmptyString
  | S k => String c (repeat_char c k)
  end.

(** *** [Array.prototype.sort]

    The comparator's result is used through its sign, NaN counting as 0.
    The language fixes the result for a consistent comparator: the stable
    sorted permutation; insertion from the right computes it. *)
Section Sort.
Context {A : Type}.
Variable comparefn : A -> A -> number.

Fixpoint insert (x : A) (l : list A) : list A :=
  match l with
  | [] => [x]
  | y :: r => if gt0 (comparefn x y) then y :: insert x r else x :: l
  end.

Definition sort (l : list A) : list A := fold_right insert [] l.
End Sort.

(** *** Arrays

    [arr.filter((x, i) => p(x, i))] *)
Fixpoint filteri_from {A} (p : A -> nat -> bool) (i : nat) (l : list A)
  : list A :=
  match l with
  | [] => []
  | x :: r => if p x i then x :: filteri_from p (S i) r
              else filteri_from p (S i) r
  end.

Definition filteri {A} (p : A -> nat -> bool) (l : list A) : list A :=
  filteri_from p 0 l.

(** An array whose entries may be [undefined]: [arr[i]] reads [undefined]
    past the end, and [arr[i] = v] past the end extends the array, the
    entries in between being empty (they read [undefined]). *)
Definition array_get {A} (arr : list (option A)) (i : nat) : option A :=
  match nth_error arr i with
  | Some x => x
  | None => None
  end.

Fixpoint array_set {A} (arr : list (option A)) (i : nat) (v : option A)
  : list (option A) :=
  match i, arr with
  | O, [] => [v]
  | O, _ :: r => v :: r
  | S k, [] => None :: array_set [] k v
  | S k, x :: r => x :: array_set r k v
  end.

(** *** [encodeURIComponent], on code units below 256

    Letters, digits and the marks [- _ . ! ~ * ' ( )] are kept; any other
    code unit is written as the octets of its UTF-8 form, each as [%] and
    two upper-case hexadecimal digits. *)
Definition is_unreserved (c : ascii) : bool :=
  let n := nat_of_ascii c in
  ((65 <=? n)%nat && (n <=? 90)%nat)
  || ((97 <=? n)%nat && (n <=? 122)%nat)
  || ((48 <=? n)%nat && (n <=? 57)%nat)
  || (n =? 45)%nat || (n =? 95)%nat || (n =? 46)%nat || (n =? 33)%nat
  || (n =? 126)%nat || (n =? 42)%nat || (n =? 39)%nat || (n =? 40)%nat
  || (n =? 41)%nat.

Definition hex_digit (n : nat) : ascii :=
  if (n <? 10)%nat then ascii_of_nat (48 + n) else ascii_of_nat (55 + n).

Definition percent (octet : nat) : string :=
  String "%" (String (hex_digit (octet / 16))
                (String (hex_digit (octet mod 16)) EmptyString)).

Definition encode_unit (c : ascii) : string :=
  if is_unreserved c then String c EmptyString
  else
    let n := nat_of_ascii c in
    if (n <? 128)%nat then percent n
    else (percent (192 + n / 64) ++ percent (128 + n mod 64))%string.

Fixpoint encodeURIComponent (s : string) : string :=
  match s with
  | EmptyString => EmptyString
  | String c r => (encode_unit c ++ encodeURIComponent r)%string
  end.

(** A comparator of the form [key(a) - key(b)], and the order it sorts
    into. *)
Definition by_key {A} (key : A -> number) (a b : A) : number :=
  sub (key a) (key b).

Definition key_le {A} (key : A -> number) (a b : A) : Prop :=
  leb (key a) (key b) = true.

End JS.

(* ================================================================== *)
(** ** Data model *)
(* ================================================================== *)

(** The identifier column.  Its type is declared with the generated
    database types; the controllers only test an identifier for truthiness
    and pass it to the store.  Both usual column types are instances. *)
Class Identifier (Id : Type) : Type := { id_truthy : Id -> bool }.

#[export] Instance number_identifier : Identifier Z :=
  {| id_truthy := fun n => negb (n =? 0)%Z |}.

#[export] Instance string_identifier : Identifier string :=
  {| id_truthy := fun s => negb (s =? "") |}.

(** A property of a [Partial<...>] object: absent, [null], or a value. *)
Inductive field (A : Type) : Type :=
| Undefined
| Null
| Value (a : A).
Arguments Undefined {A}.
Arguments Null {A}.
Arguments Value {A} a.

(** [x ?? d] *)
Definition nullish {A} (x : field A) (d : A) : A :=
  match x with Value a => a | _ => d end.

(** [{ k: d, ...o }] for one key: the key of [o] wins when present. *)
Definition spread {A} (d o : field A) : field A :=
  match o with Undefined => d | _ => o end.

(** Strict equality [===] of two string-valued properties. *)
Definition strict_eq (x y : field string) : bool :=
  match x, y with
  | Undefined, Undefined => true
  | Null, Null => true
  | Value a, Value b => (a =? b)
  | _, _ => false
  end.

(** Truthiness of a string-valued property. *)
Definition truthy_string (x : field string) : bool :=
  match x with Value s => negb (s =? "") | _ => false end.

Definition truthy_id {Id} `{Identifier Id} (x : field Id) : bool :=
  match x with Value i => id_truthy i | _ => false end.

(** Modelled from the spec: the row type [Tables<"venues">], declared in
    database.types, with the attributes of the spec's data model. *)
Module Row.
Record t (Id : Type) : Type := mk {
  id : Id;
  name : string;
  location : option string;
  website_url : option string;
  brochure_url : option string;
  price_saturday : option string;
  price_sunday : option string;
  price_midweek : option string;
  status : option string;
  status_color : option string;
  notes : option string;
  drive_time_minutes : option Z;
  active : option bool;
  images : option (list string)
  }.
Arguments mk {Id}.
Arguments id {Id}.
Arguments name {Id}.
Arguments location {Id}.
Arguments website_url {Id}.
Arguments brochure_url {Id}.
Arguments price_saturday {Id}.
Arguments price_sunday {Id}.
Arguments price_midweek {Id}.
Arguments status {Id}.
Arguments status_color {Id}.
Arguments notes {Id}.
Arguments drive_time_minutes {Id}.
Arguments active {Id}.
Arguments images {Id}.
End Row.

(** [Partial<Tables<"venues">>]: the draft held by the form. *)
Module Draft.
Record t (Id : Type) : Type := mk {
  id : field Id;
  name : field string;
  location : field string;
  website_url : field string;
  brochure_url : field string;
  price_saturday : field string;
  price_sunday : field string;
  price_midweek : field string;
  status : field string;
  status_color : field string;
  notes : field string;
  drive_time_minutes : field Z;
  active : field bool;
  images : field (list string)
  }.
Arguments mk {Id}.
Arguments id {Id}.
Arguments name {Id}.
Arguments location {Id}.
Arguments website_url {Id}.
Arguments brochure_url {Id}.
Arguments price_saturday {Id}.
Arguments price_sunday {Id}.
Arguments price_midweek {Id}.
Arguments status {Id}.
Arguments status_color {Id}.
Arguments notes {Id}.
Arguments drive_time_minutes {Id}.
Arguments active {Id}.
Arguments images {Id}.

Definition of_option {A} (o : option A) : field A :=
  match o with Some a => Value a | None => Null end.

(** A row handed to the form as [initialData]. *)
Definition of_row {Id} (r : Row.t Id) : t Id :=
  {| id := Value (Row.id r);
     name := Value (Row.name r);
     location := of_option (Row.location r);
     website_url := of_option (Row.website_url r);
     brochure_url := of_option (Row.brochure_url r);
     price_saturday := of_option (Row.price_saturday r);
     price_sunday := of_option (Row.price_sunday r);
     price_midweek := of_option (Row.price_midweek r);
     status := of_option (Row.status r);
     status_color := of_option (Row.status_color r);
     notes := of_option (Row.notes r);
     drive_time_minutes := of_option (Row.drive_time_minutes r);
     active := of_option (Row.active r);
     images := of_option (Row.images r) |}.

(** [{ ...prev, images }] and [{ ...prev, location }] *)
Definition set_images {Id} (prev : t Id) (v : field (list string)) : t Id :=
  {| id := id prev; name := name prev; location := location prev;
     website_url := website_url prev; brochure_url := brochure_url prev;
     price_saturday := price_saturday prev;
     price_sunday := price_sunday prev;
     price_midweek := price_midweek prev;
     status := status prev; status_color := status_color prev;
     notes := notes prev; drive_time_minutes := drive_time_minutes prev;
     active := active prev; images := v |}.

Definition set_location {Id} (prev : t Id) (v : field string) : t Id :=
  {| id := id prev; name := name prev; location := v;
     website_url := website_url prev; brochure_url := brochure_url prev;
     price_saturday := price_saturday prev;
     price_sunday := price_sunday prev;
     price_midweek := price_midweek prev;
     status := status prev; status_color := status_color prev;
     notes := notes prev; drive_time_minutes := drive_time_minutes prev;
     active := active prev; images := images prev |}.

(** [d.images || []] *)
Definition images_or_empty {Id} (d : t Id) : list string :=
  nullish (images d) [].

(** [{ ...prev, brochure_url }], [{ ...prev, status_color }] and
    [{ ...prev, active }] *)
Definition set_brochure_url {Id} (prev : t Id) (v : field string) : t Id :=
  {| id := id prev; name := name prev; location := location prev;
     website_url := website_url prev; brochure_url := v;
     price_saturday := price_saturday prev;
     price_sunday := price_sunday prev;
     price_midweek := price_midweek prev;
     status := status prev; status_color := status_color prev;
     notes := notes prev; drive_time_minutes := drive_time_minutes prev;
     active := active prev; images := images prev |}.

Definition set_status_color {Id} (prev : t Id) (v : field string) : t Id :=
  {| id := id prev; name := name prev; location := location prev;
     website_url := website_url prev; brochure_url := brochure_url prev;
     price_saturday := price_saturday prev;
     price_sunday := price_sunday prev;
     price_midweek := price_midweek prev;
     status := status prev; status_color := v;
     notes := notes prev; drive_time_minutes := drive_time_minutes prev;
     active := active prev; images := images prev |}.

Definition set_active {Id} (prev : t Id) (v : field bool) : t Id :=
  {| id := id prev; name := name prev; location := location prev;
     website_url := website_url prev; brochure_url := brochure_url prev;
     price_saturday := price_saturday prev;
     price_sunday := price_sunday prev;
     price_midweek := price_midweek prev;
     status := status prev; status_color := status_color prev;
     notes := notes prev; drive_time_minutes := drive_time_minutes prev;
     active := v; images := images prev |}.

(** The [name] attributes of the inputs and of the text area that are
    wired to [handleChange]; each is a key of the draft that holds a
    string. *)
Inductive InputName : Type :=
| input_name
| input_location
| input_website_url
| input_status
| input_price_saturday
| input_price_sunday
| input_price_midweek
| input_notes.

(** [prev[k]] and [{ ...prev, [k]: value }] for the key of an input *)
Definition get_text {Id} (d : t Id) (k : InputName) : field string :=
  match k with
  | input_name => name d
  | input_location => location d
  | input_website_url => website_url d
  | input_status => status d
  | input_price_saturday => price_saturday d
  | input_price_sunday => price_sunday d
  | input_price_midweek => price_midweek d
  | input_notes => notes d
  end.

Definition set_text {Id} (prev : t Id) (k : InputName) (value : string)
  : t Id :=
  let pick (k' : InputName) (old : field string) : field string :=
    match k, k' with
    | input_name, input_name
    | input_location, input_location
    | input_website_url, input_website_url
    | input_status, input_status
    | input_price_saturday, input_price_saturday
    | input_price_sunday, input_price_sunday
    | input_price_midweek, input_price_midweek
    | input_notes, input_notes => Value value
    | _, _ => old
    end in
  {| id := id prev;
     name := pick input_name (name prev);
     location := pick input_location (location prev);
     website_url := pick input_website_url (website_url prev);
     brochure_url := brochure_url prev;
     price_saturday := pick input_price_saturday (price_saturday prev);
     price_sunday := pick input_price_sunday (price_sunday prev);
     price_midweek := pick input_price_midweek (price_midweek prev);
     status := pick input_status (status prev);
     status_color := status_color prev;
     notes := pick input_notes (notes prev);
     drive_time_minutes := drive_time_minutes prev;
     active := active prev; images := images prev |}.
End Draft.

(** The object written to the store by the save operation:
    [{ ...formData, active, drive_time_minutes }]. *)
Record dataToSave (Id : Type) : Type := mkData {
  base : Draft.t Id;
  save_active : bool;
  save_drive_time_minutes : field JS.number
}.
Arguments mkData {Id}.
Arguments base {Id}.
Arguments save_active {Id}.
Arguments save_drive_time_minutes {Id}.

Record File : Type := mkFile { file_name : string; file_type : string }.

(* ================================================================== *)
(** ** Effects: a state and exception monad with a trace of calls *)
(* ================================================================== *)

(** A thrown value. *)
Inductive error : Type := Err (msg : string).

(** Calls that leave the component. *)
Inductive event (Id : Type) : Type :=
| ConsoleError (msg : string)
| Alert (msg : string)
| SelectVenues
| UpdateVenue (row : dataToSave Id) (id : Id)
| InsertVenue (row : dataToSave Id)
| Upload (bucket : string) (file : File)
| ComputeRoutes (apiKey destination : string)
| SearchText (apiKey textQuery : string)
| OnSave.
Arguments ConsoleError {Id}.
Arguments Alert {Id}.
Arguments SelectVenues {Id}.
Arguments UpdateVenue {Id}.
Arguments InsertVenue {Id}.
Arguments Upload {Id}.
Arguments ComputeRoutes {Id}.
Arguments SearchText {Id}.
Arguments OnSave {Id}.

Record world (Id St : Type) : Type := mkWorld {
  state : St;
  trace : list (event Id)
}.
Arguments mkWorld {Id St}.
Arguments state {Id St}.
Arguments trace {Id St}.

Inductive result (A : Type) : Type :=
| Ok (a : A)
| Throw (e : error).
Arguments Ok {A}.
Arguments Throw {A}.

Definition M (Id St A : Type) : Type := world Id St -> result A * world Id St.

Section Monad.
Context {Id St : Type}.

Definition ret {A} (a : A) : M Id St A := fun w => (Ok a, w).

Definition bind {A B} (c : M Id St A) (k : A -> M Id St B) : M Id St B :=
  fun w => match c w with
           | (Ok a, w') => k a w'
           | (Throw e, w') => (Throw e, w')
           end.

Definition throw {A} (e : error) : M Id St A := fun w => (Throw e, w).

(** [try { c } catch (e) { h e }] *)
Definition try_catch {A} (c : M Id St A) (h : error -> M Id St A)
  : M Id St A :=
  fun w => match c w with
           | (Ok a, w') => (Ok a, w')
           | (Throw e, w') => h e w'
           end.

(** [try { c } finally { f }] *)
Definition try_finally {A} (c : M Id St A) (f : M Id St unit)
  : M Id St A :=
  fun w => match c w with
           | (r, w') => match f w' with
                        | (Ok _, w'') => (r, w'')
                        | (Throw e, w'') => (Throw e, w'')
                        end
           end.

Definition emit (ev : event Id) : M Id St unit :=
  fun w => (Ok tt, mkWorld (state w) (trace w ++ [ev])).

Definition get : M Id St St := fun w => (Ok (state w), w).

(** A state setter called with an updater function. *)
Definition modify (f : St -> St) : M Id St unit :=
  fun w => (Ok tt, mkWorld (f (state w)) (trace w)).
End Monad.

Notation "x <- c ;; k" := (bind c (fun x => k))
  (at level 61, c at next level, right associativity).
Notation "c ;; k" := (bind c (fun _ => k))
  (at level 61, right associativity).

(** Running an operation from a component state, with an empty trace. *)
Definition run {Id St A} (c : M Id St A) (s : St) : result A * world Id St :=
  c (mkWorld s []).

(** An operation keeps a property of the state: whenever the state has it
    before, the state has it after, whatever the result. *)
Definition preserves {Id St A} (P : St -> Prop) (c : M Id St A) : Prop :=
  forall w, P (state w) -> P (state (snd (c w))).

(* ================================================================== *)
(** ** External collaborators *)
(* ================================================================== *)

(** The outcome of an awaited promise. *)
Inductive response (A : Type) : Type :=
| Rejects (e : error)
| Resolves (a : A).
Arguments Rejects {A}.
Arguments Resolves {A}.

Definition await {Id St A} (r : response A) : M Id St A :=
  match r with
  | Rejects e => throw e
  | Resolves a => ret a
  end.

(** An HTTP response: [response.ok] and the outcome of [response.json()]. *)
Record HttpResponse (B : Type) : Type := mkHttp {
  ok : bool;
  json : response B
}.
Arguments mkHttp {B}.
Arguments ok {B}.
Arguments json {B}.

(** [routes[0].duration] as the directions API may send it: absent (or
    null), a string, or a value of another type that is truthy. *)
Inductive duration_value : Type :=
| DurationAbsent
| DurationString (s : string)
| DurationOther.

Record Route : Type := mkRoute { duration : duration_value }.

Record RoutesData : Type := mkRoutes { routes : option (list Route) }.

Record Place : Type := mkPlace { formattedAddress : field string }.

Record PlacesData : Type := mkPlaces { places : option (list Place) }.

(** Everything outside the components: the configured key, the two
    mapping endpoints, the object storage and the venues table.  The
    storage answers the [n]-th upload of an operation with the upload
    error, if any, and the public URL of the generated path. *)
Record Env (Id : Type) : Type := mkEnv {
  VITE_GOOGLE_MAPS_API_KEY : option string;
  computeRoutes : string -> string -> response (HttpResponse RoutesData);
  searchText : string -> string -> response (HttpResponse PlacesData);
  storage_upload : string -> nat -> File -> response (option error * string);
  venues_select : response (option (list (Row.t Id)) * option error);
  venues_update : dataToSave Id -> Id -> response (option error);
  venues_insert : dataToSave Id -> response (option error)
}.
Arguments mkEnv {Id}.
Arguments VITE_GOOGLE_MAPS_API_KEY {Id}.
Arguments computeRoutes {Id}.
Arguments searchText {Id}.
Arguments storage_upload {Id}.
Arguments venues_select {Id}.
Arguments venues_update {Id}.
Arguments venues_insert {Id}.

(** [if (!apiKey)]: the key is unusable when unset or empty. *)
Definition usable_key (k : option string) : option string :=
  match k with
  | Some s => if (s =? "") then None else Some s
  | None => None
  end.

(** Proof steps shared by the facts on the controllers: unfolding the
    combinators of the monad, and case analysis on the innermost [match]
    of the goal. *)
Ltac run_monad :=
  unfold run, bind, ret, try_finally, try_catch, emit, get, modify, await,
    throw; simpl.

Ltac break_match :=
  repeat match goal with
         | |- context [match ?x with _ => _ end] =>
             lazymatch x with
             | context [match _ with _ => _ end] => fail
             | _ => destruct x eqn:?; simpl
             end
         end.

(* ================================================================== *)
(** ** App.tsx: the venue list controller *)
(* ================================================================== *)

Module App.

Inductive SortOption : Type := alphabetic | distance | price_saturday.

Inductive View : Type := view_list | view_create | view_edit.

Record State (Id : Type) : Type := mkState {
  venues : list (Row.t Id);
  loading : bool;
  view : View;
  editingVenue : option (Row.t Id);
  sortOption : SortOption
}.
Arguments mkState {Id}.
Arguments venues {Id}.
Arguments loading {Id}.
Arguments view {Id}.
Arguments editingVenue {Id}.
Arguments sortOption {Id}.

Section Controller.
Context {Id : Type}.

Definition setVenues (v : list (Row.t Id)) : M Id (State Id) unit :=
  modify (fun s => mkState v (loading s) (view s) (editingVenue s)
                     (sortOption s)).

Definition setLoading (b : bool) : M Id (State Id) unit :=
  modify (fun s => mkState (venues s) b (view s) (editingVenue s)
                     (sortOption s)).

Definition setView (v : View) : M Id (State Id) unit :=
  modify (fun s => mkState (venues s) (loading s) v (editingVenue s)
                     (sortOption s)).

Definition setEditingVenue (v : option (Row.t Id)) : M Id (State Id) unit :=
  modify (fun s => mkState (venues s) (loading s) (view s) v (sortOption s)).

(** The component's state when it mounts. *)
Definition initialState : State Id :=
  mkState [] true view_list None alphabetic.

Definition fetchVenues (env : Env Id) : M Id (State Id) unit :=
  setLoading true ;;
  try_finally
    (try_catch
       (emit SelectVenues ;;
        r <- await (venues_select env) ;;
        let '(data, error) := r in
        match error with
        | Some e => throw e
        | None => setVenues (match data with Some d => d | None => [] end)
        end)
       (fun _ => emit (ConsoleError "Error fetching venues:")))
    (setLoading false).

(** The refetch is started and not awaited; the two setters that follow
    write other fields than the fetch does, so the order in which they
    land does not change the resulting state. *)
Definition handleSave (env : Env Id) : M Id (State Id) unit :=
  fetchVenues env ;;
  setView view_list ;;
  setEditingVenue None.

(** [getPrice] of the [price_saturday] comparator. *)
Definition getPrice (p : option string) : JS.number :=
  match p with
  | None => JS.PInf
  | Some s =>
      if (s =? "") || (s =? "Unavailable") then JS.PInf
      else match JS.match_digits (JS.remove_commas s) with
           | Some m => JS.parseInt10 m
           | None => JS.PInf
           end
  end.

(** [a.drive_time_minutes ?? Infinity] *)
Definition dist (a : Row.t Id) : JS.number :=
  match Row.drive_time_minutes a with
  | Some m => JS.Fin m
  | None => JS.PInf
  end.

(** The comparator handed to [sort]; [localeCompare] is the host's.  A
    name is a string, so [a.name || ""] is the name itself. *)
Definition compareVenues (localeCompare : string -> string -> JS.number)
    (sortOption : SortOption) (a b : Row.t Id) : JS.number :=
  match sortOption with
  | alphabetic => localeCompare (Row.name a) (Row.name b)
  | distance => JS.sub (dist a) (dist b)
  | price_saturday =>
      JS.sub (getPrice (Row.price_saturday a)) (getPrice (Row.price_saturday b))
  end.

Definition sortedVenues (localeCompare : string -> string -> JS.number)
    (sortOption : SortOption) (venues : list (Row.t Id)) : list (Row.t Id) :=
  JS.sort (compareVenues localeCompare sortOption) venues.

Definition handleEdit (venue : Row.t Id) : M Id (State Id) unit :=
  setEditingVenue (Some venue) ;;
  setView view_edit.

Definition handleCreate : M Id (State Id) unit :=
  setEditingVenue None ;;
  setView view_create.

Definition handleCancel : M Id (State Id) unit :=
  setView view_list ;;
  setEditingVenue None.

Definition setSortOption (o : SortOption) : M Id (State Id) unit :=
  modify (fun s => mkState (venues s) (loading s) (view s) (editingVenue s) o).

(** What [main] renders: the spinner, the empty-state message, the cards
    of the sorted venues, or the form with its [initialData]. *)
Inductive Screen : Type :=
| Spinner
| NoVenuesYet
| Cards (cards : list (Row.t Id))
| Form (initialData : option (Row.t Id)).

Definition render (localeCompare : string -> string -> JS.number)
    (s : State Id) : Screen :=
  match view s with
  | view_list =>
      if loading s then Spinner
      else if (List.length (venues s) =? 0)%nat then NoVenuesYet
      else Cards (sortedVenues localeCompare (sortOption s) (venues s))
  | _ => Form (editingVenue s)
  end.

(** One user action or effect of the list controller: the fetch on mount,
    the buttons, the sort selector and the form's [onSave] and
    [onCancel]. *)
Inductive step : State Id -> State Id -> Prop :=
| step_fetch env s : step s (state (snd (run (fetchVenues env) s)))
| step_edit s venue : step s (state (snd (run (handleEdit venue) s)))
| step_create s : step s (state (snd (run handleCreate s)))
| step_save env s : step s (state (snd (run (handleSave env) s)))
| step_cancel s : step s (state (snd (run handleCancel s)))
| step_sort s o : step s (state (snd (run (setSortOption o) s))).

(** The states the controller reaches from its initial state, whatever
    the store answers. *)
Inductive reachable : State Id -> Prop :=
| reach_init : reachable initialState
| reach_step s s' : reachable s -> step s s' -> reachable s'.

End Controller.
End App.

(* ================================================================== *)
(** ** The venue card *)
(* ================================================================== *)

Module VenueCard.

Definition formatDriveTime (minutes : option JS.number) : option string :=
  match minutes with
  | None => None
  | Some m =>
      if JS.falsy m then None
      else if JS.ltb m (JS.Fin 60) then Some (JS.to_string m ++ " mins")%string
      else
        let hours := JS.floor_div m 60 in
        let mins := JS.rem m 60 in
        Some (JS.to_string hours ++ " hr " ++ JS.to_string mins ++ " mins")%string
  end.

Definition driveTimeDisplay {Id} (venue : Row.t Id) : option string :=
  formatDriveTime (option_map JS.Fin (Row.drive_time_minutes venue)).

Record State : Type := mkState {
  hoveredImage : option string;
  isMapOpen : bool;
  isImageOpen : bool;
  selectedImage : option string
}.

Definition initialState : State := mkState None false false None.

(** A URL that is truthy: defined and not empty. *)
Definition truthy_url (url : option string) : option string :=
  match url with
  | Some u => if (u =? "") then None else Some u
  | None => None
  end.

(** [venue.images || []] *)
Definition images {Id} (venue : Row.t Id) : list string :=
  match Row.images venue with
  | Some l => l
  | None => []
  end.

(** [images[0] || null] *)
Definition heroImage {Id} (venue : Row.t Id) : option string :=
  truthy_url (nth_error (images venue) 0).

(** [hoveredImage || heroImage] *)
Definition displayImage {Id} (venue : Row.t Id) (s : State) : option string :=
  match truthy_url (hoveredImage s) with
  | Some u => Some u
  | None => heroImage venue
  end.

(** [images[offset + 1]], the URL of the small image at [offset]; the
    card renders the offsets 0, 1 and 2. *)
Definition smallImage {Id} (venue : Row.t Id) (offset : nat) : option string :=
  nth_error (images venue) (offset + 1).

(** [onMouseEnter] and [onFocus] of a small image, [onMouseLeave] and
    [onBlur]. *)
Definition enterSmallImage (url : option string) (s : State) : State :=
  match truthy_url url with
  | Some u => mkState (Some u) (isMapOpen s) (isImageOpen s) (selectedImage s)
  | None => s
  end.

Definition leaveSmallImage (s : State) : State :=
  mkState None (isMapOpen s) (isImageOpen s) (selectedImage s).

Definition openImageModal (imageUrl : option string) (s : State) : State :=
  match truthy_url imageUrl with
  | None => s
  | Some u => mkState (hoveredImage s) (isMapOpen s) true (Some u)
  end.

Definition closeImageModal (open : bool) (s : State) : State :=
  let s1 := mkState (hoveredImage s) (isMapOpen s) open (selectedImage s) in
  if negb open
  then mkState (hoveredImage s1) (isMapOpen s1) (isImageOpen s1) None
  else s1.

(** The button of the map and the [onOpenChange] of its collapsible. *)
Definition toggleMap (s : State) : State :=
  mkState (hoveredImage s) (negb (isMapOpen s)) (isImageOpen s)
    (selectedImage s).

Definition setIsMapOpen (open : bool) (s : State) : State :=
  mkState (hoveredImage s) open (isImageOpen s) (selectedImage s).

(** The events of a card: the pointer or the focus on the small image at
    one of the three offsets, a click on the displayed image or on a small
    image, the dialog asking to open or close, and the map. *)
Inductive step {Id} (venue : Row.t Id) : State -> State -> Prop :=
| step_enter s offset :
    (offset < 3)%nat ->
    step venue s (enterSmallImage (smallImage venue offset) s)
| step_leave s : step venue s (leaveSmallImage s)
| step_open_displayed s :
    step venue s (openImageModal (displayImage venue s) s)
| step_open_small s offset :
    (offset < 3)%nat ->
    step venue s (openImageModal (smallImage venue offset) s)
| step_dialog s open : step venue s (closeImageModal open s)
| step_toggle_map s : step venue s (toggleMap s)
| step_map s open : step venue s (setIsMapOpen open s).

Inductive reachable {Id} (venue : Row.t Id) : State -> Prop :=
| reach_init : reachable venue initialState
| reach_step s s' : reachable venue s -> step venue s s' -> reachable venue s'.

(** The text of a price cell: a dash for no price, the price as it is for
    "Unavailable", and the price after a pound sign otherwise. *)
Definition priceDisplay (price : option string) : string :=
  match price with
  | None => "-"
  | Some p =>
      if (p =? "") then "-"
      else ((if (p =? "Unavailable") then ""
             else String (ascii_of_nat 163) "") ++ p)%string
  end.

(** The address of the embedded map. *)
Definition mapSrc {Id} (venue : Row.t Id) : string :=
  ("https://maps.google.com/maps?q="
   ++ JS.encodeURIComponent
        (match Row.location venue with Some l => l | None => "" end)
   ++ "&t=&z=8&ie=UTF8&iwloc=&output=embed")%string.

End VenueCard.

(* ================================================================== *)
(** ** The venue form controller *)
(* ================================================================== *)

Module VenueForm.

Definition MAX_IMAGES : nat := 10.

Record State (Id : Type) : Type := mkState {
  formData : Draft.t Id;
  loading : bool;
  searching : bool
}.
Arguments mkState {Id}.
Arguments formData {Id}.
Arguments loading {Id}.
Arguments searching {Id}.

Definition field_map {A B} (f : A -> B) (x : field A) : field B :=
  match x with
  | Undefined => Undefined
  | Null => Null
  | Value a => Value (f a)
  end.

Section Controller.
Context {Id : Type} `{Identifier Id}.

Definition setFormData (f : Draft.t Id -> Draft.t Id) : M Id (State Id) unit :=
  modify (fun s => mkState (f (formData s)) (loading s) (searching s)).

Definition setLoading (b : bool) : M Id (State Id) unit :=
  modify (fun s => mkState (formData s) b (searching s)).

Definition setSearching (b : bool) : M Id (State Id) unit :=
  modify (fun s => mkState (formData s) (loading s) b).

(** [initialData?.k] *)
Definition prop {A} (initialData : option (Draft.t Id))
    (k : Draft.t Id -> field A) : field A :=
  match initialData with
  | Some i => k i
  | None => Undefined
  end.

(** The initial value of the [formData] state: the defaults, overridden
    by the keys of [initialData]; [active] and [images] are set last.
    [Undefined] stands for a key that [initialData] does not have.  A key
    it has with the value [undefined] would override the default too;
    the list controller passes a row or nothing, and no key of a row is
    [undefined]. *)
Definition initialFormData (initialData : option (Draft.t Id)) : Draft.t Id :=
  {| Draft.id := prop initialData Draft.id;
     Draft.name := spread (Value "") (prop initialData Draft.name);
     Draft.location := spread (Value "") (prop initialData Draft.location);
     Draft.website_url :=
       spread (Value "") (prop initialData Draft.website_url);
     Draft.brochure_url :=
       spread (Value "") (prop initialData Draft.brochure_url);
     Draft.price_saturday :=
       spread (Value "") (prop initialData Draft.price_saturday);
     Draft.price_sunday :=
       spread (Value "") (prop initialData Draft.price_sunday);
     Draft.price_midweek :=
       spread (Value "") (prop initialData Draft.price_midweek);
     Draft.status := spread (Value "Pending") (prop initialData Draft.status);
     Draft.status_color :=
       spread (Value "#64748b") (prop initialData Draft.status_color);
     Draft.notes := spread (Value "") (prop initialData Draft.notes);
     Draft.drive_time_minutes :=
       spread Null (prop initialData Draft.drive_time_minutes);
     Draft.active := Value (nullish (prop initialData Draft.active) true);
     Draft.images := Value (nullish (prop initialData Draft.images) []) |}.

Definition initialState (initialData : option (Draft.t Id)) : State Id :=
  mkState (initialFormData initialData) false false.

(** Helper to calculate drive time.  Every exit that is not the parsed
    duration ends in the final [return null]. *)
Definition calculateDriveTime {St} (env : Env Id) (destination : string)
  : M Id St (option JS.number) :=
  try_catch
    (match usable_key (VITE_GOOGLE_MAPS_API_KEY env) with
     | None => ret None
     | Some apiKey =>
         emit (ComputeRoutes apiKey destination) ;;
         response <- await (computeRoutes env apiKey destination) ;;
         if negb (ok response) then ret None
         else
           data <- await (json response) ;;
           match routes data with
           | Some (r :: _) =>
               match duration r with
               | DurationString s =>
                   if (s =? "") then ret None
                   else
                     let durationSeconds :=
                       JS.parseInt10 (JS.remove_first_s s) in
                     ret (Some (JS.round_div durationSeconds 60))
               | DurationOther => throw (Err "TypeError")
               | DurationAbsent => ret None
               end
           | _ => ret None
           end
     end)
    (fun _ =>
       emit (ConsoleError "Failed to calculate drive time") ;; ret None).

Definition handleAutoFillLocation (env : Env Id) : M Id (State Id) unit :=
  s <- get ;;
  let formData := formData s in
  if negb (truthy_string (Draft.name formData)) then ret tt
  else
    setSearching true ;;
    try_finally
      (try_catch
         (match usable_key (VITE_GOOGLE_MAPS_API_KEY env) with
          | None => emit (Alert "Google Maps API Key is missing")
          | Some apiKey =>
              let textQuery := nullish (Draft.name formData) "" in
              emit (SearchText apiKey textQuery) ;;
              searchResponse <- await (searchText env apiKey textQuery) ;;
              if negb (ok searchResponse)
              then throw (Err "Places Search failed")
              else
                searchData <- await (json searchResponse) ;;
                match places searchData with
                | Some (place :: _) =>
                    let location := formattedAddress place in
                    setFormData (fun prev => Draft.set_location prev location)
                | _ => emit (Alert "No location found for this venue name")
                end
          end)
         (fun _ =>
            emit (ConsoleError "Failed to auto-fill location") ;;
            emit (Alert "Failed to find location")))
      (setSearching false).

(** The body of the [for] loop of [uploadImages], from the [n]-th upload
    of the operation on. *)
Fixpoint uploadEach {St} (env : Env Id) (n : nat) (filesToUpload : list File)
    (newImageUrls : list string) : M Id St (list string) :=
  match filesToUpload with
  | [] => ret newImageUrls
  | file :: rest =>
      emit (Upload "images" file) ;;
      r <- await (storage_upload env "images" n file) ;;
      let '(uploadError, publicUrl) := r in
      match uploadError with
      | Some e => throw e
      | None => uploadEach env (S n) rest (newImageUrls ++ [publicUrl])
      end
  end.

(** [uploadImages], run to its end with no other handler in between; its
    two parts are [uploadImages_begin] and [uploadImages_end] below. *)
Definition uploadImages (env : Env Id) (files : list File)
  : M Id (State Id) unit :=
  s <- get ;;
  let formData := formData s in
  if (List.length files =? 0)%nat then ret tt
  else
    let currentImages := Draft.images_or_empty formData in
    if (MAX_IMAGES <=? List.length currentImages)%nat
    then emit (Alert "Maximum 10 images allowed")
    else
      let remainingSlots := (MAX_IMAGES - List.length currentImages)%nat in
      let filesToUpload := firstn remainingSlots files in
      setLoading true ;;
      try_finally
        (try_catch
           (newImageUrls <- uploadEach env 0 filesToUpload [] ;;
            setFormData (fun prev =>
              Draft.set_images prev
                (Value (Draft.images_or_empty prev ++ newImageUrls))))
           (fun _ =>
              emit (ConsoleError "Error uploading images:") ;;
              emit (Alert "Error uploading images")))
        (setLoading false).

(** [if (formData.id)]: the identifier the update is keyed by. *)
Definition update_key (x : field Id) : option Id :=
  match x with
  | Value i => if id_truthy i then Some i else None
  | _ => None
  end.

Definition handleSubmit (env : Env Id) (initialData : option (Draft.t Id))
  : M Id (State Id) unit :=
  s <- get ;;
  let formData := formData s in
  setLoading true ;;
  try_finally
    (try_catch
       (let driveTime := field_map JS.Fin (Draft.drive_time_minutes formData) in
        let locationChanged :=
          negb (strict_eq (Draft.location formData)
                  (prop initialData Draft.location)) in
        let isNew := negb (truthy_id (Draft.id formData)) in
        driveTime <-
          (if truthy_string (Draft.location formData)
              && (locationChanged || isNew)
           then
             calculatedTime <-
               calculateDriveTime env (nullish (Draft.location formData) "") ;;
             match calculatedTime with
             | Some t => ret (Value t)
             | None => ret driveTime
             end
           else ret driveTime) ;;
        let dataToSave :=
          mkData formData (nullish (Draft.active formData) true) driveTime in
        match update_key (Draft.id formData) with
        | Some id =>
            emit (UpdateVenue dataToSave id) ;;
            error <- await (venues_update env dataToSave id) ;;
            match error with Some e => throw e | None => ret tt end
        | None =>
            emit (InsertVenue dataToSave) ;;
            error <- await (venues_insert env dataToSave) ;;
            match error with Some e => throw e | None => ret tt end
        end ;;
        emit OnSave)
       (fun _ =>
          emit (ConsoleError "Error saving venue:") ;;
          emit (Alert "Error saving venue")))
    (setLoading false).

(** Edits of one attribute: the text inputs, the five colour buttons and
    the visibility switch. *)
Definition handleChange (name : Draft.InputName) (value : string)
  : M Id (State Id) unit :=
  setFormData (fun prev => Draft.set_text prev name value).

Definition PREDEFINED_COLORS : list string :=
  ["#64748b"; "#3b82f6"; "#22c55e"; "#eab308"; "#ef4444"].

Definition pickColor (color : string) : M Id (State Id) unit :=
  setFormData (fun prev => Draft.set_status_color prev (Value color)).

Definition onCheckedChange (checked : bool) : M Id (State Id) unit :=
  setFormData (fun prev => Draft.set_active prev (Value checked)).

Definition handleBrochureUpload (env : Env Id) (files : option (list File))
  : M Id (State Id) unit :=
  match files with
  | None | Some [] => ret tt
  | Some (file :: _) =>
      try_finally
        (try_catch
           (setLoading true ;;
            emit (Upload "brochures" file) ;;
            r <- await (storage_upload env "brochures" 0 file) ;;
            let '(uploadError, publicUrl) := r in
            match uploadError with
            | Some e => throw e
            | None =>
                setFormData (fun prev =>
                  Draft.set_brochure_url prev (Value publicUrl))
            end)
           (fun _ =>
              emit (ConsoleError "Error uploading file:") ;;
              emit (Alert "Error uploading file")))
        (setLoading false)
  end.

Definition handleDrop (env : Env Id) (acceptedFiles : list File)
  : M Id (State Id) unit :=
  uploadImages env acceptedFiles.

(** The result tells whether [event.preventDefault()] was called. *)
Definition handlePaste (env : Env Id) (clipboardFiles : list File)
  : M Id (State Id) bool :=
  let pastedFiles :=
    filter (fun file => String.prefix "image/" (file_type file))
      clipboardFiles in
  if (List.length pastedFiles =? 0)%nat then ret false
  else uploadImages env pastedFiles ;; ret true.

Definition removeImage (index : nat) : M Id (State Id) unit :=
  setFormData (fun prev =>
    Draft.set_images prev
      (Value (JS.filteri (fun _ i => negb (i =? index)%nat)
                (Draft.images_or_empty prev)))).

Inductive Direction : Type := up | down.

(** [moveImage] on the copy of the images it works on: [None] when it
    returns before [setFormData], and otherwise the array it hands to
    [setFormData].  The two entries are read first and then written, the
    entry at [index] before its neighbour; nothing checks that [index] is
    the position of an image. *)
Definition moveImage (images : list (option string)) (index : nat)
    (direction : Direction) : option (list (option string)) :=
  match direction with
  | up =>
      if (index =? 0)%nat then None
      else
        let a := JS.array_get images (index - 1) in
        let b := JS.array_get images index in
        Some (JS.array_set (JS.array_set images index a) (index - 1) b)
  | down =>
      if (index + 1 =? List.length images)%nat then None
      else
        let a := JS.array_get images (index + 1) in
        let b := JS.array_get images index in
        Some (JS.array_set (JS.array_set images index a) (index + 1) b)
  end.

(** [imageCount], [isMaxed] and the [disabled] flag of the drop zone *)
Definition imageCount (s : State Id) : nat :=
  List.length (Draft.images_or_empty (formData s)).

Definition isMaxed (s : State Id) : bool :=
  (MAX_IMAGES <=? imageCount s)%nat.

Definition dropzoneDisabled (s : State Id) : bool :=
  loading s || isMaxed s.

(** The heading of the form. *)
Definition heading (s : State Id) : string :=
  if truthy_id (Draft.id (formData s)) then "Edit Venue" else "Add Venue".

(** *** The asynchronous handlers, as their awaits divide them

    [handleAutoFillLocation], [uploadImages], [handleBrochureUpload] and
    [handleSubmit] are written above as they run when nothing else
    happens before they finish.  Each awaits a collaborator, and other
    handlers can run while it waits.  Its first part runs in the call of
    the handler: it reads the draft of the render the handler belongs to
    and sets a flag; what it read goes on in its closure.  Its second part
    runs when the collaborators have answered: it works from the closure,
    and its updaters of [setFormData] apply to the draft of that moment.
    The requests made while waiting only add to the trace. *)
Definition uploadImages_begin (files : list File)
  : M Id (State Id) (option (list File)) :=
  s <- get ;;
  let formData := formData s in
  if (List.length files =? 0)%nat then ret None
  else
    let currentImages := Draft.images_or_empty formData in
    if (MAX_IMAGES <=? List.length currentImages)%nat
    then emit (Alert "Maximum 10 images allowed") ;; ret None
    else
      let remainingSlots := (MAX_IMAGES - List.length currentImages)%nat in
      let filesToUpload := firstn remainingSlots files in
      setLoading true ;; ret (Some filesToUpload).

Definition uploadImages_end (env : Env Id) (filesToUpload : list File)
  : M Id (State Id) unit :=
  try_finally
    (try_catch
       (newImageUrls <- uploadEach env 0 filesToUpload [] ;;
        setFormData (fun prev =>
          Draft.set_images prev
            (Value (Draft.images_or_empty prev ++ newImageUrls))))
       (fun _ =>
          emit (ConsoleError "Error uploading images:") ;;
          emit (Alert "Error uploading images")))
    (setLoading false).

(** A paste calls [uploadImages] on the image files pasted. *)
Definition handlePaste_begin (clipboardFiles : list File)
  : M Id (State Id) (option (list File)) :=
  let pastedFiles :=
    filter (fun file => String.prefix "image/" (file_type file))
      clipboardFiles in
  if (List.length pastedFiles =? 0)%nat then ret None
  else uploadImages_begin pastedFiles.

Definition handleBrochureUpload_begin (files : option (list File))
  : M Id (State Id) (option File) :=
  match files with
  | None | Some [] => ret None
  | Some (file :: _) => setLoading true ;; ret (Some file)
  end.

Definition handleBrochureUpload_end (env : Env Id) (file : File)
  : M Id (State Id) unit :=
  try_finally
    (try_catch
       (emit (Upload "brochures" file) ;;
        r <- await (storage_upload env "brochures" 0 file) ;;
        let '(uploadError, publicUrl) := r in
        match uploadError with
        | Some e => throw e
        | None =>
            setFormData (fun prev =>
              Draft.set_brochure_url prev (Value publicUrl))
        end)
       (fun _ =>
          emit (ConsoleError "Error uploading file:") ;;
          emit (Alert "Error uploading file")))
    (setLoading false).

(** The first part of the auto-fill gives the key and the query of the
    request it waits for; without a key it ends at once. *)
Definition handleAutoFillLocation_begin (env : Env Id)
  : M Id (State Id) (option (string * string)) :=
  s <- get ;;
  let formData := formData s in
  if negb (truthy_string (Draft.name formData)) then ret None
  else
    setSearching true ;;
    match usable_key (VITE_GOOGLE_MAPS_API_KEY env) with
    | None =>
        emit (Alert "Google Maps API Key is missing") ;;
        setSearching false ;;
        ret None
    | Some apiKey => ret (Some (apiKey, nullish (Draft.name formData) ""))
    end.

Definition handleAutoFillLocation_end (env : Env Id)
    (apiKey textQuery : string) : M Id (State Id) unit :=
  try_finally
    (try_catch
       (emit (SearchText apiKey textQuery) ;;
        searchResponse <- await (searchText env apiKey textQuery) ;;
        if negb (ok searchResponse)
        then throw (Err "Places Search failed")
        else
          searchData <- await (json searchResponse) ;;
          match places searchData with
          | Some (place :: _) =>
              let location := formattedAddress place in
              setFormData (fun prev => Draft.set_location prev location)
          | _ => emit (Alert "No location found for this venue name")
          end)
       (fun _ =>
          emit (ConsoleError "Failed to auto-fill location") ;;
          emit (Alert "Failed to find location")))
    (setSearching false).

(** The save works from the draft of its closure throughout. *)
Definition handleSubmit_begin : M Id (State Id) (Draft.t Id) :=
  s <- get ;;
  setLoading true ;;
  ret (formData s).

Definition handleSubmit_end (env : Env Id) (initialData : option (Draft.t Id))
    (formData : Draft.t Id) : M Id (State Id) unit :=
  try_finally
    (try_catch
       (let driveTime := field_map JS.Fin (Draft.drive_time_minutes formData) in
        let locationChanged :=
          negb (strict_eq (Draft.location formData)
                  (prop initialData Draft.location)) in
        let isNew := negb (truthy_id (Draft.id formData)) in
        driveTime <-
          (if truthy_string (Draft.location formData)
              && (locationChanged || isNew)
           then
             calculatedTime <-
               calculateDriveTime env (nullish (Draft.location formData) "") ;;
             match calculatedTime with
             | Some t => ret (Value t)
             | None => ret driveTime
             end
           else ret driveTime) ;;
        let dataToSave :=
          mkData formData (nullish (Draft.active formData) true) driveTime in
        match update_key (Draft.id formData) with
        | Some id =>
            emit (UpdateVenue dataToSave id) ;;
            error <- await (venues_update env dataToSave id) ;;
            match error with Some e => throw e | None => ret tt end
        | None =>
            emit (InsertVenue dataToSave) ;;
            error <- await (venues_insert env dataToSave) ;;
            match error with Some e => throw e | None => ret tt end
        end ;;
        emit OnSave)
       (fun _ =>
          emit (ConsoleError "Error saving venue:") ;;
          emit (Alert "Error saving venue")))
    (setLoading false).

(** One event of the form: a user action, the first part of an
    asynchronous handler, or the second part of one with whatever the
    collaborators answer.  A second part is taken with any closure, which
    covers every operation that can be waiting, and at any moment, so the
    parts of different operations interleave in every order; a drop and a
    paste both start an upload.  What holds of every state reached by
    these events holds of the form however its operations overlap.  The
    arrows of an image call [moveImage] on the draft's images; the step
    exists when the array handed to [setFormData] holds images only. *)
Inductive step (initialData : option (Draft.t Id))
  : State Id -> State Id -> Prop :=
| step_change s name value :
    step initialData s (state (snd (run (handleChange name value) s)))
| step_color s color :
    In color PREDEFINED_COLORS ->
    step initialData s (state (snd (run (pickColor color) s)))
| step_switch s checked :
    step initialData s (state (snd (run (onCheckedChange checked) s)))
| step_remove s index :
    step initialData s (state (snd (run (removeImage index) s)))
| step_move_return s index direction :
    moveImage (map Some (Draft.images_or_empty (formData s))) index direction
    = None ->
    step initialData s s
| step_move s index direction images :
    moveImage (map Some (Draft.images_or_empty (formData s))) index direction
    = Some (map Some images) ->
    step initialData s
      (mkState (Draft.set_images (formData s) (Value images)) (loading s)
         (searching s))
| step_upload_begin s files :
    step initialData s (state (snd (run (uploadImages_begin files) s)))
| step_upload_end env s filesToUpload :
    step initialData s
      (state (snd (run (uploadImages_end env filesToUpload) s)))
| step_brochure_begin s files :
    step initialData s (state (snd (run (handleBrochureUpload_begin files) s)))
| step_brochure_end env s file :
    step initialData s (state (snd (run (handleBrochureUpload_end env file) s)))
| step_autofill_begin env s :
    step initialData s
      (state (snd (run (handleAutoFillLocation_begin env) s)))
| step_autofill_end env s apiKey textQuery :
    step initialData s
      (state (snd (run (handleAutoFillLocation_end env apiKey textQuery) s)))
| step_submit_begin s :
    step initialData s (state (snd (run handleSubmit_begin s)))
| step_submit_end env s formData :
    step initialData s
      (state (snd (run (handleSubmit_end env initialData formData) s))).

(** The states of a form opened with [initialData]. *)
Inductive reachable (initialData : option (Draft.t Id)) : State Id -> Prop :=
| reach_init : reachable initialData (initialState initialData)
| reach_step s s' :
    reachable initialData s -> step initialData s s' ->
    reachable initialData s'.

End Controller.
End VenueForm.

(* ================================================================== *)
(** ** The list and the form together *)
(* ================================================================== *)

Module Session.
Section Controller.
Context {Id : Type} `{Identifier Id}.

(** [initialData={editingVenue}]: the form that [main] renders. *)
Definition initialData (app : App.State Id) : option (Draft.t Id) :=
  option_map Draft.of_row (App.editingVenue app).

Definition occurs_OnSave (tr : list (event Id)) : bool :=
  existsb (fun ev => match ev with OnSave => true | _ => false end) tr.

(** A submit of the form rendered by the list controller: [onSave] is
    [handleSave].  The result is the controller's state, the form's state
    and the calls of both. *)
Definition submit (env : Env Id) (app : App.State Id)
    (form : VenueForm.State Id)
  : App.State Id * VenueForm.State Id * list (event Id) :=
  let saved := snd (run (VenueForm.handleSubmit env (initialData app)) form) in
  if occurs_OnSave (trace saved)
  then
    let reloaded := snd (run (App.handleSave env) app) in
    (state reloaded, state saved, trace saved ++ trace reloaded)
  else (app, state saved, trace saved).

End Controller.
End Session.

(* ================================================================== *)
(** ** Observations on traces and collaborators *)
(* ================================================================== *)

(** The store writes of a trace. *)
Definition is_write {Id} (ev : event Id) : bool :=
  match ev with
  | UpdateVenue _ _ | InsertVenue _ => true
  | _ => false
  end.

Definition writes {Id} (tr : list (event Id)) : list (event Id) :=
  filter is_write tr.

(** The requests of a trace to the directions API and to the places API. *)
Definition is_computeRoutes {Id} (ev : event Id) : bool :=
  match ev with
  | ComputeRoutes _ _ => true
  | _ => false
  end.

Definition directions_requests {Id} (tr : list (event Id)) : list (event Id) :=
  filter is_computeRoutes tr.

(** The files of a trace's uploads to the images bucket. *)
Definition uploaded_file {Id} (ev : event Id) : option File :=
  match ev with
  | Upload bucket file => if (bucket =? "images") then Some file else None
  | _ => None
  end.

Fixpoint uploads {Id} (tr : list (event Id)) : list File :=
  match tr with
  | [] => []
  | ev :: r => match uploaded_file ev with
               | Some f => f :: uploads r
               | None => uploads r
               end
  end.

(** The user-visible messages of a trace. *)
Fixpoint alerts {Id} (tr : list (event Id)) : list string :=
  match tr with
  | [] => []
  | Alert msg :: r => msg :: alerts r
  | _ :: r => alerts r
  end.

(** The [n]-th upload of an operation fails for [file]: the request
    rejects or answers with an upload error. *)
Definition upload_fails {Id} (env : Env Id) (n : nat) (file : File) : bool :=
  match storage_upload env "images" n file with
  | Resolves (None, _) => false
  | _ => true
  end.

Definition publicUrl {Id} (env : Env Id) (n : nat) (file : File) : string :=
  match storage_upload env "images" n file with
  | Resolves (_, url) => url
  | Rejects _ => ""
  end.

(** The public URLs of the files of a batch, uploaded from the [n]-th
    upload on. *)
Fixpoint publicUrls {Id} (env : Env Id) (n : nat) (files : list File)
  : list string :=
  match files with
  | [] => []
  | f :: r => publicUrl env n f :: publicUrls env (S n) r
  end.

(** The select of the venues table fails: the request rejects or answers
    with an error. *)
Definition select_fails {Id} (env : Env Id) : bool :=
  match venues_select env with
  | Resolves (_, None) => false
  | _ => true
  end.

(** The test of the save operation before it asks for a drive time: the
    draft's location is non-empty ([formData.location] is truthy) and
    either differs ([!==]) from the location of [initialData] or the
    draft's identifier is absent, null or falsy ([!formData.id]). *)
Definition recompute_condition {Id} `{Identifier Id}
    (initialData : option (Draft.t Id)) (formData : Draft.t Id) : bool :=
  truthy_string (Draft.location formData)
  && (negb (strict_eq (Draft.location formData)
              (VenueForm.prop initialData Draft.location))
      || negb (truthy_id (Draft.id formData))).

(** What [calculateDriveTime] returns and what it emits, read off a run
    from an empty trace. *)
Definition drive_time_result {Id} `{Identifier Id} (env : Env Id)
    (destination : string) : option JS.number :=
  match fst (run (VenueForm.calculateDriveTime env destination) tt) with
  | Ok r => r
  | Throw _ => None
  end.

Definition drive_time_events {Id} `{Identifier Id} (env : Env Id)
    (destination : string) : list (event Id) :=
  trace (snd (run (VenueForm.calculateDriveTime env destination) tt)).

(** The requests of a trace to the places API. *)
Definition is_searchText {Id} (ev : event Id) : bool :=
  match ev with
  | SearchText _ _ => true
  | _ => false
  end.

Definition places_requests {Id} (tr : list (event Id)) : list (event Id) :=
  filter is_searchText tr.

(** The draft of a form state has the identifier [i] and the drive time
    [d]. *)
Definition identity {Id} (i : field Id) (d : field Z)
    (s : VenueForm.State Id) : Prop :=
  Draft.id (VenueForm.formData s) = i /\
  Draft.drive_time_minutes (VenueForm.formData s) = d.

(** The selects of a trace. *)
Definition selects {Id} (tr : list (event Id)) : list (event Id) :=
  filter (fun ev => match ev with SelectVenues => true | _ => false end) tr.

(** What the store answers to a write of a trace, and whether the write
    succeeds: the request resolves without an error. *)
Definition write_response {Id} (env : Env Id) (ev : event Id)
  : option (response (option error)) :=
  match ev with
  | UpdateVenue row i => Some (venues_update env row i)
  | InsertVenue row => Some (venues_insert env row)
  | _ => None
  end.

Definition write_succeeds {Id} (env : Env Id) (ev : event Id) : bool :=
  match write_response env ev with
  | Some (Resolves None) => true
  | _ => false
  end.

(** A file whose type starts with "image/". *)
Definition is_image (file : File) : bool :=
  String.prefix "image/" (file_type file).

(* ================================================================== *)
(** ** Sample data *)
(* ================================================================== *)

Module Sample.

(** A host collation for the samples: comparison by code units. *)
Definition ordinalCompare (a b : string) : JS.number :=
  match String.compare a b with
  | Lt => JS.Fin (-1)
  | Eq => JS.Fin 0
  | Gt => JS.Fin 1
  end.

(** A row with the given identifier, name, Saturday price and drive
    time. *)
Definition venue (id : Z) (name : string) (price : option string)
    (drive : option Z) : Row.t Z :=
  Row.mk id name None None None price None None (Some "Pending")
    (Some "#64748b") None drive (Some true) (Some []).

Definition pound : string := String (ascii_of_nat 163) "".

Definition v1200 : Row.t Z := venue 1 "Manor" (Some (pound ++ "1,200")%string) None.
Definition vUnavailable : Row.t Z := venue 2 "Castle" (Some "Unavailable") None.
Definition v800 : Row.t Z := venue 3 "Barn" (Some "800") None.

(** A price of 310 digits: 1 followed by 309 zeros. *)
Definition huge_price : string := String "1" (JS.repeat_char "0" 309).
Definition vHuge : Row.t Z := venue 4 "Palace" (Some huge_price) None.

Definition vA : Row.t Z := venue 1 "A" None (Some 30%Z).
Definition vB : Row.t Z := venue 2 "B" None None.
Definition vC : Row.t Z := venue 3 "C" None (Some 10%Z).

(** Collaborators that are out of reach: no key, every request rejects. *)
Definition offline : Env Z :=
  mkEnv None
    (fun _ _ => Rejects (Err "network"))
    (fun _ _ => Rejects (Err "network"))
    (fun _ _ _ => Rejects (Err "network"))
    (Rejects (Err "network"))
    (fun _ _ => Rejects (Err "network"))
    (fun _ => Rejects (Err "network")).

(** Collaborators that answer: the directions API with the given
    duration, the storage with an error on the uploads listed in
    [failing], the key as given. *)
Definition url_of (n : nat) (f : File) : string :=
  ("https://cdn.example/" ++ file_name f)%string.

Definition online (key : option string) (d : duration_value)
    (failing : list nat) : Env Z :=
  mkEnv key
    (fun _ _ => Resolves (mkHttp true (Resolves (mkRoutes (Some [mkRoute d])))))
    (fun _ _ => Resolves (mkHttp true (Resolves (mkPlaces (Some
                  [mkPlace (Value "Castlehill, Edinburgh EH1 2NG")])))))
    (fun _ n f =>
       if existsb (Nat.eqb n) failing
       then Resolves (Some (Err "upload failed"), url_of n f)
       else Resolves (None, url_of n f))
    (Resolves (Some [vC; vA], None))
    (fun _ _ => Resolves None)
    (fun _ => Resolves None).

Definition photo (name : string) : File := mkFile name "image/jpeg".

(** A draft of a new venue, as the create form holds it after typing a
    name and a location. *)
Definition new_draft : Draft.t Z :=
  Draft.set_location
    (VenueForm.initialFormData None) (Value "Edinburgh Castle").

(** A draft with [n] images. *)
Definition draft_with_images (n : nat) : Draft.t Z :=
  Draft.set_images (VenueForm.initialFormData None)
    (Value (map (fun k => url_of k (photo "old.jpg")) (seq 0 n))).

Definition brochure : File := mkFile "brochure.pdf" "application/pdf".

Definition three_photos : list File :=
  [photo "a.jpg"; photo "b.jpg"; photo "c.jpg"].

(** A stored venue and the draft of the form that edits it. *)
Definition stored : Row.t Z :=
  Row.mk 7%Z "Castle" (Some "Edinburgh Castle") None None (Some "4,500")
    None None (Some "Visited") (Some "#22c55e") None (Some 25%Z) (Some true)
    (Some []).

Definition stored_draft : Draft.t Z :=
  VenueForm.initialFormData (Some (Draft.of_row stored)).

(** The same venue stored under the identifier 0, and its draft. *)
Definition stored_zero : Row.t Z :=
  Row.mk 0%Z "Castle" (Some "Edinburgh Castle") None None (Some "4,500")
    None None (Some "Visited") (Some "#22c55e") None (Some 25%Z) (Some true)
    (Some []).

Definition stored_zero_draft : Draft.t Z :=
  VenueForm.initialFormData (Some (Draft.of_row stored_zero)).

(** A draft with the images a, b, c, d. *)
Definition abcd : list string := ["a.jpg"; "b.jpg"; "c.jpg"; "d.jpg"].

Definition draft_abcd : Draft.t Z :=
  Draft.set_images (VenueForm.initialFormData None) (Value abcd).

(** The list controller after a first fetch that succeeded. *)
Definition loaded : App.State Z :=
  state (snd (run (App.fetchVenues (online None DurationAbsent []))
                App.initialState)).

End Sample.

(* ================================================================== *)
(** ** Facts about numbers and sorting *)
(* ================================================================== *)

Module JSFacts.
Import JS.

Lemma round_mag_small (n : N) : (n < two53)%N -> round_mag n = Some n.
Proof.
  intros Hn. unfold round_mag.
  apply N.ltb_lt in Hn. now rewrite Hn.
Qed.

Lemma round_mag_pos (n v : N) :
  (0 < n)%N -> round_mag n = Some v -> (0 < v)%N.
Proof.
  intros Hn. unfold round_mag.
  destruct (n <? two53)%N.
  - intros [= <-]. exact Hn.
  - set (e := (N.log2 n - 52)%N).
    set (q := (n / 2 ^ e)%N).
    match goal with
    | |- context [if ?c then (q + 1)%N else q] =>
        set (q' := if c then (q + 1)%N else q)
    end.
    destruct (2 ^ 1024 <=? q' * 2 ^ e)%N; [discriminate|].
    intros [= <-].
    assert (Hpow : (0 < 2 ^ e)%N).
    { apply N.neq_0_lt_0, N.pow_nonzero. discriminate. }
    assert (Hle : (2 ^ e <= n)%N).
    { transitivity (2 ^ N.log2 n)%N.
      - apply N.pow_le_mono_r; [discriminate|]. subst e. lia.
      - apply N.log2_spec, Hn. }
    assert (Hq : (0 < q)%N) by (subst q; apply N.div_str_pos; lia).
    assert (Hq' : (0 < q')%N).
    { subst q'. match goal with |- context [if ?c then _ else _] =>
        destruct c end; lia. }
    apply N.mul_pos_pos; assumption.
Qed.

Lemma round_double_small (z : Z) :
  (Z.abs z < Z.of_N two53)%Z -> round_double z = Fin z.
Proof.
  intros Hz. destruct z as [|p|p]; simpl; [reflexivity| |].
  - rewrite round_mag_small by (unfold two53; simpl in Hz; lia). reflexivity.
  - rewrite round_mag_small by (unfold two53; simpl in Hz; lia). reflexivity.
Qed.

(** Rounding keeps the sign. *)
Lemma gt0_round_double (z : Z) : gt0 (round_double z) = (0 <? z)%Z.
Proof.
  destruct z as [|p|p]; simpl; [reflexivity| |].
  - destruct (round_mag (N.pos p)) as [v|] eqn:E; simpl; [|reflexivity].
    apply round_mag_pos in E; [|reflexivity].
    apply Z.ltb_lt. lia.
  - destruct (round_mag (N.pos p)) as [v|] eqn:E; simpl; [|reflexivity].
    apply round_mag_pos in E; [|reflexivity].
    apply Z.ltb_ge. lia.
Qed.

(** On numbers that are not NaN, [x - y > 0] exactly when [y < x]. *)
Lemma gt0_sub (x y : number) :
  is_nan x = false -> is_nan y = false -> gt0 (sub x y) = ltb y x.
Proof.
  destruct x as [a| | |], y as [b| | |]; simpl; intros; try discriminate;
    try reflexivity.
  rewrite gt0_round_double.
  destruct (Z.ltb_spec 0 (a - b)), (Z.ltb_spec b a); try reflexivity; lia.
Qed.

Lemma ltb_irrefl (x : number) : ltb x x = false.
Proof. destruct x; simpl; try reflexivity. apply Z.ltb_irrefl. Qed.

Lemma leb_trans (x y z : number) :
  is_nan y = false -> leb x y = true -> leb y z = true -> leb x z = true.
Proof.
  unfold leb.
  destruct x, y, z; simpl; try discriminate; try reflexivity.
  rewrite !negb_true_iff, !Z.ltb_ge. lia.
Qed.

Lemma ltb_leb (x y : number) : ltb x y = true -> leb x y = true.
Proof.
  unfold leb. destruct x, y; simpl; try discriminate; try reflexivity.
  rewrite negb_true_iff, Z.ltb_lt, Z.ltb_ge. lia.
Qed.

Lemma eqb_eq (x y : number) : eqb x y = true -> x = y.
Proof.
  destruct x, y; simpl; try discriminate; try reflexivity.
  intros E. apply Z.eqb_eq in E. now subst.
Qed.

(** *** Insertion and sorting, for any comparator *)
Section AnyComparator.
Context {A : Type}.
Variable comparefn : A -> A -> number.

Lemma insert_perm (x : A) (l : list A) :
  Permutation (insert comparefn x l) (x :: l).
Proof.
  induction l as [|y r IH]; simpl.
  - apply Permutation_refl.
  - destruct (gt0 (comparefn x y)).
    + rewrite IH. apply perm_swap.
    + apply Permutation_refl.
Qed.

Lemma sort_perm (l : list A) : Permutation (sort comparefn l) l.
Proof.
  induction l as [|x r IH]; simpl.
  - apply perm_nil.
  - rewrite insert_perm. now apply perm_skip.
Qed.
End AnyComparator.

(** *** Sorting by a numeric key: comparator [key a - key b] *)
Section ByKey.
Context {A : Type}.
Variable key : A -> number.
Hypothesis key_number : forall a, is_nan (key a) = false.

Lemma insert_sorted (x : A) (l : list A) :
  StronglySorted (key_le key) l ->
  StronglySorted (key_le key) (insert (by_key key) x l).
Proof.
  induction 1 as [|y r Hr IH Hy]; simpl.
  - repeat constructor.
  - unfold by_key at 1. rewrite gt0_sub by apply key_number.
    destruct (ltb (key y) (key x)) eqn:E.
    + constructor; [exact IH|].
      apply (Permutation_Forall
               (Permutation_sym (insert_perm (by_key key) x r))).
      constructor; [|exact Hy]. now apply ltb_leb.
    + assert (Hxy : key_le key x y) by (unfold key_le, leb; now rewrite E).
      constructor; [now constructor|].
      constructor; [exact Hxy|].
      eapply Forall_impl; [|exact Hy].
      intros b Hb. unfold key_le in *.
      eapply leb_trans; [apply key_number|exact Hxy|exact Hb].
Qed.

Lemma sort_sorted (l : list A) :
  StronglySorted (key_le key) (sort (by_key key) l).
Proof.
  induction l as [|x r IH]; simpl.
  - constructor.
  - now apply insert_sorted.
Qed.

(** Stability: the elements of any one key keep their relative order. *)
Lemma insert_filter (k : number) (x : A) (l : list A) :
  filter (fun a => eqb (key a) k) (insert (by_key key) x l) =
  filter (fun a => eqb (key a) k) (x :: l).
Proof.
  induction l as [|y r IH]; [reflexivity|].
  cbn [insert]. unfold by_key at 1. rewrite gt0_sub by apply key_number.
  destruct (ltb (key y) (key x)) eqn:E; [|reflexivity].
  cbn [filter] in *. rewrite IH.
  destruct (eqb (key x) k) eqn:Ex, (eqb (key y) k) eqn:Ey; try reflexivity.
  apply eqb_eq in Ex, Ey. subst k. rewrite <- Ey in E.
  now rewrite ltb_irrefl in E.
Qed.

Lemma sort_stable (k : number) (l : list A) :
  filter (fun a => eqb (key a) k) (sort (by_key key) l) =
  filter (fun a => eqb (key a) k) l.
Proof.
  induction l as [|x r IH]; [reflexivity|].
  cbn [sort fold_right]. rewrite insert_filter.
  cbn [filter]. fold (sort (by_key key) r). now rewrite IH.
Qed.
End ByKey.

(** In a sorted list an element stands before every later one. *)
Lemma StronglySorted_nth_error {A} (R : A -> A -> Prop) (l : list A) :
  StronglySorted R l ->
  forall i j a b, (i < j)%nat ->
    nth_error l i = Some a -> nth_error l j = Some b -> R a b.
Proof.
  induction 1 as [|x r Hr IH Hx]; intros i j a b Hij Ha Hb.
  - destruct i; discriminate.
  - destruct j as [|j]; [lia|]. simpl in Hb.
    destruct i as [|i]; simpl in Ha.
    + injection Ha as <-.
      rewrite Forall_forall in Hx. apply Hx.
      eapply nth_error_In; eassumption.
    + apply (IH i j); [lia|assumption|assumption].
Qed.

(** After sorting by a key, an element of smaller key stands at a smaller
    index. *)
Lemma sort_position {A} (key : A -> number) (l : list A) :
  (forall a, is_nan (key a) = false) ->
  forall i j a b,
    nth_error (sort (by_key key) l) i = Some a ->
    nth_error (sort (by_key key) l) j = Some b ->
    ltb (key a) (key b) = true -> (i < j)%nat.
Proof.
  intros Hkey i j a b Ha Hb Hlt.
  destruct (Nat.lt_trichotomy i j) as [Hij|[Hij|Hij]]; [exact Hij| |].
  - subst j. rewrite Ha in Hb. injection Hb as <-.
    now rewrite ltb_irrefl in Hlt.
  - pose proof (StronglySorted_nth_error _ _ (sort_sorted key Hkey l)
                  j i b a Hij Hb Ha) as Hle.
    unfold key_le, leb in Hle. now rewrite Hlt in Hle.
Qed.

End JSFacts.

(* ================================================================== *)
(** ** Facts about the parsers *)
(* ================================================================== *)

Module ParseFacts.
Import JS.

Lemma digit_not_space (c : ascii) : is_digit c = true -> is_space c = false.
Proof.
  destruct c as [[] [] [] [] [] [] [] []]; vm_compute; congruence.
Qed.

Lemma remove_commas_filter (s : string) :
  list_ascii_of_string (remove_commas s) =
  filter (fun c => negb (c =? ",")%char) (list_ascii_of_string s).
Proof.
  induction s as [|c r IH]; simpl; [reflexivity|].
  destruct (c =? ",")%char; simpl; now rewrite IH.
Qed.

Lemma remove_commas_no_digit (s : string) :
  no_digit s = true -> no_digit (remove_commas s) = true.
Proof.
  induction s as [|c r IH]; simpl; [reflexivity|].
  intros Hs. apply andb_true_iff in Hs as [Hc Hr].
  destruct (c =? ",")%char; simpl; [now apply IH|].
  now rewrite Hc, IH.
Qed.

Lemma match_digits_none (s : string) :
  no_digit s = true -> match_digits s = None.
Proof.
  induction s as [|c r IH]; simpl; [reflexivity|].
  intros Hs. apply andb_true_iff in Hs as [Hc Hr].
  apply negb_true_iff in Hc. rewrite Hc. now apply IH.
Qed.

Lemma take_digits_run (ds rest : string) :
  all_digits ds = true -> starts_with_digit rest = false ->
  take_digits (ds ++ rest) = ds.
Proof.
  intros Hds Hrest. induction ds as [|c r IH]; simpl.
  - destruct rest as [|c r]; [reflexivity|].
    simpl in Hrest. simpl. now rewrite Hrest.
  - simpl in Hds. apply andb_true_iff in Hds as [Hc Hr].
    rewrite Hc. now rewrite IH.
Qed.

Lemma take_digits_all (ds : string) :
  all_digits ds = true -> take_digits ds = ds.
Proof.
  induction ds as [|c r IH]; simpl; [reflexivity|].
  intros Hds. apply andb_true_iff in Hds as [Hc Hr].
  rewrite Hc. now rewrite IH.
Qed.

Lemma take_digits_digits (s : string) : all_digits (take_digits s) = true.
Proof.
  induction s as [|c r IH]; simpl; [reflexivity|].
  destruct (is_digit c) eqn:E; simpl; [|reflexivity].
  now rewrite E, IH.
Qed.

(** The capture group is a non-empty run of digits. *)
Lemma match_digits_some (s m : string) :
  match_digits s = Some m -> all_digits m = true /\ m <> EmptyString.
Proof.
  induction s as [|c r IH]; simpl; [discriminate|].
  destruct (is_digit c) eqn:E; [|exact IH].
  intros [= <-]. split.
  - simpl. now rewrite E, take_digits_digits.
  - discriminate.
Qed.

(** The leftmost run of digits is the one captured. *)
Lemma match_digits_run (pre ds rest : string) :
  no_digit pre = true -> all_digits ds = true -> ds <> EmptyString ->
  starts_with_digit rest = false ->
  match_digits (pre ++ ds ++ rest) = Some ds.
Proof.
  intros Hpre Hds Hne Hrest. induction pre as [|c r IH]; simpl.
  - destruct ds as [|d ds']; [congruence|].
    change (String d ds' ++ rest)%string with (String d (ds' ++ rest)).
    cbn [match_digits].
    pose proof Hds as Hds'. simpl in Hds'.
    apply andb_true_iff in Hds' as [Hd _]. rewrite Hd.
    change (String d (ds' ++ rest)) with (String d ds' ++ rest)%string.
    now rewrite take_digits_run.
  - simpl in Hpre. apply andb_true_iff in Hpre as [Hc Hr].
    apply negb_true_iff in Hc. rewrite Hc. now apply IH.
Qed.

(** [parseInt] of a non-empty run of digits is its decimal value, rounded
    to a double. *)
Lemma parseInt10_digits (ds : string) :
  all_digits ds = true -> ds <> EmptyString ->
  parseInt10 ds = round_double (Z.of_N (decimal_value ds)).
Proof.
  intros Hds Hne. destruct ds as [|c r]; [congruence|].
  pose proof (take_digits_all _ Hds) as Htake.
  simpl in Hds. apply andb_true_iff in Hds as [Hc Hr].
  unfold parseInt10. cbn [skip_spaces].
  rewrite (digit_not_space c Hc).
  assert (Hsign : match String c r with
                  | String "-" r' => (true, r')
                  | String "+" r' => (false, r')
                  | _ => (false, String c r)
                  end = (false, String c r)).
  { destruct c as [[] [] [] [] [] [] [] []]; try reflexivity;
      vm_compute in Hc; discriminate. }
  rewrite Hsign, Htake. reflexivity.
Qed.

Lemma round_double_not_nan (z : Z) : is_nan (round_double z) = false.
Proof.
  destruct z as [|p|p]; simpl; [reflexivity| |];
    destruct (round_mag (N.pos p)); reflexivity.
Qed.

End ParseFacts.

(* ================================================================== *)
(** ** The venue list: sort order *)
(* ================================================================== *)

Module AppFacts.
Import JS JSFacts ParseFacts.

Lemma getPrice_not_nan (p : option string) : is_nan (App.getPrice p) = false.
Proof.
  destruct p as [s|]; simpl; [|reflexivity].
  destruct ((s =? "") || (s =? "Unavailable"))%bool; [reflexivity|].
  destruct (match_digits (remove_commas s)) as [m|] eqn:E; [|reflexivity].
  apply match_digits_some in E as [Hm Hne].
  rewrite parseInt10_digits by assumption.
  apply round_double_not_nan.
Qed.

Lemma getPrice_no_digit (p : string) :
  no_digit p = true -> App.getPrice (Some p) = PInf.
Proof.
  intros Hp. simpl.
  destruct ((p =? "") || (p =? "Unavailable"))%bool; [reflexivity|].
  now rewrite (match_digits_none _ (remove_commas_no_digit _ Hp)).
Qed.

Lemma getPrice_run (p pre ds rest : string) :
  remove_commas p = (pre ++ ds ++ rest)%string ->
  no_digit pre = true -> all_digits ds = true -> ds <> EmptyString ->
  starts_with_digit rest = false ->
  App.getPrice (Some p) = round_double (Z.of_N (decimal_value ds)).
Proof.
  intros Hp Hpre Hds Hne Hrest.
  pose proof (match_digits_run pre ds rest Hpre Hds Hne Hrest) as Hm.
  rewrite <- Hp in Hm. simpl.
  destruct (String.eqb_spec p "") as [->|_].
  { simpl in Hm. discriminate. }
  destruct (String.eqb_spec p "Unavailable") as [->|_].
  { vm_compute in Hm. discriminate. }
  simpl. rewrite Hm. now apply parseInt10_digits.
Qed.

Lemma compare_price {Id} lc :
  App.compareVenues lc App.price_saturday =
  by_key (fun v : Row.t Id => App.getPrice (Row.price_saturday v)).
Proof. reflexivity. Qed.

Lemma compare_distance {Id} lc :
  App.compareVenues lc App.distance = by_key (@App.dist Id).
Proof. reflexivity. Qed.

Lemma dist_not_nan {Id} (v : Row.t Id) : is_nan (App.dist v) = false.
Proof. unfold App.dist. now destruct (Row.drive_time_minutes v). Qed.

(** C1 (as amended).  With the [price_saturday] key the venues are sorted
    ascending by [getPrice]: a null, empty or "Unavailable" price, and a
    price without a digit, compare as +infinity; otherwise the commas are
    stripped and the first run of digits is parsed by [parseInt], which
    gives the run's decimal value exactly below 2^53 and its nearest
    double above.  The value is always a number, for every input string.
    A venue whose value is +infinity stands after every venue whose value
    is finite; the prices 1,200 pounds, "Unavailable" and "800" sort as
    800, 1,200, Unavailable. *)
Theorem price_saturday_order {Id} (localeCompare : string -> string -> number)
    (venues : list (Row.t Id)) :
  let price := fun v : Row.t Id => App.getPrice (Row.price_saturday v) in
  let sorted := App.sortedVenues localeCompare App.price_saturday venues in
  (App.getPrice None = PInf /\
   App.getPrice (Some "") = PInf /\
   App.getPrice (Some "Unavailable") = PInf) /\
  (forall p, no_digit p = true -> App.getPrice (Some p) = PInf) /\
  (forall p,
      list_ascii_of_string (remove_commas p) =
      filter (fun c => negb (c =? ",")%char) (list_ascii_of_string p)) /\
  (forall p pre ds rest,
      remove_commas p = (pre ++ ds ++ rest)%string ->
      no_digit pre = true -> all_digits ds = true -> ds <> EmptyString ->
      starts_with_digit rest = false ->
      App.getPrice (Some p) = round_double (Z.of_N (decimal_value ds)) /\
      ((decimal_value ds < two53)%N ->
       App.getPrice (Some p) = Fin (Z.of_N (decimal_value ds)))) /\
  (forall p, is_nan (App.getPrice p) = false) /\
  Permutation sorted venues /\
  StronglySorted (key_le price) sorted /\
  (forall i j a b,
      nth_error sorted i = Some a -> nth_error sorted j = Some b ->
      is_finite (price a) = true -> price b = PInf -> (i < j)%nat) /\
  map Row.price_saturday
    (App.sortedVenues localeCompare App.price_saturday
       [Sample.v1200; Sample.vUnavailable; Sample.v800]) =
  [Some "800"; Some (Sample.pound ++ "1,200")%string; Some "Unavailable"].
Proof.
  intros price sorted.
  split; [repeat split|].
  split; [exact getPrice_no_digit|].
  split; [exact remove_commas_filter|].
  split.
  { intros p pre ds rest Hp Hpre Hds Hne Hrest.
    pose proof (getPrice_run p pre ds rest Hp Hpre Hds Hne Hrest) as E.
    split; [exact E|].
    intros Hsmall. rewrite E. apply round_double_small.
    rewrite Z.abs_eq by lia. lia. }
  split; [exact getPrice_not_nan|].
  assert (Hkey : forall a : Row.t Id, is_nan (price a) = false).
  { intros a. apply getPrice_not_nan. }
  subst sorted. unfold App.sortedVenues. rewrite compare_price.
  fold price.
  split; [apply sort_perm|].
  split; [now apply sort_sorted|].
  split; [|reflexivity].
  intros i j a b Ha Hb Hfin Hinf.
  apply (sort_position price venues Hkey i j a b Ha Hb).
  rewrite Hinf. destruct (price a); try discriminate. reflexivity.
Qed.

(** C8.  With the [distance] key the venues are sorted ascending by
    [drive_time_minutes], a null value counting as +infinity: every venue
    with a null drive time stands after every venue with a value, venues
    of equal key keep their fetch order, and A:30, B:null, C:10 sort as
    C, A, B. *)
Theorem distance_order {Id} (localeCompare : string -> string -> number)
    (venues : list (Row.t Id)) :
  let sorted := App.sortedVenues localeCompare App.distance venues in
  Permutation sorted venues /\
  StronglySorted (key_le App.dist) sorted /\
  (forall i j a b m n,
      nth_error sorted i = Some a -> nth_error sorted j = Some b ->
      Row.drive_time_minutes a = Some m ->
      Row.drive_time_minutes b = Some n -> (m < n)%Z -> (i < j)%nat) /\
  (forall i j a b m,
      nth_error sorted i = Some a -> nth_error sorted j = Some b ->
      Row.drive_time_minutes a = Some m ->
      Row.drive_time_minutes b = None -> (i < j)%nat) /\
  (forall k,
      filter (fun v => eqb (App.dist v) k) sorted =
      filter (fun v => eqb (App.dist v) k) venues) /\
  App.sortedVenues localeCompare App.distance
    [Sample.vA; Sample.vB; Sample.vC] = [Sample.vC; Sample.vA; Sample.vB].
Proof.
  intros sorted. subst sorted. unfold App.sortedVenues.
  rewrite compare_distance.
  split; [apply sort_perm|].
  split; [apply sort_sorted, dist_not_nan|].
  split.
  { intros i j a b m n Ha Hb Hm Hn Hlt.
    apply (sort_position App.dist venues dist_not_nan i j a b Ha Hb).
    unfold App.dist. rewrite Hm, Hn. simpl. now apply Z.ltb_lt. }
  split.
  { intros i j a b m Ha Hb Hm Hn.
    apply (sort_position App.dist venues dist_not_nan i j a b Ha Hb).
    unfold App.dist. now rewrite Hm, Hn. }
  split; [|reflexivity].
  intros k. apply sort_stable, dist_not_nan.
Qed.

(** The order theorem at the sample list: a price without digits, a
    price with a pound sign, a comma and a trailing note, and the
    positions of 1,200 and "Unavailable" after sorting. *)
Lemma price_saturday_order_witness :
  App.getPrice (Some "on request") = PInf /\
  App.getPrice (Some (Sample.pound ++ "1,200 + VAT")%string) = Fin 1200 /\
  (1 < 2)%nat.
Proof.
  pose proof (price_saturday_order Sample.ordinalCompare
                [Sample.v1200; Sample.vUnavailable; Sample.v800]) as H.
  cbv zeta in H.
  destruct H as (_ & Hnone & _ & Hrun & _ & _ & _ & Hpos & _).
  split; [apply Hnone; reflexivity|].
  split.
  - apply (Hrun _ Sample.pound "1200" " + VAT");
      [reflexivity|reflexivity|reflexivity|discriminate|reflexivity
      |reflexivity].
  - apply (Hpos 1%nat 2%nat Sample.v1200 Sample.vUnavailable); reflexivity.
Defined.

(** C1 as stated fails on a price whose digits exceed the range of a
    double: 1 followed by 309 zeros has a digit run, parses to +infinity,
    and the "Unavailable" venue fetched before it stays before it. *)
Lemma price_saturday_overflow :
  Row.price_saturday Sample.vUnavailable = Some "Unavailable" /\
  (all_digits Sample.huge_price = true /\
   match_digits (remove_commas Sample.huge_price) = Some Sample.huge_price) /\
  App.getPrice (Some Sample.huge_price) = PInf /\
  App.sortedVenues Sample.ordinalCompare App.price_saturday
    [Sample.vUnavailable; Sample.vHuge] = [Sample.vUnavailable; Sample.vHuge].
Proof.
  split; [reflexivity|].
  split; [split; vm_compute; reflexivity|].
  split; vm_compute; reflexivity.
Qed.

(** The distance theorem at the sample list A:30, B:null, C:10. *)
Lemma distance_order_witness : (0 < 1)%nat /\ (1 < 2)%nat.
Proof.
  pose proof (distance_order Sample.ordinalCompare
                [Sample.vA; Sample.vB; Sample.vC]) as H.
  cbv zeta in H.
  destruct H as (_ & _ & Hasc & Hnull & _ & _).
  split.
  - apply (Hasc 0%nat 1%nat Sample.vC Sample.vA 10%Z 30%Z);
      reflexivity.
  - apply (Hnull 1%nat 2%nat Sample.vA Sample.vB 30%Z); reflexivity.
Defined.

End AppFacts.

(* ================================================================== *)
(** ** The venue list: fetching *)
(* ================================================================== *)

Module FetchFacts.

Lemma fetchVenues_fails {Id} (env : Env Id) (w : world Id (App.State Id)) :
  select_fails env = true ->
  App.fetchVenues env w =
  (Ok tt,
   mkWorld
     (App.mkState (App.venues (state w)) false (App.view (state w))
        (App.editingVenue (state w)) (App.sortOption (state w)))
     (trace w ++ [SelectVenues; ConsoleError "Error fetching venues:"])).
Proof.
  unfold select_fails, App.fetchVenues, App.setLoading, App.setVenues.
  intros Hfail. run_monad.
  destruct (venues_select env) as [e|[data [e|]]]; simpl;
    try discriminate; now rewrite <- app_assoc.
Qed.

(** C6 (as amended).  When the select of the venues fails, the error is
    logged, the loading flag is cleared and the in-memory list is left as
    it was when the fetch started, whatever the state of the controller
    was; the same holds for the refetch made after a save.  The list is
    empty afterwards when the failing fetch is the first one. *)
Theorem fetchVenues_failure {Id} (env : Env Id) (s : App.State Id) :
  select_fails env = true ->
  let fetched := run (App.fetchVenues env) s in
  let saved := run (App.handleSave env) s in
  let first := run (App.fetchVenues env) (@App.initialState Id) in
  fst fetched = Ok tt /\
  trace (snd fetched) = [SelectVenues; ConsoleError "Error fetching venues:"] /\
  App.loading (state (snd fetched)) = false /\
  App.venues (state (snd fetched)) = App.venues s /\
  (App.loading (state (snd saved)) = false /\
   App.venues (state (snd saved)) = App.venues s /\
   App.view (state (snd saved)) = App.view_list) /\
  App.venues (state (snd first)) = [].
Proof.
  intros Hfail fetched saved first.
  subst fetched saved first.
  unfold App.handleSave, run, bind.
  rewrite !(fetchVenues_fails env _ Hfail). simpl.
  repeat split.
Qed.

(** The failure theorem at a controller that is out of reach of the
    store, with two venues in memory. *)
Lemma fetchVenues_failure_witness :
  App.loading
    (state (snd (run (App.fetchVenues Sample.offline) Sample.loaded))) = false.
Proof.
  exact (proj1 (proj2 (proj2
    (fetchVenues_failure Sample.offline Sample.loaded eq_refl)))).
Defined.

(** C6 as stated fails on a refetch: after a first fetch that returned
    two venues, a save whose refetch fails leaves the two venues in the
    list, which is not empty. *)
Lemma refetch_failure_keeps_list :
  select_fails Sample.offline = true /\
  App.venues Sample.loaded = [Sample.vC; Sample.vA] /\
  App.venues (state (snd (run (App.handleSave Sample.offline) Sample.loaded)))
  = [Sample.vC; Sample.vA] /\
  App.venues (state (snd (run (App.fetchVenues Sample.offline) Sample.loaded)))
  <> [].
Proof.
  repeat split; try reflexivity. discriminate.
Qed.

End FetchFacts.

(* ================================================================== *)
(** ** The venue card: drive time display *)
(* ================================================================== *)

Module CardFacts.
Import JS.

(** Below 2^53 the rounding of the quotient by 60 never reaches the next
    integer: the double quotient has at least five fraction bits, so it is
    within 1/64 of the exact one, which is at least 1/60 below. *)
Lemma floor_quotient_60 (m : Z) :
  (0 < m < Z.of_N two53)%Z -> floor_quotient m 60 = (m / 60)%Z.
Proof.
  intros Hm. unfold two53 in Hm. unfold floor_quotient, quotient_double.
  set (t0 := (52 - (Z.log2 m - Z.log2 60))%Z).
  set (t := if (fst (scaled m 60 t0) / snd (scaled m 60 t0) <? 2 ^ 52)%Z
            then (t0 + 1)%Z else t0).
  assert (Hlog : (0 <= Z.log2 m < 53)%Z).
  { split; [apply Z.log2_nonneg|].
    apply Z.log2_lt_pow2; [lia|]. change (2 ^ 53)%Z with 9007199254740992%Z.
    lia. }
  assert (Ht0 : (5 <= t0)%Z).
  { subst t0. change (Z.log2 60) with 5%Z. lia. }
  assert (Ht : (5 <= t)%Z).
  { subst t. destruct (_ <? _)%Z; lia. }
  clearbody t. clear t0 Ht0 Hlog.
  unfold scaled. destruct (Z.leb_spec 0 t) as [_|Hneg]; [|lia].
  cbn [fst snd].
  assert (HT : (32 <= 2 ^ t)%Z).
  { change 32%Z with (2 ^ 5)%Z. apply Z.pow_le_mono_r; lia. }
  set (T := (2 ^ t)%Z) in *. clearbody T.
  pose proof (Z.div_mod m 60 ltac:(lia)) as Hk.
  pose proof (Z.mod_pos_bound m 60 ltac:(lia)) as Hs.
  set (k := (m / 60)%Z) in *. set (r60 := (m mod 60)%Z) in *.
  assert (Hk0 : (0 <= k)%Z) by (subst k; apply Z.div_pos; lia).
  pose proof (Z.div_mod (m * T) 60 ltac:(lia)) as Hq.
  pose proof (Z.mod_pos_bound (m * T) 60 ltac:(lia)) as Hr.
  assert (HmT : (m * T = 60 * (k * T) + r60 * T)%Z) by (rewrite Hk at 1; ring).
  assert (HsT : (0 <= r60 * T <= 59 * T)%Z) by nia.
  symmetry. apply Z.div_unique with (r := (nearest_even (m * T) 60 - T * k)%Z);
    [|ring].
  left. unfold nearest_even.
  set (q := (m * T / 60)%Z) in *. set (r := ((m * T) mod 60)%Z) in *.
  clearbody q r k r60.
  replace (T * k)%Z with (k * T)%Z by ring.
  set (P := (k * T)%Z) in *. set (S := (r60 * T)%Z) in *. clearbody P S.
  destruct (Z.ltb_spec (2 * r) 60); [lia|].
  destruct (Z.ltb_spec 60 (2 * r)); [lia|].
  destruct (Z.even q); lia.
Qed.

(** C7 (as amended).  [formatDriveTime] gives no display value for null
    and for 0; for a whole positive value under 60 the value followed by
    " mins"; for a whole value of 60 or more and below 2^53 the hours
    [minutes / 60] rounded down, " hr ", the minutes [minutes mod 60], also
    when they are 0, and " mins". *)
Theorem formatDriveTime_spec :
  VenueCard.formatDriveTime None = None /\
  VenueCard.formatDriveTime (Some (Fin 0)) = None /\
  (forall m : Z, (0 < m < 60)%Z ->
     VenueCard.formatDriveTime (Some (Fin m)) =
     Some (to_string (Fin m) ++ " mins")%string) /\
  (forall m : Z, (60 <= m < Z.of_N two53)%Z ->
     VenueCard.formatDriveTime (Some (Fin m)) =
     Some (to_string (Fin (m / 60)) ++ " hr " ++
           to_string (Fin (m mod 60)) ++ " mins")%string) /\
  (VenueCard.formatDriveTime (Some (Fin 45)) = Some "45 mins" /\
   VenueCard.formatDriveTime (Some (Fin 90)) = Some "1 hr 30 mins" /\
   VenueCard.formatDriveTime (Some (Fin 120)) = Some "2 hr 0 mins").
Proof.
  split; [reflexivity|].
  split; [reflexivity|].
  split.
  { intros m Hm. unfold VenueCard.formatDriveTime. simpl falsy. simpl ltb.
    destruct (Z.eqb_spec m 0); [lia|].
    destruct (Z.ltb_spec m 60); [reflexivity|lia]. }
  split; [|repeat split; vm_compute; reflexivity].
  intros m Hm. unfold VenueCard.formatDriveTime. simpl falsy. simpl ltb.
  destruct (Z.eqb_spec m 0); [lia|].
  destruct (Z.ltb_spec m 60); [lia|].
  unfold floor_div, rem. rewrite Z.rem_mod_nonneg by lia.
  destruct m as [|p|p]; [lia| |lia].
  rewrite floor_quotient_60 by lia. reflexivity.
Qed.

(** The display theorem at 59 and at 61 minutes. *)
Lemma formatDriveTime_spec_witness :
  VenueCard.formatDriveTime (Some (Fin 59)) = Some "59 mins" /\
  VenueCard.formatDriveTime (Some (Fin 61)) = Some "1 hr 1 mins".
Proof.
  destruct formatDriveTime_spec as (_ & _ & Hlow & Hhigh & _).
  split.
  - exact (Hlow 59%Z (conj eq_refl eq_refl)).
  - apply (Hhigh 61%Z). split; [discriminate|reflexivity].
Defined.

(** C7 as stated fails on a large value.  100000000000000016 is a double
    and is 60 or more; its quotient by 60 lies 1/15 below
    1666666666666667 and, the doubles of that size being 1/4 apart, the
    division rounds to that integer: the hours shown are one more than
    [floor(minutes / 60)]. *)
Lemma formatDriveTime_large :
  round_double 100000000000000016 = Fin 100000000000000016 /\
  (60 <= 100000000000000016)%Z /\
  (100000000000000016 / 60 = 1666666666666666)%Z /\
  (100000000000000016 mod 60 = 56)%Z /\
  VenueCard.formatDriveTime (Some (Fin 100000000000000016))
  = Some "1666666666666667 hr 56 mins" /\
  VenueCard.formatDriveTime (Some (Fin 100000000000000016))
  <> Some "1666666666666666 hr 56 mins".
Proof.
  split; [vm_compute; reflexivity|].
  split; [discriminate|].
  split; [reflexivity|].
  split; [reflexivity|].
  split; [vm_compute; reflexivity|].
  vm_compute. discriminate.
Qed.

End CardFacts.

(* ================================================================== *)
(** ** The venue form: drive time *)
(* ================================================================== *)

Module DriveTimeFacts.
Import JS JSFacts ParseFacts.

Lemma digit_not_s (c : ascii) : is_digit c = true -> (c =? "s")%char = false.
Proof.
  destruct c as [[] [] [] [] [] [] [] []]; vm_compute; congruence.
Qed.

Lemma remove_first_s_digits (ds : string) :
  all_digits ds = true -> remove_first_s (ds ++ "s") = ds.
Proof.
  induction ds as [|c r IH]; simpl; [reflexivity|].
  intros Hds. apply andb_true_iff in Hds as [Hc Hr].
  rewrite (digit_not_s c Hc). now rewrite IH.
Qed.

Lemma digits_s_not_empty (ds : string) :
  ds <> EmptyString -> ((ds ++ "s") =? "")%string = false.
Proof. destruct ds; [congruence|reflexivity]. Qed.

(** Seconds to minutes: the nearest whole minute, halves up. *)
Lemma round_div_60 (n : Z) :
  exists m, round_div (Fin n) 60 = Fin m /\
            (60 * m - 30 <= n < 60 * m + 30)%Z.
Proof.
  exists ((2 * n + 60) / 120)%Z. split; [reflexivity|].
  pose proof (Z.div_mod (2 * n + 60) 120 ltac:(lia)) as Hdm.
  pose proof (Z.mod_pos_bound (2 * n + 60) 120 ltac:(lia)) as Hb.
  lia.
Qed.

Section WithIdentifier.
Context {Id : Type} `{Identifier Id} {St : Type}.
Variable env : Env Id.
Variable destination : string.

(** The helper only appends to the trace, and its result and events do not
    depend on the world it is run in. *)
Lemma calculateDriveTime_frame (w : world Id St) :
  VenueForm.calculateDriveTime env destination w =
  (Ok (drive_time_result env destination),
   mkWorld (state w) (trace w ++ drive_time_events env destination)).
Proof.
  unfold drive_time_result, drive_time_events, VenueForm.calculateDriveTime.
  run_monad. destruct w as [st tr]. simpl.
  break_match; rewrite <- ?app_assoc, ?app_nil_r; reflexivity.
Qed.

Lemma drive_time_events_requests :
  directions_requests (drive_time_events env destination) =
  match usable_key (VITE_GOOGLE_MAPS_API_KEY env) with
  | Some apiKey => [ComputeRoutes apiKey destination]
  | None => []
  end.
Proof.
  unfold drive_time_events, VenueForm.calculateDriveTime.
  run_monad. break_match; reflexivity.
Qed.

Lemma drive_time_events_writes :
  writes (drive_time_events env destination) = [].
Proof.
  unfold drive_time_events, VenueForm.calculateDriveTime.
  run_monad. break_match; reflexivity.
Qed.

Lemma drive_time_result_no_key :
  usable_key (VITE_GOOGLE_MAPS_API_KEY env) = None ->
  drive_time_result env destination = None.
Proof.
  unfold drive_time_result, VenueForm.calculateDriveTime.
  intros Hk. run_monad. now rewrite Hk.
Qed.

End WithIdentifier.

(** C9 (as amended).  [calculateDriveTime] never throws.  It returns null
    when the API key is missing (without any request), when the request
    throws, when the status is not 2xx, when the body cannot be read, when
    [routes] is missing or empty, and when the first route's duration is
    missing, empty or not a string.  For a duration made of a non-empty
    run of digits of value below 2^53 followed by "s" it returns the
    number of seconds divided by 60 and rounded to the nearest whole
    minute, halves up. *)
Theorem calculateDriveTime_spec {Id} `{Identifier Id} {St} (env : Env Id)
    (destination : string) (w : world Id St) :
  let out := VenueForm.calculateDriveTime env destination w in
  (exists r, fst out = Ok r) /\
  (usable_key (VITE_GOOGLE_MAPS_API_KEY env) = None ->
   fst out = Ok None /\ trace (snd out) = trace w) /\
  (forall apiKey,
     usable_key (VITE_GOOGLE_MAPS_API_KEY env) = Some apiKey ->
     (forall e, computeRoutes env apiKey destination = Rejects e ->
                fst out = Ok None) /\
     (forall body,
        computeRoutes env apiKey destination = Resolves (mkHttp false body) ->
        fst out = Ok None) /\
     (forall e,
        computeRoutes env apiKey destination
        = Resolves (mkHttp true (Rejects e)) ->
        fst out = Ok None) /\
     (forall rts,
        computeRoutes env apiKey destination
        = Resolves (mkHttp true (Resolves (mkRoutes rts))) ->
        (rts = None \/ rts = Some [] -> fst out = Ok None) /\
        (forall r rs, rts = Some (r :: rs) ->
           (duration r = DurationAbsent \/
            duration r = DurationString "" \/
            duration r = DurationOther -> fst out = Ok None) /\
           (forall ds,
              duration r = DurationString (ds ++ "s") ->
              all_digits ds = true -> ds <> EmptyString ->
              (decimal_value ds < two53)%N ->
              exists m,
                fst out = Ok (Some (Fin m)) /\
                (60 * m - 30 <= Z.of_N (decimal_value ds) < 60 * m + 30)%Z)))).
Proof.
  intros out. subst out. rewrite calculateDriveTime_frame. cbn [fst snd trace].
  split; [eexists; reflexivity|].
  unfold drive_time_result, drive_time_events, VenueForm.calculateDriveTime.
  run_monad.
  split.
  { intros ->. split; [reflexivity|]. simpl. apply app_nil_r. }
  intros apiKey ->.
  split; [intros e ->; reflexivity|].
  split; [intros body ->; reflexivity|].
  split; [intros e ->; reflexivity|].
  intros rts ->. simpl.
  split; [intros [->| ->]; reflexivity|].
  intros r rs ->. simpl.
  split; [intros [->|[->| ->]]; reflexivity|].
  intros ds -> Hds Hne Hsmall. simpl.
  rewrite (digits_s_not_empty ds Hne). simpl.
  rewrite (remove_first_s_digits ds Hds).
  rewrite (parseInt10_digits ds Hds Hne).
  rewrite round_double_small by (rewrite Z.abs_eq by lia; lia).
  destruct (round_div_60 (Z.of_N (decimal_value ds))) as (m & Hm & Hb).
  exists m. rewrite Hm. split; [reflexivity|exact Hb].
Qed.

(** The drive-time theorem without a key, and at a 2xx response whose
    duration is "5400s". *)
Lemma calculateDriveTime_spec_witness :
  (fst (run (St := unit)
          (VenueForm.calculateDriveTime Sample.offline "Edinburgh Castle") tt)
   = Ok None /\
   trace (snd (run (St := unit)
          (VenueForm.calculateDriveTime Sample.offline "Edinburgh Castle") tt))
   = []) /\
  exists m,
    fst (run (St := unit)
           (VenueForm.calculateDriveTime
              (Sample.online (Some "key") (DurationString "5400s") [])
              "Edinburgh Castle") tt)
    = Ok (Some (Fin m)) /\
    (60 * m - 30 <= 5400 < 60 * m + 30)%Z.
Proof.
  split.
  - apply (calculateDriveTime_spec (St := unit) Sample.offline
             "Edinburgh Castle" (mkWorld tt [])).
    reflexivity.
  - pose proof (calculateDriveTime_spec (St := unit)
                  (Sample.online (Some "key") (DurationString "5400s") [])
                  "Edinburgh Castle" (mkWorld tt [])) as Hspec.
    cbv zeta in Hspec. destruct Hspec as (_ & _ & Hkey).
    destruct (Hkey "key" eq_refl) as (_ & _ & _ & Hroutes).
    destruct (Hroutes _ eq_refl) as (_ & Hfirst).
    destruct (Hfirst _ _ eq_refl) as (_ & Hdigits).
    apply (Hdigits "5400"); [reflexivity|reflexivity|discriminate|reflexivity].
Defined.

(** C9 as stated fails on two responses with a 2xx status and a duration
    string.  A duration that is not a run of digits followed by "s" is
    answered with NaN, not with null; a duration of 310 digits followed by
    "s" is answered with +infinity, not with a number of minutes. *)
Lemma calculateDriveTime_malformed :
  fst (run (St := unit)
         (VenueForm.calculateDriveTime
            (Sample.online (Some "key") (DurationString "abc") [])
            "Edinburgh Castle") tt)
  = Ok (Some NaN) /\
  fst (run (St := unit)
         (VenueForm.calculateDriveTime
            (Sample.online (Some "key")
               (DurationString (Sample.huge_price ++ "s")) [])
            "Edinburgh Castle") tt)
  = Ok (Some PInf).
Proof.
  split; vm_compute; reflexivity.
Qed.

End DriveTimeFacts.

(* ================================================================== *)
(** ** The venue form: saving *)
(* ================================================================== *)

Module SaveFacts.
Import JS DriveTimeFacts.

Section WithIdentifier.
Context {Id : Type} `{Identifier Id}.
Variable env : Env Id.
Variable initialData : option (Draft.t Id).

(** The whole effect of a save, in one equation. *)
Lemma handleSubmit_run (w : world Id (VenueForm.State Id)) :
  let fd := VenueForm.formData (state w) in
  let loc := nullish (Draft.location fd) "" in
  let driveTime0 := VenueForm.field_map Fin (Draft.drive_time_minutes fd) in
  let cond := recompute_condition initialData fd in
  let driveTime :=
    if cond then match drive_time_result env loc with
                 | Some t => Value t
                 | None => driveTime0
                 end
    else driveTime0 in
  let asked := if cond then drive_time_events env loc else [] in
  let row := mkData fd (nullish (Draft.active fd) true) driveTime in
  let write :=
    match VenueForm.update_key (Draft.id fd) with
    | Some i => UpdateVenue row i
    | None => InsertVenue row
    end in
  exists ending,
    VenueForm.handleSubmit env initialData w =
    (Ok tt,
     mkWorld (VenueForm.mkState fd false (VenueForm.searching (state w)))
       (trace w ++ asked ++ [write] ++ ending)) /\
    (ending = [OnSave] \/
     ending = [ConsoleError "Error saving venue:"; Alert "Error saving venue"]).
Proof.
  intros fd loc driveTime0 cond driveTime asked row write.
  unfold VenueForm.handleSubmit, VenueForm.setLoading.
  unfold bind at 1 2. unfold get, modify. cbn [state trace].
  unfold try_finally, try_catch. unfold bind at 1.
  fold fd. fold driveTime0.
  change (truthy_string (Draft.location fd)
          && (negb (strict_eq (Draft.location fd)
                      (VenueForm.prop initialData Draft.location))
              || negb (truthy_id (Draft.id fd))))%bool with cond.
  fold loc.
  subst driveTime asked row write.
  destruct cond.
  - unfold bind at 1. rewrite calculateDriveTime_frame.
    destruct (drive_time_result env loc) as [t|];
      destruct (VenueForm.update_key (Draft.id fd)) as [i|]; run_monad;
      match goal with
      | |- context [venues_update ?e ?r ?i] =>
          destruct (venues_update e r i) as [?|[?|]]
      | |- context [venues_insert ?e ?r] =>
          destruct (venues_insert e r) as [?|[?|]]
      end; simpl; eexists;
      (split; [rewrite <- ?app_assoc; reflexivity|eauto]).
  - destruct (VenueForm.update_key (Draft.id fd)) as [i|]; run_monad;
      match goal with
      | |- context [venues_update ?e ?r ?i] =>
          destruct (venues_update e r i) as [?|[?|]]
      | |- context [venues_insert ?e ?r] =>
          destruct (venues_insert e r) as [?|[?|]]
      end; simpl; eexists;
      (split; [rewrite <- ?app_assoc; reflexivity|eauto]).
Qed.

Variable s : VenueForm.State Id.

(** The row a save writes. *)
Lemma save_writes :
  let fd := VenueForm.formData s in
  let loc := nullish (Draft.location fd) "" in
  let tr := trace (snd (run (VenueForm.handleSubmit env initialData) s)) in
  exists row,
    writes tr =
    [match VenueForm.update_key (Draft.id fd) with
     | Some i => UpdateVenue row i
     | None => InsertVenue row
     end] /\
    base row = fd /\
    save_active row = nullish (Draft.active fd) true /\
    save_drive_time_minutes row =
    (if recompute_condition initialData fd
     then match drive_time_result env loc with
          | Some t => Value t
          | None => VenueForm.field_map Fin (Draft.drive_time_minutes fd)
          end
     else VenueForm.field_map Fin (Draft.drive_time_minutes fd)).
Proof.
  intros fd loc tr.
  destruct (handleSubmit_run (mkWorld s [])) as (ending & E & Hend).
  cbv zeta in E. cbn [state trace] in E. fold fd loc in E.
  subst tr. unfold run. rewrite E. cbn [snd trace]. rewrite app_nil_l.
  exists (mkData fd (nullish (Draft.active fd) true)
            (if recompute_condition initialData fd
             then match drive_time_result env loc with
                  | Some t => Value t
                  | None =>
                      VenueForm.field_map Fin (Draft.drive_time_minutes fd)
                  end
             else VenueForm.field_map Fin (Draft.drive_time_minutes fd))).
  split; [|repeat split].
  - unfold writes. rewrite !filter_app.
    fold (writes (if recompute_condition initialData fd
                  then drive_time_events env loc else [])).
    assert (Hasked : writes (if recompute_condition initialData fd
                             then drive_time_events env loc else []) = []).
    { destruct (recompute_condition initialData fd);
        [apply drive_time_events_writes|reflexivity]. }
    rewrite Hasked.
    assert (Hending : filter is_write ending = []).
    { destruct Hend as [-> | ->]; reflexivity. }
    rewrite Hending.
    destruct (VenueForm.update_key (Draft.id fd)); reflexivity.
Qed.

(** The requests a save sends to the directions API. *)
Lemma save_requests :
  let fd := VenueForm.formData s in
  let loc := nullish (Draft.location fd) "" in
  let tr := trace (snd (run (VenueForm.handleSubmit env initialData) s)) in
  directions_requests tr =
  if recompute_condition initialData fd
  then match usable_key (VITE_GOOGLE_MAPS_API_KEY env) with
       | Some apiKey => [ComputeRoutes apiKey loc]
       | None => []
       end
  else [].
Proof.
  intros fd loc tr.
  destruct (handleSubmit_run (mkWorld s [])) as (ending & E & Hend).
  cbv zeta in E. cbn [state trace] in E. fold fd loc in E.
  subst tr. unfold run. rewrite E. cbn [snd trace]. rewrite app_nil_l.
  unfold directions_requests. rewrite !filter_app.
  assert (Hending : filter is_computeRoutes ending = []).
  { destruct Hend as [-> | ->]; reflexivity. }
  rewrite Hending.
  assert (Hwrite : forall row : dataToSave Id,
             filter is_computeRoutes
               [match VenueForm.update_key (Draft.id fd) with
                | Some i => UpdateVenue row i
                | None => InsertVenue row
                end] = []).
  { intros row. destruct (VenueForm.update_key (Draft.id fd)); reflexivity. }
  rewrite Hwrite, !app_nil_r.
  destruct (recompute_condition initialData fd); [|reflexivity].
  apply drive_time_events_requests.
Qed.

End WithIdentifier.

(** C2 (as amended).  A save issues exactly one store write.  The test is
    the code's [if (formData.id)]: a draft whose identifier is absent,
    null or falsy (0, the empty string) is inserted; a draft whose
    identifier is truthy is updated, keyed by that identifier.  The row
    written is the draft. *)
Theorem save_writes_once {Id} `{Identifier Id} (env : Env Id)
    (initialData : option (Draft.t Id)) (s : VenueForm.State Id) :
  let fd := VenueForm.formData s in
  let tr := trace (snd (run (VenueForm.handleSubmit env initialData) s)) in
  List.length (writes tr) = 1%nat /\
  (Draft.id fd = Undefined \/ Draft.id fd = Null ->
   exists row, writes tr = [InsertVenue row] /\ base row = fd) /\
  (forall i, Draft.id fd = Value i -> id_truthy i = true ->
   exists row, writes tr = [UpdateVenue row i] /\ base row = fd) /\
  (forall i, Draft.id fd = Value i -> id_truthy i = false ->
   exists row, writes tr = [InsertVenue row] /\ base row = fd).
Proof.
  intros fd tr.
  destruct (save_writes env initialData s) as (row & Hw & Hbase & _).
  fold fd in Hw, Hbase. fold tr in Hw.
  split; [now rewrite Hw|].
  split; [|split].
  - intros Hid. exists row. split; [|exact Hbase].
    rewrite Hw. now destruct Hid as [-> | ->].
  - intros i Hid Hi. exists row. split; [|exact Hbase].
    rewrite Hw, Hid. simpl. now rewrite Hi.
  - intros i Hid Hi. exists row. split; [|exact Hbase].
    rewrite Hw, Hid. simpl. now rewrite Hi.
Qed.

(** The write theorem at a new draft, which is inserted, at the draft of
    stored venue 7, which is updated under key 7, and at the draft of the
    venue stored under the identifier 0, which is inserted. *)
Lemma save_writes_once_witness :
  (exists row,
     writes (trace (snd (run
       (VenueForm.handleSubmit Sample.offline None)
       (VenueForm.mkState Sample.new_draft false false))))
     = [InsertVenue row] /\ base row = Sample.new_draft) /\
  (exists row,
     writes (trace (snd (run
       (VenueForm.handleSubmit Sample.offline
          (Some (Draft.of_row Sample.stored_zero)))
       (VenueForm.mkState Sample.stored_zero_draft false false))))
     = [InsertVenue row] /\ base row = Sample.stored_zero_draft) /\
  (exists row,
     writes (trace (snd (run
       (VenueForm.handleSubmit Sample.offline
          (Some (Draft.of_row Sample.stored)))
       (VenueForm.mkState Sample.stored_draft false false))))
     = [UpdateVenue row 7%Z] /\ base row = Sample.stored_draft).
Proof.
  split; [|split].
  - apply (save_writes_once Sample.offline None
             (VenueForm.mkState Sample.new_draft false false)).
    left. reflexivity.
  - pose proof (save_writes_once Sample.offline
                  (Some (Draft.of_row Sample.stored_zero))
                  (VenueForm.mkState Sample.stored_zero_draft false false))
      as Hthm.
    cbv zeta in Hthm. destruct Hthm as (_ & _ & _ & Hfalsy).
    apply (Hfalsy 0%Z); reflexivity.
  - pose proof (save_writes_once Sample.offline
                  (Some (Draft.of_row Sample.stored))
                  (VenueForm.mkState Sample.stored_draft false false))
      as Hthm.
    cbv zeta in Hthm. destruct Hthm as (_ & _ & Hupdate & _).
    apply (Hupdate 7%Z); reflexivity.
Defined.

(** C2 as stated fails on a draft whose identifier is 0: the draft has an
    identifier, and the save inserts it; no update is issued. *)
Lemma save_identifier_zero_inserts :
  Draft.id Sample.stored_zero_draft = Value 0%Z /\
  (exists row,
     writes (trace (snd (run
       (VenueForm.handleSubmit Sample.offline
          (Some (Draft.of_row Sample.stored_zero)))
       (VenueForm.mkState Sample.stored_zero_draft false false))))
     = [InsertVenue row] /\ base row = Sample.stored_zero_draft) /\
  (forall row i,
     writes (trace (snd (run
       (VenueForm.handleSubmit Sample.offline
          (Some (Draft.of_row Sample.stored_zero)))
       (VenueForm.mkState Sample.stored_zero_draft false false))))
     <> [UpdateVenue row i]).
Proof.
  split; [reflexivity|]. split.
  - eexists. split; reflexivity.
  - intros row i. vm_compute. discriminate.
Qed.

(** C4 (as amended).  With an API key configured, a save sends exactly
    one request to the directions API when the draft's location is
    non-empty and either differs from the pre-edit snapshot or the draft's
    identifier is absent, null or falsy (0, the empty string), and none
    otherwise; without a key it sends none.  Editing a record with a
    truthy identifier without changing its location sends none; with a
    falsy identifier, a key and a non-empty location it sends one, changed
    location or not.  When no request is sent or the computation returns
    null, the drive time written to the store is the draft's previous one,
    which is null for a new record. *)
Theorem drive_time_recompute {Id} `{Identifier Id} (env : Env Id)
    (initialData : option (Draft.t Id)) (s : VenueForm.State Id) :
  let fd := VenueForm.formData s in
  let loc := nullish (Draft.location fd) "" in
  let tr := trace (snd (run (VenueForm.handleSubmit env initialData) s)) in
  let requests := directions_requests tr in
  (forall apiKey,
     usable_key (VITE_GOOGLE_MAPS_API_KEY env) = Some apiKey ->
     (recompute_condition initialData fd = true ->
      requests = [ComputeRoutes apiKey loc]) /\
     (recompute_condition initialData fd = false -> requests = [])) /\
  (usable_key (VITE_GOOGLE_MAPS_API_KEY env) = None -> requests = []) /\
  (truthy_id (Draft.id fd) = true ->
   strict_eq (Draft.location fd) (VenueForm.prop initialData Draft.location)
   = true ->
   requests = []) /\
  (exists row,
     (writes tr = [InsertVenue row] \/
      exists i, writes tr = [UpdateVenue row i]) /\
     (requests = [] \/ drive_time_result env loc = None ->
      save_drive_time_minutes row =
      VenueForm.field_map Fin (Draft.drive_time_minutes fd))) /\
  (Draft.id (VenueForm.initialFormData (@None (Draft.t Id))) = Undefined /\
   Draft.drive_time_minutes (VenueForm.initialFormData (@None (Draft.t Id)))
   = Null) /\
  (recompute_condition initialData fd = true <->
   truthy_string (Draft.location fd) = true /\
   (strict_eq (Draft.location fd) (VenueForm.prop initialData Draft.location)
    = false \/
    Draft.id fd = Undefined \/ Draft.id fd = Null \/
    exists i, Draft.id fd = Value i /\ id_truthy i = false)) /\
  (forall apiKey i,
     usable_key (VITE_GOOGLE_MAPS_API_KEY env) = Some apiKey ->
     Draft.id fd = Value i -> id_truthy i = false ->
     truthy_string (Draft.location fd) = true ->
     requests = [ComputeRoutes apiKey loc]).
Proof.
  intros fd loc tr requests.
  pose proof (save_requests env initialData s) as Hreq.
  cbv zeta in Hreq. fold fd loc tr requests in Hreq.
  assert (Hcond : recompute_condition initialData fd = true <->
            truthy_string (Draft.location fd) = true /\
            (strict_eq (Draft.location fd)
               (VenueForm.prop initialData Draft.location) = false \/
             Draft.id fd = Undefined \/ Draft.id fd = Null \/
             exists i, Draft.id fd = Value i /\ id_truthy i = false)).
  { unfold recompute_condition.
    rewrite andb_true_iff, orb_true_iff, !negb_true_iff.
    split; intros (Hloc & Hor); (split; [exact Hloc|]).
    - destruct Hor as [Hch|Hid]; [now left|]. right.
      destruct (Draft.id fd) as [| |i]; [now left|now right; left|].
      right. right. now exists i.
    - destruct Hor as [Hch|[Hid|[Hid|(i & Hid & Hi)]]];
        [now left|right; now rewrite Hid..|right].
      now rewrite Hid. }
  assert (Hfalsy : forall apiKey i,
            usable_key (VITE_GOOGLE_MAPS_API_KEY env) = Some apiKey ->
            Draft.id fd = Value i -> id_truthy i = false ->
            truthy_string (Draft.location fd) = true ->
            requests = [ComputeRoutes apiKey loc]).
  { intros apiKey i Hkey Hid Hi Hloc.
    assert (Hc : recompute_condition initialData fd = true).
    { apply Hcond. split; [exact Hloc|]. right. right. right. now exists i. }
    now rewrite Hreq, Hc, Hkey. }
  split.
  { intros apiKey Hkey. rewrite Hreq, Hkey.
    split; intros ->; reflexivity. }
  split.
  { intros Hkey. rewrite Hreq, Hkey.
    now destruct (recompute_condition initialData fd). }
  split.
  { intros Hid Hloc. rewrite Hreq. unfold recompute_condition.
    rewrite Hid, Hloc. simpl. now rewrite andb_false_r. }
  split; [|split; [split; reflexivity|split; [exact Hcond|exact Hfalsy]]].
  destruct (save_writes env initialData s) as (row & Hw & _ & _ & Hdt).
  fold fd loc in Hw, Hdt. fold tr in Hw.
  exists row. split.
  { rewrite Hw. destruct (VenueForm.update_key (Draft.id fd)) as [i|];
      [right; exists i; reflexivity|left; reflexivity]. }
  intros Hnone. rewrite Hdt.
  destruct (recompute_condition initialData fd); [|reflexivity].
  destruct Hnone as [Hnone|Hnone].
  - rewrite Hreq in Hnone.
    destruct (usable_key (VITE_GOOGLE_MAPS_API_KEY env)) eqn:Hkey;
      [discriminate|].
    now rewrite (drive_time_result_no_key env loc Hkey).
  - now rewrite Hnone.
Qed.

(** The recomputation theorem with a key: one request for a new draft
    with a location; none for the draft of a stored venue whose location
    was not edited, whose stored drive time of 25 minutes is written
    back. *)
Lemma drive_time_recompute_witness :
  directions_requests (trace (snd (run
    (VenueForm.handleSubmit
       (Sample.online (Some "key") (DurationString "5400s") []) None)
    (VenueForm.mkState Sample.new_draft false false))))
  = [ComputeRoutes "key" "Edinburgh Castle"] /\
  directions_requests (trace (snd (run
    (VenueForm.handleSubmit
       (Sample.online (Some "key") (DurationString "5400s") [])
       (Some (Draft.of_row Sample.stored)))
    (VenueForm.mkState Sample.stored_draft false false))))
  = [] /\
  exists row,
    writes (trace (snd (run
      (VenueForm.handleSubmit
         (Sample.online (Some "key") (DurationString "5400s") [])
         (Some (Draft.of_row Sample.stored)))
      (VenueForm.mkState Sample.stored_draft false false))))
    = [UpdateVenue row 7%Z] /\
    save_drive_time_minutes row = Value (Fin 25).
Proof.
  split; [|split].
  - pose proof (drive_time_recompute
             (Sample.online (Some "key") (DurationString "5400s") []) None
             (VenueForm.mkState Sample.new_draft false false)) as Hthm.
    cbv zeta in Hthm. destruct Hthm as (Hkey & _).
    apply (Hkey "key"); reflexivity.
  - pose proof (drive_time_recompute
             (Sample.online (Some "key") (DurationString "5400s") [])
             (Some (Draft.of_row Sample.stored))
             (VenueForm.mkState Sample.stored_draft false false)) as Hthm.
    cbv zeta in Hthm. destruct Hthm as (_ & _ & Hsame & _).
    apply Hsame; reflexivity.
  - pose proof (drive_time_recompute
             (Sample.online (Some "key") (DurationString "5400s") [])
             (Some (Draft.of_row Sample.stored))
             (VenueForm.mkState Sample.stored_draft false false)) as Hthm.
    cbv zeta in Hthm.
    destruct Hthm as (_ & _ & _ & (row & Hw & Hdt) & _).
    exists row. split.
    + destruct Hw as [Hw|(i & Hw)]; [discriminate Hw|].
      rewrite Hw. vm_compute in Hw. injection Hw as _ <-. reflexivity.
    + apply Hdt. left. reflexivity.
Defined.

(** C4 as stated fails in two places.  When no API key is configured, a
    new draft with the location "Edinburgh Castle" meets the condition,
    and the save sends no request to the directions API.  With a key
    configured, the venue stored under the identifier 0 is edited without
    changing its location, and the save sends a request. *)
Lemma drive_time_recompute_fails :
  (VITE_GOOGLE_MAPS_API_KEY (Sample.online None (DurationString "5400s") [])
   = None /\
   Draft.id Sample.new_draft = Undefined /\
   Draft.location Sample.new_draft = Value "Edinburgh Castle" /\
   recompute_condition None Sample.new_draft = true /\
   directions_requests (trace (snd (run
     (VenueForm.handleSubmit
        (Sample.online None (DurationString "5400s") []) None)
     (VenueForm.mkState Sample.new_draft false false))))
   = []) /\
  (VITE_GOOGLE_MAPS_API_KEY
     (Sample.online (Some "key") (DurationString "5400s") [])
   = Some "key" /\
   Draft.id Sample.stored_zero_draft = Value 0%Z /\
   Draft.location Sample.stored_zero_draft
   = Draft.location (Draft.of_row Sample.stored_zero) /\
   directions_requests (trace (snd (run
     (VenueForm.handleSubmit
        (Sample.online (Some "key") (DurationString "5400s") [])
        (Some (Draft.of_row Sample.stored_zero)))
     (VenueForm.mkState Sample.stored_zero_draft false false))))
   = [ComputeRoutes "key" "Edinburgh Castle"]).
Proof.
  repeat split.
Qed.

End SaveFacts.

(* ================================================================== *)
(** ** The venue form: image upload and location auto-fill *)
(* ================================================================== *)

Module UploadFacts.
Import DriveTimeFacts.

Lemma uploads_app {Id} (t1 t2 : list (event Id)) :
  uploads (t1 ++ t2) = uploads t1 ++ uploads t2.
Proof.
  induction t1 as [|ev r IH]; simpl; [reflexivity|].
  destruct (uploaded_file ev); simpl; now rewrite IH.
Qed.

Lemma uploads_map {Id} (files : list File) :
  uploads (map (@Upload Id "images") files) = files.
Proof.
  induction files as [|f r IH]; simpl; [reflexivity|]. now rewrite IH.
Qed.

Lemma publicUrls_length {Id} (env : Env Id) (files : list File) :
  forall n, List.length (publicUrls env n files) = List.length files.
Proof.
  induction files as [|f r IH]; intros n; simpl; [reflexivity|].
  now rewrite IH.
Qed.

Section WithIdentifier.
Context {Id : Type} `{Identifier Id}.
Variable env : Env Id.

(** The loop either uploads every file, or stops at the first upload that
    fails, with the uploads made so far in the trace. *)
Lemma uploadEach_run {St} (files : list File) :
  forall n acc (w : world Id St),
    ((forall i f, nth_error files i = Some f ->
                  upload_fails env (n + i) f = false) /\
     VenueForm.uploadEach env n files acc w =
     (Ok (acc ++ publicUrls env n files),
      mkWorld (state w) (trace w ++ map (Upload "images") files)))
    \/
    (exists k f e,
        nth_error files k = Some f /\
        upload_fails env (n + k) f = true /\
        VenueForm.uploadEach env n files acc w =
        (Throw e,
         mkWorld (state w)
           (trace w ++ map (Upload "images") (firstn (S k) files)))).
Proof.
  induction files as [|file rest IH]; intros n acc w.
  - left. split.
    + intros [|i] f Hf; discriminate.
    + simpl. unfold ret. rewrite !app_nil_r. now destruct w.
  - cbn [VenueForm.uploadEach]. unfold bind, emit, await.
    cbn [state trace].
    destruct (storage_upload env "images" n file) as [e|[[e|] url]] eqn:Hup;
      unfold throw, ret.
    + right. exists 0%nat, file, e. rewrite Nat.add_0_r.
      unfold upload_fails. rewrite Hup. now repeat split.
    + right. exists 0%nat, file, e. rewrite Nat.add_0_r.
      unfold upload_fails. rewrite Hup. now repeat split.
    + destruct (IH (S n) (acc ++ [url])
                  (mkWorld (state w) (trace w ++ [Upload "images" file])))
        as [[Hall E]|(k & f & e & Hk & Hfail & E)].
      * left. split.
        { intros [|i] f Hf.
          - injection Hf as <-. rewrite Nat.add_0_r.
            unfold upload_fails. now rewrite Hup.
          - rewrite Nat.add_succ_r. now apply Hall. }
        rewrite E. cbn [state trace publicUrls map].
        unfold publicUrl at 1. rewrite Hup.
        now rewrite <- !app_assoc.
      * right. exists (S k), f, e. rewrite Nat.add_succ_r.
        split; [exact Hk|]. split; [exact Hfail|].
        rewrite E. cbn [state trace firstn map].
        now rewrite <- !app_assoc.
Qed.

(** The four ways an upload of a batch ends. *)
Lemma uploadImages_run (files : list File) (s : VenueForm.State Id) :
  let fd := VenueForm.formData s in
  let imgs := Draft.images_or_empty fd in
  let accepted := firstn (VenueForm.MAX_IMAGES - List.length imgs) files in
  let out := run (VenueForm.uploadImages env files) s in
  (files = [] /\ out = (Ok tt, mkWorld s []))
  \/
  (files <> [] /\ (VenueForm.MAX_IMAGES <= List.length imgs)%nat /\
   out = (Ok tt, mkWorld s [Alert "Maximum 10 images allowed"]))
  \/
  (files <> [] /\ (List.length imgs < VenueForm.MAX_IMAGES)%nat /\
   (forall i f, nth_error accepted i = Some f ->
                upload_fails env i f = false) /\
   out =
   (Ok tt,
    mkWorld
      (VenueForm.mkState
         (Draft.set_images fd (Value (imgs ++ publicUrls env 0 accepted)))
         false (VenueForm.searching s))
      (map (Upload "images") accepted)))
  \/
  (files <> [] /\ (List.length imgs < VenueForm.MAX_IMAGES)%nat /\
   exists k f,
     nth_error accepted k = Some f /\
     upload_fails env k f = true /\
     out =
     (Ok tt,
      mkWorld (VenueForm.mkState fd false (VenueForm.searching s))
        (map (Upload "images") (firstn (S k) accepted) ++
         [ConsoleError "Error uploading images:";
          Alert "Error uploading images"]))).
Proof.
  intros fd imgs accepted out.
  destruct files as [|file rest].
  { left. split; reflexivity. }
  right.
  assert (Hne : file :: rest <> []) by discriminate.
  assert (Hout : out =
            if (VenueForm.MAX_IMAGES <=? List.length imgs)%nat
            then (Ok tt, mkWorld s [Alert "Maximum 10 images allowed"])
            else
              match VenueForm.uploadEach env 0 accepted []
                      (mkWorld
                         (VenueForm.mkState fd true (VenueForm.searching s))
                         [])
              with
              | (Ok urls, w) =>
                  (Ok tt,
                   mkWorld
                     (VenueForm.mkState
                        (Draft.set_images
                           (VenueForm.formData (state w))
                           (Value (Draft.images_or_empty
                                     (VenueForm.formData (state w)) ++ urls)))
                        false (VenueForm.searching (state w)))
                     (trace w))
              | (Throw _, w) =>
                  (Ok tt,
                   mkWorld
                     (VenueForm.mkState (VenueForm.formData (state w)) false
                        (VenueForm.searching (state w)))
                     ((trace w ++ [ConsoleError "Error uploading images:"])
                      ++ [Alert "Error uploading images"]))
              end).
  { subst out accepted imgs fd. unfold run, VenueForm.uploadImages.
    unfold VenueForm.setLoading, VenueForm.setFormData.
    unfold bind, get, modify, try_finally, try_catch, emit.
    cbn [state trace List.length Nat.eqb].
    destruct (VenueForm.MAX_IMAGES <=? _)%nat; [reflexivity|].
    cbn [state trace VenueForm.formData VenueForm.searching].
    destruct (VenueForm.uploadEach _ _ _ _ _) as [[urls|e] w]; reflexivity. }
  rewrite Hout. clear Hout.
  destruct (Nat.leb_spec VenueForm.MAX_IMAGES (List.length imgs)) as [Hcap|Hcap].
  { left. split; [exact Hne|]. split; [exact Hcap|]. reflexivity. }
  right.
  destruct (uploadEach_run accepted 0 []
              (mkWorld (VenueForm.mkState fd true (VenueForm.searching s)) []))
    as [[Hall E]|(k & f & e & Hk & Hfail & E)]; rewrite E; cbn.
  - left.
    split; [exact Hne|]. split; [exact Hcap|]. split; [exact Hall|].
    reflexivity.
  - right.
    split; [exact Hne|]. split; [exact Hcap|].
    exists k, f. split; [exact Hk|]. split; [exact Hfail|].
    now rewrite <- app_assoc.
Qed.

End WithIdentifier.

Lemma alerts_app {Id} (t1 t2 : list (event Id)) :
  alerts (t1 ++ t2) = alerts t1 ++ alerts t2.
Proof.
  induction t1 as [|ev r IH]; simpl; [reflexivity|].
  destruct ev; simpl; now rewrite IH.
Qed.

Lemma alerts_uploads {Id} (files : list File) :
  alerts (map (@Upload Id "images") files) = [].
Proof. induction files as [|f r IH]; simpl; [reflexivity|exact IH]. Qed.

Lemma images_set {Id} (d : Draft.t Id) (l : list string) :
  Draft.images_or_empty (Draft.set_images d (Value l)) = l.
Proof. reflexivity. Qed.

(** X25.  An upload that runs to its end with no other update of the
    draft in between keeps the images of the draft at 10 or fewer.  With
    10 images already, nothing is uploaded, no image is added and the
    batch is rejected with a message.  Otherwise the files uploaded are
    among the first (10 - count) files of the batch, in order; when none
    of these uploads fails they are all uploaded and their URLs are
    appended, which gives min(10, count + batch size) images.  From 9
    images a batch of 3 gives 10, the first file only being uploaded. *)
Theorem upload_keeps_cap {Id} `{Identifier Id} (env : Env Id)
    (files : list File) (s : VenueForm.State Id) :
  let imgs := Draft.images_or_empty (VenueForm.formData s) in
  let out := run (VenueForm.uploadImages env files) s in
  let imgs' := Draft.images_or_empty (VenueForm.formData (state (snd out))) in
  let accepted := firstn (10 - List.length imgs) files in
  (List.length imgs <= 10)%nat ->
  (List.length imgs' <= 10)%nat /\
  (List.length imgs = 10%nat ->
   imgs' = imgs /\
   uploads (trace (snd out)) = [] /\
   (files <> [] -> trace (snd out) = [Alert "Maximum 10 images allowed"])) /\
  ((List.length imgs < 10)%nat ->
   (exists k, uploads (trace (snd out)) = firstn k accepted) /\
   ((forall i f, nth_error accepted i = Some f ->
                 upload_fails env i f = false) ->
    uploads (trace (snd out)) = accepted /\
    imgs' = imgs ++ publicUrls env 0 accepted /\
    List.length imgs' = Nat.min 10 (List.length imgs + List.length files))) /\
  (let out9 :=
     run (VenueForm.uploadImages (Sample.online None DurationAbsent [])
            Sample.three_photos)
       (VenueForm.mkState (Sample.draft_with_images 9) false false) in
   List.length (Draft.images_or_empty
                  (VenueForm.formData (state (snd out9)))) = 10%nat /\
   uploads (trace (snd out9)) = [Sample.photo "a.jpg"]).
Proof.
  intros imgs out imgs' accepted Hinv.
  pose proof (uploadImages_run env files s) as Hrun.
  cbv zeta in Hrun. fold imgs out in Hrun.
  change VenueForm.MAX_IMAGES with 10%nat in Hrun. fold accepted in Hrun.
  assert (Hlen : List.length accepted
                 = Nat.min (10 - List.length imgs) (List.length files)).
  { subst accepted. apply length_firstn. }
  split; [|split; [|split; [|split; reflexivity]]].
  - destruct Hrun as [(_ & E)|[(_ & _ & E)|[(_ & _ & _ & E)|(_ & _ & k & f & _ & _ & E)]]];
      subst imgs'; rewrite E; cbn [snd state VenueForm.formData]; try exact Hinv.
    rewrite images_set, length_app, publicUrls_length, Hlen. lia.
  - intros Hfull.
    destruct Hrun as [(Hnil & E)|[(_ & _ & E)|[(_ & Hlt & _)|(_ & Hlt & _)]]];
      try lia; subst imgs'; rewrite E; cbn [snd state trace VenueForm.formData].
    + repeat split. intros Hne. now elim Hne.
    + repeat split.
  - intros Hlt.
    destruct Hrun as [(Hnil & E)|[(_ & Hcap & _)|[(_ & _ & Hall & E)|(_ & _ & k & f & Hk & Hfail & E)]]];
      try lia; subst imgs'; rewrite E; cbn [snd state trace VenueForm.formData].
    + assert (Hacc : accepted = []) by (subst accepted; rewrite Hnil; apply firstn_nil).
      rewrite Hacc. split; [exists 0%nat; reflexivity|].
      intros _. cbn [publicUrls uploads]. rewrite app_nil_r.
      split; [reflexivity|]. split; [reflexivity|].
      rewrite Hnil. cbn [List.length]. fold imgs. lia.
    + rewrite uploads_map. split.
      { exists (List.length accepted). symmetry. apply firstn_all. }
      intros _. split; [reflexivity|].
      rewrite images_set. split; [reflexivity|].
      rewrite length_app, publicUrls_length, Hlen. lia.
    + rewrite uploads_app, uploads_map. cbn [uploads uploaded_file].
      rewrite app_nil_r. split; [exists (S k); reflexivity|].
      intros Hall. rewrite (Hall k f Hk) in Hfail. discriminate.
Qed.

(** The cap theorem at a draft with 9 images and a batch of three files
    whose uploads succeed: one file is uploaded and the draft has 10
    images. *)
Lemma upload_keeps_cap_witness :
  let out :=
    run (VenueForm.uploadImages (Sample.online None DurationAbsent [])
           Sample.three_photos)
      (VenueForm.mkState (Sample.draft_with_images 9) false false) in
  (List.length (Draft.images_or_empty
                  (VenueForm.formData (state (snd out)))) <= 10)%nat /\
  uploads (trace (snd out)) = [Sample.photo "a.jpg"].
Proof.
  pose proof (upload_keeps_cap (Sample.online None DurationAbsent [])
                Sample.three_photos
                (VenueForm.mkState (Sample.draft_with_images 9) false false))
    as Hthm.
  cbv zeta in Hthm.
  assert (Hinv : (List.length (Draft.images_or_empty (VenueForm.formData
                    (VenueForm.mkState (Sample.draft_with_images 9)
                       false false))) <= 10)%nat).
  { vm_compute. repeat constructor. }
  destruct (Hthm Hinv) as (Hcap & _ & Hroom & _).
  split; [exact Hcap|].
  assert (Hlt : (List.length (Draft.images_or_empty (VenueForm.formData
                    (VenueForm.mkState (Sample.draft_with_images 9)
                       false false))) < 10)%nat).
  { vm_compute. repeat constructor. }
  destruct (Hroom Hlt) as (_ & Hok).
  apply Hok. intros i f Hf. reflexivity.
Defined.

(** C5.  When the upload of one of the accepted files of a batch fails,
    the operation ends there: the draft is exactly as it was before the
    batch, so no URL of the files uploaded before the failing one is
    added; the uploads made up to the failing one stay in the storage,
    nothing being called after it but the log and the alert
    "Error uploading images"; the loading flag is cleared. *)
Theorem upload_failure_aborts {Id} `{Identifier Id} (env : Env Id)
    (files : list File) (s : VenueForm.State Id) :
  let fd := VenueForm.formData s in
  let accepted :=
    firstn (10 - List.length (Draft.images_or_empty fd)) files in
  let out := run (VenueForm.uploadImages env files) s in
  (exists i f, nth_error accepted i = Some f /\ upload_fails env i f = true) ->
  fst out = Ok tt /\
  VenueForm.formData (state (snd out)) = fd /\
  VenueForm.loading (state (snd out)) = false /\
  alerts (trace (snd out)) = ["Error uploading images"] /\
  exists k f,
    nth_error accepted k = Some f /\ upload_fails env k f = true /\
    trace (snd out) =
    map (Upload "images") (firstn (S k) accepted) ++
    [ConsoleError "Error uploading images:"; Alert "Error uploading images"].
Proof.
  intros fd accepted out (i & f & Hi & Hfail).
  pose proof (uploadImages_run env files s) as Hrun.
  cbv zeta in Hrun. fold fd out in Hrun.
  change VenueForm.MAX_IMAGES with 10%nat in Hrun. fold accepted in Hrun.
  destruct Hrun as [(Hnil & _)|[(_ & Hcap & _)|[(_ & _ & Hall & _)|(_ & _ & k & g & Hk & Hg & E)]]].
  - subst accepted. rewrite Hnil, firstn_nil in Hi. destruct i; discriminate.
  - subst accepted.
    replace (10 - List.length (Draft.images_or_empty fd))%nat with 0%nat in Hi
      by lia.
    destruct i; discriminate.
  - rewrite (Hall i f Hi) in Hfail. discriminate.
  - rewrite E. cbn [fst snd state trace VenueForm.formData VenueForm.loading].
    repeat split.
    + rewrite alerts_app, alerts_uploads. reflexivity.
    + exists k, g. repeat split; assumption.
Qed.

(** The failure theorem at a batch of three files whose second upload
    fails, for a draft with 2 images. *)
Lemma upload_failure_aborts_witness :
  let out :=
    run (VenueForm.uploadImages (Sample.online None DurationAbsent [1%nat])
           Sample.three_photos)
      (VenueForm.mkState (Sample.draft_with_images 2) false false) in
  VenueForm.formData (state (snd out)) = Sample.draft_with_images 2 /\
  alerts (trace (snd out)) = ["Error uploading images"].
Proof.
  pose proof (upload_failure_aborts
                (Sample.online None DurationAbsent [1%nat])
                Sample.three_photos
                (VenueForm.mkState (Sample.draft_with_images 2) false false))
    as Hthm.
  cbv zeta in Hthm.
  destruct Hthm as (_ & Hdraft & _ & Halert & _).
  - exists 1%nat, (Sample.photo "b.jpg"). split; reflexivity.
  - split; [exact Hdraft|exact Halert].
Defined.

(** C10.  With a name that is absent, null or empty the location
    auto-fill does nothing at all: it returns at once, with the draft,
    the flags and the trace as they were, so without a request to the
    places API and without a message. *)
Theorem autofill_without_name {Id} `{Identifier Id} (env : Env Id)
    (w : world Id (VenueForm.State Id)) :
  Draft.name (VenueForm.formData (state w)) = Undefined \/
  Draft.name (VenueForm.formData (state w)) = Null \/
  Draft.name (VenueForm.formData (state w)) = Value "" ->
  VenueForm.handleAutoFillLocation env w = (Ok tt, w).
Proof.
  intros Hname. unfold VenueForm.handleAutoFillLocation.
  unfold bind at 1. unfold get.
  destruct Hname as [-> |[-> | ->]]; reflexivity.
Qed.

(** The auto-fill theorem at the form of a new venue, whose name is
    empty. *)
Lemma autofill_without_name_witness :
  run (VenueForm.handleAutoFillLocation
         (Sample.online (Some "key") DurationAbsent []))
    (VenueForm.initialState None)
  = (Ok tt, mkWorld (VenueForm.initialState None) []).
Proof.
  apply (autofill_without_name
           (Sample.online (Some "key") DurationAbsent [])
           (mkWorld (VenueForm.initialState None) [])).
  right. right. reflexivity.
Defined.

End UploadFacts.

(* ================================================================== *)
(** ** Arrays, and the image list of the form *)
(* ================================================================== *)

Module ImageFacts.
Import JS.

Lemma filteri_from_remove {A} (l : list A) :
  forall k index,
    (k <= index)%nat ->
    filteri_from (fun _ i => negb (i =? index)%nat) k l =
    firstn (index - k) l ++ skipn (S (index - k)) l.
Proof.
  induction l as [|x r IH]; intros k index Hk; simpl.
  - now rewrite firstn_nil.
  - destruct (Nat.eqb_spec k index) as [->|Hne]; simpl.
    + rewrite Nat.sub_diag. simpl.
      clear IH. revert index Hk.
      assert (Hall : forall m index, (index < m)%nat ->
                filteri_from (fun (_ : A) i => negb (i =? index)%nat) m r = r).
      { induction r as [|y r' IHr]; intros m index Hm; simpl; [reflexivity|].
        destruct (Nat.eqb_spec m index); [lia|]. simpl.
        now rewrite IHr by lia. }
      intros index _. apply Hall. lia.
    + rewrite (IH (S k) index) by lia.
      replace (index - k)%nat with (S (index - S k)) by lia. reflexivity.
Qed.

Lemma array_get_dense {A} (l : list A) (i : nat) :
  array_get (map Some l) i = nth_error l i.
Proof.
  unfold array_get. rewrite nth_error_map. now destruct (nth_error l i).
Qed.

Lemma array_set_length {A} (arr : list (option A)) :
  forall i v, List.length (array_set arr i v) = Nat.max (List.length arr) (S i).
Proof.
  induction arr as [|x r IH]; intros i v.
  - induction i as [|k IHk]; simpl; [reflexivity|]. rewrite IHk. simpl. lia.
  - destruct i as [|k]; simpl; [lia|]. now rewrite IH.
Qed.

Lemma array_get_set_same {A} (arr : list (option A)) :
  forall i v, array_get (array_set arr i v) i = v.
Proof.
  unfold array_get.
  induction arr as [|x r IH]; intros i v.
  - induction i as [|k IHk]; simpl; [now destruct v|exact IHk].
  - destruct i as [|k]; simpl; [now destruct v|apply IH].
Qed.

Lemma array_get_set_other {A} (arr : list (option A)) :
  forall i j v, i <> j -> array_get (array_set arr i v) j = array_get arr j.
Proof.
  unfold array_get.
  induction arr as [|x r IH]; intros i j v Hij.
  - revert j Hij. induction i as [|k IHk]; intros j Hij; simpl.
    + destruct j as [|j]; [congruence|]. simpl. now destruct j.
    + destruct j as [|j]; simpl; [reflexivity|].
      rewrite IHk by congruence. now destruct j.
  - destruct i as [|k], j as [|j]; simpl; try reflexivity; try congruence.
    apply IH. congruence.
Qed.

(** Writing the entry that follows a prefix. *)
Lemma array_set_app {A} (l1 : list (option A)) (x : option A)
    (r : list (option A)) (v : option A) :
  array_set (l1 ++ x :: r) (List.length l1) v = l1 ++ v :: r.
Proof.
  induction l1 as [|y l1 IH]; simpl; [reflexivity|]. now rewrite IH.
Qed.

Lemma array_get_app {A} (l1 : list (option A)) (x : option A)
    (r : list (option A)) :
  array_get (l1 ++ x :: r) (List.length l1) = x.
Proof.
  unfold array_get. rewrite nth_error_app2 by lia.
  rewrite Nat.sub_diag. simpl. now destruct x.
Qed.

(** Reading and exchanging two neighbours. *)
Lemma swap_neighbours {A} (l1 : list (option A)) (x y : option A)
    (r : list (option A)) :
  let arr := l1 ++ x :: y :: r in
  let n := List.length l1 in
  array_get arr n = x /\
  array_get arr (S n) = y /\
  array_set (array_set arr (S n) x) n y = l1 ++ y :: x :: r /\
  array_set (array_set arr n y) (S n) x = l1 ++ y :: x :: r.
Proof.
  induction l1 as [|z l1 IH]; cbn zeta.
  - unfold array_get. simpl. now destruct x, y.
  - cbn zeta in IH. destruct IH as (G1 & G2 & S1 & S2).
    unfold array_get in *. simpl.
    repeat split; try assumption; f_equal; assumption.
Qed.

Lemma split_neighbours {A} (l : list A) (n : nat) :
  (S n < List.length l)%nat ->
  exists before a b after,
    l = before ++ a :: b :: after /\ List.length before = n.
Proof.
  revert l. induction n as [|n IH]; intros l Hn.
  - destruct l as [|a [|b r]]; simpl in Hn; try lia.
    now exists [], a, b, r.
  - destruct l as [|x r]; simpl in Hn; [lia|].
    destruct (IH r) as (before & a & b & after & -> & Hlen); [lia|].
    exists (x :: before), a, b, after. simpl. now rewrite Hlen.
Qed.

Lemma map_Some_inj {A} (l l' : list A) : map Some l = map Some l' -> l = l'.
Proof.
  revert l'. induction l as [|x r IH]; intros [|y r']; simpl;
    try discriminate; [reflexivity|].
  intros [= -> E]. f_equal. now apply IH.
Qed.

Lemma moveImage_up_swap (before after : list string) (a b : string) :
  VenueForm.moveImage (map Some (before ++ a :: b :: after))
    (S (List.length before)) VenueForm.up
  = Some (map Some (before ++ b :: a :: after)).
Proof.
  unfold VenueForm.moveImage. cbn [Nat.eqb].
  rewrite !map_app. cbn [map].
  replace (S (List.length before) - 1)%nat with (List.length before) by lia.
  rewrite <- (length_map Some before).
  destruct (swap_neighbours (map Some before) (Some a) (Some b)
              (map Some after)) as (G1 & G2 & S1 & _).
  cbv zeta in G1, G2, S1. now rewrite G1, G2, S1.
Qed.

Lemma moveImage_down_swap (before after : list string) (a b : string) :
  VenueForm.moveImage (map Some (before ++ a :: b :: after))
    (List.length before) VenueForm.down
  = Some (map Some (before ++ b :: a :: after)).
Proof.
  unfold VenueForm.moveImage.
  destruct (Nat.eqb_spec (List.length before + 1)
              (List.length (map Some (before ++ a :: b :: after))))
    as [E|_].
  { rewrite length_map, length_app in E. simpl in E. lia. }
  rewrite !map_app. cbn [map].
  replace (List.length before + 1)%nat with (S (List.length before)) by lia.
  rewrite <- (length_map Some before).
  destruct (swap_neighbours (map Some before) (Some a) (Some b)
              (map Some after)) as (G1 & G2 & _ & S2).
  cbv zeta in G1, G2, S2. now rewrite G1, G2, S2.
Qed.

(** When the array handed to [setFormData] holds images only, the index
    was that of an image with a neighbour, and the array is the list with
    the two exchanged. *)
Lemma moveImage_dense (imgs imgs' : list string) (index : nat)
    (direction : VenueForm.Direction) :
  VenueForm.moveImage (map Some imgs) index direction = Some (map Some imgs') ->
  exists before a b after,
    imgs = before ++ a :: b :: after /\ imgs' = before ++ b :: a :: after.
Proof.
  intros Hmove.
  assert (Hrange : match direction with
                   | VenueForm.up => exists n, index = S n /\
                                               (S n < List.length imgs)%nat
                   | VenueForm.down => (S index < List.length imgs)%nat
                   end).
  { unfold VenueForm.moveImage in Hmove. destruct direction.
    - destruct index as [|n]; [discriminate|]. exists n. split; [reflexivity|].
      cbn [Nat.eqb] in Hmove. injection Hmove as Hmove.
      destruct (Nat.lt_ge_cases (S n) (List.length imgs)) as [Hlt|Hge];
        [exact Hlt|exfalso].
      assert (Hget : array_get (map Some imgs') (S n - 1) = None).
      { rewrite <- Hmove, array_get_set_same, array_get_dense.
        apply nth_error_None. exact Hge. }
      rewrite array_get_dense in Hget. apply nth_error_None in Hget.
      apply (f_equal (@List.length _)) in Hmove.
      rewrite !array_set_length, !length_map in Hmove. lia.
    - destruct (Nat.eqb_spec (index + 1) (List.length (map Some imgs)))
        as [|Hne]; [discriminate|].
      rewrite length_map in Hne. injection Hmove as Hmove.
      destruct (Nat.lt_ge_cases index (List.length imgs)) as [Hlt|Hge];
        [lia|exfalso].
      assert (Hget : array_get (map Some imgs') (index + 1) = None).
      { rewrite <- Hmove, array_get_set_same, array_get_dense.
        apply nth_error_None. exact Hge. }
      rewrite array_get_dense in Hget. apply nth_error_None in Hget.
      apply (f_equal (@List.length _)) in Hmove.
      rewrite !array_set_length, !length_map in Hmove. lia. }
  destruct direction.
  - destruct Hrange as (n & -> & Hn).
    destruct (split_neighbours imgs n Hn) as (before & a & b & after & -> & <-).
    exists before, a, b, after. split; [reflexivity|].
    rewrite moveImage_up_swap in Hmove. injection Hmove as Hmove.
    symmetry. now apply map_Some_inj.
  - destruct (split_neighbours imgs index Hrange)
      as (before & a & b & after & -> & <-).
    exists before, a, b, after. split; [reflexivity|].
    rewrite moveImage_down_swap in Hmove. injection Hmove as Hmove.
    symmetry. now apply map_Some_inj.
Qed.

(** X1.  [removeImage] removes the image at the index and nothing else:
    the images before it keep their positions, the images after it move
    one position down, the other attributes and the flags are untouched
    and nothing is called.  An index past the last image removes
    nothing. *)
Theorem removeImage_removes {Id} `{Identifier Id} (index : nat)
    (s : VenueForm.State Id) :
  let imgs := Draft.images_or_empty (VenueForm.formData s) in
  let imgs' := firstn index imgs ++ skipn (S index) imgs in
  run (VenueForm.removeImage index) s =
  (Ok tt,
   mkWorld
     (VenueForm.mkState (Draft.set_images (VenueForm.formData s) (Value imgs'))
        (VenueForm.loading s) (VenueForm.searching s))
     []) /\
  ((index < List.length imgs)%nat -> S (List.length imgs') = List.length imgs) /\
  ((List.length imgs <= index)%nat -> imgs' = imgs) /\
  (forall j, (j < index)%nat -> nth_error imgs' j = nth_error imgs j) /\
  (forall j, (index <= j)%nat -> nth_error imgs' j = nth_error imgs (S j)).
Proof.
  intros imgs imgs'.
  split.
  { unfold run, VenueForm.removeImage, VenueForm.setFormData, modify.
    cbn [state trace VenueForm.formData VenueForm.loading
         VenueForm.searching].
    unfold filteri. rewrite filteri_from_remove by lia.
    rewrite Nat.sub_0_r. reflexivity. }
  split.
  { intros Hlt. subst imgs'.
    rewrite length_app, length_firstn, length_skipn. lia. }
  split.
  { intros Hge. subst imgs'.
    rewrite firstn_all2 by exact Hge.
    rewrite skipn_all2 by lia. apply app_nil_r. }
  split.
  - intros j Hj. subst imgs'.
    destruct (Nat.lt_ge_cases j (List.length imgs)) as [Hlt|Hge].
    + rewrite nth_error_app1 by (rewrite length_firstn; lia).
      rewrite nth_error_firstn.
      destruct (Nat.ltb_spec j index); [reflexivity|lia].
    + transitivity (@None string); [|symmetry]; apply nth_error_None;
        [|exact Hge].
      rewrite length_app, length_firstn, length_skipn. lia.
  - intros j Hj. subst imgs'.
    destruct (Nat.lt_ge_cases index (List.length imgs)) as [Hlt|Hge].
    + rewrite nth_error_app2 by (rewrite length_firstn; lia).
      rewrite length_firstn, nth_error_skipn. f_equal. lia.
    + transitivity (@None string); [|symmetry]; apply nth_error_None;
        [|lia].
      rewrite length_app, length_firstn, length_skipn. lia.
Qed.

(** Removing the hero of a, b, c, d leaves b, c, d; removing at index 7
    leaves the four images. *)
Lemma removeImage_removes_witness :
  Draft.images_or_empty (VenueForm.formData (state (snd (run
    (VenueForm.removeImage 0)
    (VenueForm.mkState Sample.draft_abcd false false)))))
  = ["b.jpg"; "c.jpg"; "d.jpg"] /\
  S (List.length (firstn 0 Sample.abcd ++ skipn 1 Sample.abcd)) = 4%nat /\
  firstn 7 Sample.abcd ++ skipn 8 Sample.abcd = Sample.abcd /\
  nth_error (firstn 2 Sample.abcd ++ skipn 3 Sample.abcd) 1 = Some "b.jpg" /\
  nth_error (firstn 2 Sample.abcd ++ skipn 3 Sample.abcd) 2 = Some "d.jpg".
Proof.
  split.
  - pose proof (removeImage_removes 0
                  (VenueForm.mkState Sample.draft_abcd false false)) as Hthm.
    cbv zeta in Hthm. destruct Hthm as (Hrun & _). now rewrite Hrun.
  - pose proof (removeImage_removes 0
                  (VenueForm.mkState Sample.draft_abcd false false)) as H0.
    pose proof (removeImage_removes 7
                  (VenueForm.mkState Sample.draft_abcd false false)) as H7.
    pose proof (removeImage_removes 2
                  (VenueForm.mkState Sample.draft_abcd false false)) as H2.
    cbv zeta in H0, H7, H2.
    destruct H0 as (_ & Hlen & _).
    destruct H7 as (_ & _ & Hout & _).
    destruct H2 as (_ & _ & _ & Hlow & Hhigh).
    split; [apply Hlen; vm_compute; repeat constructor|].
    split; [apply Hout; vm_compute; repeat constructor|].
    split; [apply (Hlow 1%nat); repeat constructor|].
    apply (Hhigh 2%nat). constructor.
Defined.

(** X2.  [moveImage] exchanges an image with its neighbour: moving the
    image after [a] up, or [a] down, turns ..., a, b, ... into
    ..., b, a, ..., all other images staying in place, so the images
    after the move are a permutation of the images before it.  Moving the
    first image up or the last image down returns without an update. *)
Theorem moveImage_exchanges_neighbours (before after : list string)
    (a b : string) :
  let imgs := before ++ a :: b :: after in
  let swapped := before ++ b :: a :: after in
  VenueForm.moveImage (map Some imgs) (S (List.length before)) VenueForm.up
  = Some (map Some swapped) /\
  VenueForm.moveImage (map Some imgs) (List.length before) VenueForm.down
  = Some (map Some swapped) /\
  Permutation swapped imgs /\
  (forall l : list string,
     VenueForm.moveImage (map Some l) 0 VenueForm.up = None) /\
  (forall (l : list string) (x : string),
     VenueForm.moveImage (map Some (l ++ [x])) (List.length l) VenueForm.down
     = None).
Proof.
  intros imgs swapped.
  split; [apply moveImage_up_swap|].
  split; [apply moveImage_down_swap|].
  split.
  { subst imgs swapped. apply Permutation_app_head, perm_swap. }
  split; [reflexivity|].
  intros l x. unfold VenueForm.moveImage.
  rewrite length_map, length_app. cbn [List.length].
  now rewrite Nat.eqb_refl.
Qed.

(** X3.  Moving an image up and then moving it down again, or down and
    then up again, gives back the images in their order. *)
Theorem moveImage_round_trip (imgs : list string) (index : nat) :
  ((0 < index < List.length imgs)%nat ->
   exists moved,
     VenueForm.moveImage (map Some imgs) index VenueForm.up
     = Some (map Some moved) /\
     VenueForm.moveImage (map Some moved) (index - 1) VenueForm.down
     = Some (map Some imgs)) /\
  ((index + 1 < List.length imgs)%nat ->
   exists moved,
     VenueForm.moveImage (map Some imgs) index VenueForm.down
     = Some (map Some moved) /\
     VenueForm.moveImage (map Some moved) (index + 1) VenueForm.up
     = Some (map Some imgs)).
Proof.
  split.
  - intros [Hpos Hlt]. destruct index as [|n]; [lia|].
    destruct (split_neighbours imgs n Hlt)
      as (before & a & b & after & -> & <-).
    exists (before ++ b :: a :: after).
    split; [apply moveImage_up_swap|].
    replace (S (List.length before) - 1)%nat with (List.length before) by lia.
    apply moveImage_down_swap.
  - intros Hlt.
    destruct (split_neighbours imgs index) as (before & a & b & after & -> & <-);
      [lia|].
    exists (before ++ b :: a :: after).
    split; [apply moveImage_down_swap|].
    replace (List.length before + 1)%nat with (S (List.length before)) by lia.
    apply moveImage_up_swap.
Qed.

(** Moving c of a, b, c, d up and down again, and down and up again. *)
Lemma moveImage_round_trip_witness :
  (exists moved,
     VenueForm.moveImage (map Some Sample.abcd) 2 VenueForm.up
     = Some (map Some moved) /\
     VenueForm.moveImage (map Some moved) 1 VenueForm.down
     = Some (map Some Sample.abcd)) /\
  (exists moved,
     VenueForm.moveImage (map Some Sample.abcd) 2 VenueForm.down
     = Some (map Some moved) /\
     VenueForm.moveImage (map Some moved) 3 VenueForm.up
     = Some (map Some Sample.abcd)).
Proof.
  destruct (moveImage_round_trip Sample.abcd 2) as (Hup & Hdown).
  split.
  - apply Hup. split; repeat constructor.
  - apply Hdown. repeat constructor.
Defined.

(** X4.  [moveImage] does not check that the index is that of an image.
    With an index past the last image, the array it hands to
    [setFormData] is longer than the list of images and holds an
    [undefined] entry, in either direction. *)
Theorem moveImage_past_the_end (imgs : list string) (index : nat) :
  (List.length imgs <= index)%nat ->
  (index <> 0%nat ->
   exists arr,
     VenueForm.moveImage (map Some imgs) index VenueForm.up = Some arr /\
     List.length arr = S index /\ In None arr) /\
  (exists arr,
     VenueForm.moveImage (map Some imgs) index VenueForm.down = Some arr /\
     List.length arr = S (S index) /\ In None arr).
Proof.
  intros Hge.
  assert (Hin : forall (arr : list (option string)) k,
             (k < List.length arr)%nat -> array_get arr k = None ->
             In None arr).
  { intros arr k Hk Hget. unfold array_get in Hget.
    destruct (nth_error arr k) as [[x|]|] eqn:E; try discriminate.
    - eapply nth_error_In; eassumption.
    - apply nth_error_None in E. lia. }
  split.
  - intros Hne. unfold VenueForm.moveImage.
    destruct (Nat.eqb_spec index 0) as [|_]; [congruence|].
    eexists. split; [reflexivity|].
    assert (Hlen : List.length
              (array_set
                 (array_set (map Some imgs) index
                    (array_get (map Some imgs) (index - 1)))
                 (index - 1) (array_get (map Some imgs) index)) = S index).
    { rewrite !array_set_length, length_map. lia. }
    split; [exact Hlen|].
    apply (Hin _ (index - 1)%nat); [lia|].
    rewrite array_get_set_same, array_get_dense.
    apply nth_error_None. exact Hge.
  - unfold VenueForm.moveImage.
    destruct (Nat.eqb_spec (index + 1) (List.length (map Some imgs)))
      as [E|_]; [rewrite length_map in E; lia|].
    eexists. split; [reflexivity|].
    assert (Hlen : List.length
              (array_set
                 (array_set (map Some imgs) index
                    (array_get (map Some imgs) (index + 1)))
                 (index + 1) (array_get (map Some imgs) index))
              = S (S index)).
    { rewrite !array_set_length, length_map. lia. }
    split; [exact Hlen|].
    apply (Hin _ (index + 1)%nat); [lia|].
    rewrite array_get_set_same, array_get_dense.
    apply nth_error_None. exact Hge.
Qed.

(** Moving "the image at index 4" of a, b, c, d up. *)
Lemma moveImage_past_the_end_witness :
  exists arr,
    VenueForm.moveImage (map Some Sample.abcd) 4 VenueForm.up = Some arr /\
    List.length arr = 5%nat /\ In None arr.
Proof.
  destruct (moveImage_past_the_end Sample.abcd 4) as (Hup & _).
  - repeat constructor.
  - apply Hup. discriminate.
Defined.

End ImageFacts.

(* ================================================================== *)
(** ** The venue form: edits, brochure and paste *)
(* ================================================================== *)

Module FormFacts.
Import UploadFacts.

Lemma In_firstn {A} (x : A) (n : nat) (l : list A) :
  In x (firstn n l) -> In x l.
Proof.
  intros Hx. rewrite <- (firstn_skipn n l). apply in_or_app. now left.
Qed.

Lemma firstn_S_not_nil {A} (l : list A) (k : nat) (x : A) :
  nth_error l k = Some x -> firstn (S k) l <> [].
Proof. destruct l; [destruct k|]; discriminate. Qed.

(** Every run of [uploadImages] returns normally, and the files it
    uploads are among the first files of the batch. *)
Lemma uploadImages_uploads {Id} `{Identifier Id} (env : Env Id)
    (files : list File) (s : VenueForm.State Id) :
  let out := run (VenueForm.uploadImages env files) s in
  fst out = Ok tt /\
  exists k,
    uploads (trace (snd out)) =
    firstn k (firstn (10 - VenueForm.imageCount s) files) /\
    (files <> [] -> VenueForm.isMaxed s = false -> (0 < k)%nat).
Proof.
  intros out.
  pose proof (uploadImages_run env files s) as Hrun.
  cbv zeta in Hrun. fold out in Hrun.
  change VenueForm.MAX_IMAGES with 10%nat in Hrun.
  fold (VenueForm.imageCount s) in Hrun.
  unfold VenueForm.isMaxed. change VenueForm.MAX_IMAGES with 10%nat.
  destruct Hrun as [(Hnil & E)|[(_ & Hcap & E)|[(_ & Hlt & _ & E)|(_ & Hlt & k & f & Hk & _ & E)]]];
    rewrite E; cbn [fst snd trace]; (split; [reflexivity|]).
  - exists 0%nat. split; [reflexivity|]. intros Hne. now elim Hne.
  - exists 0%nat. split; [reflexivity|]. intros _ Hroom.
    apply Nat.leb_gt in Hroom. lia.
  - rewrite uploads_map.
    exists (List.length (firstn (10 - VenueForm.imageCount s) files)).
    split; [symmetry; apply firstn_all|].
    intros Hne _. rewrite length_firstn.
    destruct files; [now elim Hne|]. cbn [List.length].
    unfold VenueForm.imageCount in *. lia.
  - rewrite uploads_app, uploads_map. cbn [uploads uploaded_file].
    rewrite app_nil_r. exists (S k). split; [reflexivity|]. lia.
Qed.

(** X5.  An edit of a text input replaces that attribute of the draft by
    the text typed and leaves every other attribute, the flags and the
    trace as they were.  Of two edits of one input the second one stays;
    edits of different inputs give the same draft in either order. *)
Theorem handleChange_edits_one_attribute {Id} `{Identifier Id}
    (name : Draft.InputName) (value : string) (s : VenueForm.State Id) :
  let fd := VenueForm.formData s in
  let out := run (VenueForm.handleChange name value) s in
  let fd' := VenueForm.formData (state (snd out)) in
  (fst out = Ok tt /\ trace (snd out) = [] /\
   VenueForm.loading (state (snd out)) = VenueForm.loading s /\
   VenueForm.searching (state (snd out)) = VenueForm.searching s) /\
  Draft.get_text fd' name = Value value /\
  (forall k, k <> name -> Draft.get_text fd' k = Draft.get_text fd k) /\
  (Draft.id fd' = Draft.id fd /\
   Draft.brochure_url fd' = Draft.brochure_url fd /\
   Draft.status_color fd' = Draft.status_color fd /\
   Draft.drive_time_minutes fd' = Draft.drive_time_minutes fd /\
   Draft.active fd' = Draft.active fd /\
   Draft.images fd' = Draft.images fd) /\
  (forall value2,
     Draft.set_text (Draft.set_text fd name value) name value2
     = Draft.set_text fd name value2) /\
  (forall name2 value2, name2 <> name ->
     Draft.set_text (Draft.set_text fd name value) name2 value2
     = Draft.set_text (Draft.set_text fd name2 value2) name value).
Proof.
  intros fd out fd'.
  split; [repeat split|].
  split; [destruct name; reflexivity|].
  split; [intros k Hk; destruct name, k; try reflexivity; congruence|].
  split; [repeat split|].
  split; [intros value2; destruct name; reflexivity|].
  intros name2 value2 Hne.
  destruct name, name2; try reflexivity; congruence.
Qed.

(** Typing a price leaves the name; typing a name and then a location
    gives the same draft as typing them in the other order. *)
Lemma handleChange_edits_one_attribute_witness :
  Draft.get_text
    (VenueForm.formData (state (snd (run
       (VenueForm.handleChange Draft.input_price_saturday "4,500")
       (VenueForm.mkState Sample.stored_draft false false)))))
    Draft.input_name
  = Value "Castle" /\
  Draft.set_text (Draft.set_text Sample.new_draft Draft.input_name "Barn")
    Draft.input_location "Leith"
  = Draft.set_text (Draft.set_text Sample.new_draft Draft.input_location "Leith")
      Draft.input_name "Barn".
Proof.
  split.
  - pose proof (handleChange_edits_one_attribute Draft.input_price_saturday
                  "4,500" (VenueForm.mkState Sample.stored_draft false false))
      as Hthm.
    cbv zeta in Hthm. destruct Hthm as (_ & _ & Hother & _).
    rewrite (Hother Draft.input_name); [reflexivity|discriminate].
  - pose proof (handleChange_edits_one_attribute Draft.input_name "Barn"
                  (VenueForm.mkState Sample.new_draft false false)) as Hthm.
    cbv zeta in Hthm. destruct Hthm as (_ & _ & _ & _ & _ & Hcomm).
    apply (Hcomm Draft.input_location "Leith"). discriminate.
Defined.

(** X6.  When the upload of a brochure fails, because the request rejects
    or answers with an error, the draft is left as it was, so the former
    brochure link stays; the failure is logged, the message
    "Error uploading file" is shown and the loading flag is cleared. *)
Theorem brochure_failure_keeps_link {Id} `{Identifier Id} (env : Env Id)
    (file : File) (others : list File) (s : VenueForm.State Id) :
  (exists e, storage_upload env "brochures" 0 file = Rejects e) \/
  (exists e url,
     storage_upload env "brochures" 0 file = Resolves (Some e, url)) ->
  run (VenueForm.handleBrochureUpload env (Some (file :: others))) s =
  (Ok tt,
   mkWorld
     (VenueForm.mkState (VenueForm.formData s) false (VenueForm.searching s))
     [Upload "brochures" file; ConsoleError "Error uploading file:";
      Alert "Error uploading file"]).
Proof.
  intros Hfail.
  unfold VenueForm.handleBrochureUpload, VenueForm.setLoading,
    VenueForm.setFormData.
  run_monad.
  destruct Hfail as [(e & ->)|(e & url & ->)]; reflexivity.
Qed.

(** A brochure whose upload is answered with an error. *)
Lemma brochure_failure_keeps_link_witness :
  VenueForm.formData (state (snd (run
    (VenueForm.handleBrochureUpload Sample.offline
       (Some [Sample.brochure]))
    (VenueForm.mkState Sample.stored_draft false false))))
  = Sample.stored_draft.
Proof.
  rewrite (brochure_failure_keeps_link Sample.offline Sample.brochure []
             (VenueForm.mkState Sample.stored_draft false false)).
  - reflexivity.
  - left. eexists. reflexivity.
Defined.

(** X7.  A brochure upload sends the first selected file only, to the
    brochures bucket; when it succeeds the brochure link of the draft
    becomes the public URL of the stored file and nothing else changes.
    Without a selected file nothing happens. *)
Theorem brochure_success_replaces_link {Id} `{Identifier Id} (env : Env Id)
    (s : VenueForm.State Id) :
  run (VenueForm.handleBrochureUpload env None) s = (Ok tt, mkWorld s []) /\
  run (VenueForm.handleBrochureUpload env (Some [])) s
  = (Ok tt, mkWorld s []) /\
  (forall file others url,
     storage_upload env "brochures" 0 file = Resolves (None, url) ->
     run (VenueForm.handleBrochureUpload env (Some (file :: others))) s =
     (Ok tt,
      mkWorld
        (VenueForm.mkState
           (Draft.set_brochure_url (VenueForm.formData s) (Value url))
           false (VenueForm.searching s))
        [Upload "brochures" file])).
Proof.
  split; [reflexivity|]. split; [reflexivity|].
  intros file others url Hok.
  unfold VenueForm.handleBrochureUpload, VenueForm.setLoading,
    VenueForm.setFormData.
  run_monad. now rewrite Hok.
Qed.

(** Two files selected, the storage answering every upload. *)
Lemma brochure_success_replaces_link_witness :
  run (VenueForm.handleBrochureUpload (Sample.online None DurationAbsent [])
         (Some [Sample.brochure; Sample.photo "a.jpg"]))
    (VenueForm.mkState Sample.stored_draft true false)
  = (Ok tt,
     mkWorld
       (VenueForm.mkState
          (Draft.set_brochure_url Sample.stored_draft
             (Value "https://cdn.example/brochure.pdf"))
          false false)
       [Upload "brochures" Sample.brochure]).
Proof.
  destruct (brochure_success_replaces_link
              (Sample.online None DurationAbsent [])
              (VenueForm.mkState Sample.stored_draft true false))
    as (_ & _ & Hok).
  apply (Hok Sample.brochure [Sample.photo "a.jpg"]
           "https://cdn.example/brochure.pdf").
  reflexivity.
Defined.

(** X8.  A paste uploads image files only: every file uploaded is one of
    the pasted files and has a type that starts with "image/".  A paste
    without such a file does nothing and leaves the paste to the browser;
    a paste with one takes the event over. *)
Theorem handlePaste_uploads_images_only {Id} `{Identifier Id} (env : Env Id)
    (files : list File) (s : VenueForm.State Id) :
  let out := run (VenueForm.handlePaste env files) s in
  (forall f, In f (uploads (trace (snd out))) ->
             In f files /\ is_image f = true) /\
  ((forall f, In f files -> is_image f = false) ->
   out = (Ok false, mkWorld s [])) /\
  ((exists f, In f files /\ is_image f = true) -> fst out = Ok true).
Proof.
  intros out. subst out. unfold VenueForm.handlePaste.
  set (pasted := filter (fun file => String.prefix "image/" (file_type file))
                   files).
  assert (Hpasted : forall f, In f pasted <-> In f files /\ is_image f = true).
  { intros f. subst pasted. apply filter_In. }
  destruct (Nat.eqb_spec (List.length pasted) 0) as [Hzero|Hpos].
  - apply length_zero_iff_nil in Hzero.
    split; [intros f []|]. split; [reflexivity|].
    intros (f & Hf). apply Hpasted in Hf. rewrite Hzero in Hf. destruct Hf.
  - destruct (uploadImages_uploads env pasted s) as (Hok & k & Hup & _).
    unfold run, bind in *.
    destruct (VenueForm.uploadImages env pasted (mkWorld s [])) as [r w].
    cbn [fst snd] in Hok, Hup. subst r. unfold ret. cbn [fst snd].
    split.
    { intros f Hf. rewrite Hup in Hf.
      apply Hpasted. eapply In_firstn, In_firstn, Hf. }
    split; [|reflexivity].
    intros Hnone. exfalso. apply Hpos.
    destruct pasted as [|f r]; [reflexivity|].
    assert (Hf : In f (f :: r)) by now left.
    apply Hpasted in Hf as [Hin Himg]. rewrite (Hnone f Hin) in Himg.
    discriminate.
Qed.

(** A paste of a brochure and two photos, and a paste of a brochure. *)
Lemma handlePaste_uploads_images_only_witness :
  fst (run (VenueForm.handlePaste (Sample.online None DurationAbsent [])
              [Sample.brochure; Sample.photo "a.jpg"; Sample.photo "b.jpg"])
         (VenueForm.mkState Sample.draft_abcd false false))
  = Ok true /\
  run (VenueForm.handlePaste (Sample.online None DurationAbsent [])
         [Sample.brochure])
    (VenueForm.mkState Sample.draft_abcd false false)
  = (Ok false, mkWorld (VenueForm.mkState Sample.draft_abcd false false) []).
Proof.
  split.
  - apply (handlePaste_uploads_images_only
             (Sample.online None DurationAbsent [])
             [Sample.brochure; Sample.photo "a.jpg"; Sample.photo "b.jpg"]
             (VenueForm.mkState Sample.draft_abcd false false)).
    exists (Sample.photo "a.jpg"). split; [right; left|]; reflexivity.
  - apply (handlePaste_uploads_images_only
             (Sample.online None DurationAbsent []) [Sample.brochure]
             (VenueForm.mkState Sample.draft_abcd false false)).
    intros f [<-|[]]. reflexivity.
Defined.

(** X9.  The guard of [uploadImages] and the flag [isMaxed] that disables
    the drop zone agree: a drop of at least one file uploads nothing
    exactly when [isMaxed] holds, and then the drop zone is disabled and
    the draft is left as it was. *)
Theorem dropzone_guard_agrees {Id} `{Identifier Id} (env : Env Id)
    (files : list File) (s : VenueForm.State Id) :
  files <> [] ->
  let out := run (VenueForm.handleDrop env files) s in
  (uploads (trace (snd out)) = [] <-> VenueForm.isMaxed s = true) /\
  (VenueForm.isMaxed s = true ->
   VenueForm.dropzoneDisabled s = true /\ state (snd out) = s).
Proof.
  intros Hne out. subst out. unfold VenueForm.handleDrop.
  pose proof (uploadImages_run env files s) as Hrun.
  cbv zeta in Hrun.
  unfold VenueForm.dropzoneDisabled, VenueForm.isMaxed, VenueForm.imageCount.
  destruct Hrun as [(Hnil & _)|[(_ & Hcap & E)|[(_ & Hlt & _ & E)|(_ & Hlt & k & f & Hk & _ & E)]]];
    [congruence| | |]; rewrite E; cbn [snd state trace].
  - apply Nat.leb_le in Hcap. rewrite Hcap.
    split; [split; reflexivity|]. intros _. split; [apply orb_true_r|reflexivity].
  - apply Nat.leb_gt in Hlt. rewrite Hlt. rewrite uploads_map.
    split; [|discriminate]. split; [|discriminate].
    intros Hempty. exfalso.
    apply (f_equal (@List.length _)) in Hempty.
    rewrite length_firstn in Hempty. apply Nat.leb_gt in Hlt.
    destruct files; [congruence|]. cbn [List.length] in Hempty. lia.
  - apply Nat.leb_gt in Hlt. rewrite Hlt.
    rewrite uploads_app, uploads_map. cbn [uploads uploaded_file].
    rewrite app_nil_r.
    split; [|discriminate]. split; [|discriminate].
    intros Hempty. now apply (firstn_S_not_nil _ _ _ Hk) in Hempty.
Qed.

(** A drop of three photos on a draft with ten images. *)
Lemma dropzone_guard_agrees_witness :
  uploads (trace (snd (run
    (VenueForm.handleDrop (Sample.online None DurationAbsent [])
       Sample.three_photos)
    (VenueForm.mkState (Sample.draft_with_images 10) false false))))
  = [] /\
  VenueForm.dropzoneDisabled
    (VenueForm.mkState (Sample.draft_with_images 10) false false) = true.
Proof.
  pose proof (dropzone_guard_agrees (Sample.online None DurationAbsent [])
                Sample.three_photos
                (VenueForm.mkState (Sample.draft_with_images 10) false false))
    as Hthm.
  cbv zeta in Hthm.
  assert (Hne : Sample.three_photos <> []) by discriminate.
  destruct (Hthm Hne) as ((_ & Hmaxed) & Hdisabled).
  split; [apply Hmaxed; reflexivity|].
  apply Hdisabled. reflexivity.
Defined.

(** X10.  With a name in the draft, the location auto-fill always returns
    normally with the searching flag cleared and the loading flag
    untouched.  Without an API key it sends no request and shows
    "Google Maps API Key is missing"; with a key it sends exactly one
    request, whose query is the name.  It ends in one of two ways: no
    message and only the location of the draft replaced, or exactly one
    message and the draft as it was. *)
Theorem autofill_outcomes {Id} `{Identifier Id} (env : Env Id)
    (s : VenueForm.State Id) :
  let fd := VenueForm.formData s in
  let out := run (VenueForm.handleAutoFillLocation env) s in
  let fd' := VenueForm.formData (state (snd out)) in
  truthy_string (Draft.name fd) = true ->
  fst out = Ok tt /\
  VenueForm.searching (state (snd out)) = false /\
  VenueForm.loading (state (snd out)) = VenueForm.loading s /\
  (usable_key (VITE_GOOGLE_MAPS_API_KEY env) = None ->
   trace (snd out) = [Alert "Google Maps API Key is missing"] /\ fd' = fd) /\
  (forall apiKey,
     usable_key (VITE_GOOGLE_MAPS_API_KEY env) = Some apiKey ->
     places_requests (trace (snd out))
     = [SearchText apiKey (nullish (Draft.name fd) "")]) /\
  ((alerts (trace (snd out)) = [] /\
    exists location, fd' = Draft.set_location fd location) \/
   (List.length (alerts (trace (snd out))) = 1%nat /\ fd' = fd)).
Proof.
  intros fd out fd' Hname. subst fd'. unfold out. clear out.
  remember (run (VenueForm.handleAutoFillLocation env) s) as o eqn:Ho.
  unfold VenueForm.handleAutoFillLocation, VenueForm.setSearching,
    VenueForm.setFormData in Ho.
  unfold run, bind at 1 in Ho. unfold get in Ho. cbn [state trace] in Ho.
  fold fd in Ho. rewrite Hname in Ho. cbn [negb] in Ho.
  destruct (usable_key (VITE_GOOGLE_MAPS_API_KEY env)) as [apiKey|].
  - unfold bind, ret, try_finally, try_catch, emit, modify, await, throw in Ho.
    cbn [state trace] in Ho.
    destruct (searchText env apiKey (nullish (Draft.name fd) ""))
      as [e|[[|] [e|[[[|place rest]|]]]]]; simpl in Ho; subst o; simpl;
      (split; [reflexivity|]; split; [reflexivity|]; split; [reflexivity|];
       split; [discriminate|]; split; [intros k [= <-]; reflexivity|];
       first [left; split; [reflexivity|eexists; reflexivity]
             |right; split; reflexivity]).
  - unfold bind, ret, try_finally, try_catch, emit, modify, await, throw in Ho.
    simpl in Ho. subst o. simpl.
    split; [reflexivity|]. split; [reflexivity|]. split; [reflexivity|].
    split; [intros _; split; reflexivity|]. split; [discriminate|].
    right. split; reflexivity.
Qed.

(** The auto-fill of the draft of stored venue 7, named "Castle", without
    a key. *)
Lemma autofill_outcomes_witness :
  trace (snd (run (VenueForm.handleAutoFillLocation Sample.offline)
                (VenueForm.mkState Sample.stored_draft false true)))
  = [Alert "Google Maps API Key is missing"] /\
  VenueForm.searching (state (snd (run
    (VenueForm.handleAutoFillLocation Sample.offline)
    (VenueForm.mkState Sample.stored_draft false true))))
  = false.
Proof.
  pose proof (autofill_outcomes Sample.offline
                (VenueForm.mkState Sample.stored_draft false true)) as Hthm.
  cbv zeta in Hthm.
  destruct (Hthm eq_refl) as (_ & Hsearching & _ & Hkey & _).
  split; [apply Hkey; reflexivity|exact Hsearching].
Defined.

(** X11.  When the places API answers the search with a 2xx status and
    at least one place, the location of the draft becomes the formatted
    address of the first place; the other places are ignored, no other
    attribute changes and no message is shown. *)
Theorem autofill_takes_first_place {Id} `{Identifier Id} (env : Env Id)
    (s : VenueForm.State Id) (apiKey : string) (place : Place)
    (others : list Place) :
  let fd := VenueForm.formData s in
  truthy_string (Draft.name fd) = true ->
  usable_key (VITE_GOOGLE_MAPS_API_KEY env) = Some apiKey ->
  searchText env apiKey (nullish (Draft.name fd) "")
  = Resolves (mkHttp true (Resolves (mkPlaces (Some (place :: others))))) ->
  run (VenueForm.handleAutoFillLocation env) s =
  (Ok tt,
   mkWorld
     (VenueForm.mkState (Draft.set_location fd (formattedAddress place))
        (VenueForm.loading s) false)
     [SearchText apiKey (nullish (Draft.name fd) "")]).
Proof.
  intros fd Hname Hkey Hsearch.
  unfold VenueForm.handleAutoFillLocation, VenueForm.setSearching,
    VenueForm.setFormData.
  unfold run, bind at 1. unfold get. cbn [state trace]. fold fd.
  rewrite Hname, Hkey. cbn [negb].
  run_monad. rewrite Hsearch. reflexivity.
Qed.

(** The auto-fill of the draft of stored venue 7 with a key. *)
Lemma autofill_takes_first_place_witness :
  Draft.location (VenueForm.formData (state (snd (run
    (VenueForm.handleAutoFillLocation
       (Sample.online (Some "key") DurationAbsent []))
    (VenueForm.mkState Sample.stored_draft false false)))))
  = Value "Castlehill, Edinburgh EH1 2NG".
Proof.
  rewrite (autofill_takes_first_place
             (Sample.online (Some "key") DurationAbsent [])
             (VenueForm.mkState Sample.stored_draft false false) "key"
             (mkPlace (Value "Castlehill, Edinburgh EH1 2NG")) []);
    reflexivity.
Defined.

End FormFacts.

(* ================================================================== *)
(** ** The venue form: the outcome of a save and the form's invariants *)
(* ================================================================== *)

Module SessionFacts.
Import JS DriveTimeFacts SaveFacts UploadFacts ImageFacts FormFacts.

Section WithIdentifier.
Context {Id : Type} `{Identifier Id}.
Variable env : Env Id.
Variable initialData : option (Draft.t Id).

(** The whole effect of a save, with its ending read off the answer of
    the store. *)
Lemma handleSubmit_ending (w : world Id (VenueForm.State Id)) :
  let fd := VenueForm.formData (state w) in
  let loc := nullish (Draft.location fd) "" in
  let driveTime0 := VenueForm.field_map Fin (Draft.drive_time_minutes fd) in
  let cond := recompute_condition initialData fd in
  let driveTime :=
    if cond then match drive_time_result env loc with
                 | Some t => Value t
                 | None => driveTime0
                 end
    else driveTime0 in
  let asked := if cond then drive_time_events env loc else [] in
  let row := mkData fd (nullish (Draft.active fd) true) driveTime in
  let write :=
    match VenueForm.update_key (Draft.id fd) with
    | Some i => UpdateVenue row i
    | None => InsertVenue row
    end in
  VenueForm.handleSubmit env initialData w =
  (Ok tt,
   mkWorld (VenueForm.mkState fd false (VenueForm.searching (state w)))
     (trace w ++ asked ++ [write] ++
      (if write_succeeds env write then [OnSave]
       else [ConsoleError "Error saving venue:";
             Alert "Error saving venue"]))).
Proof.
  intros fd loc driveTime0 cond driveTime asked row write.
  unfold VenueForm.handleSubmit, VenueForm.setLoading.
  unfold bind at 1 2. unfold get, modify. cbn [state trace].
  unfold try_finally, try_catch. unfold bind at 1.
  fold fd. fold driveTime0.
  change (truthy_string (Draft.location fd)
          && (negb (strict_eq (Draft.location fd)
                      (VenueForm.prop initialData Draft.location))
              || negb (truthy_id (Draft.id fd))))%bool with cond.
  fold loc.
  subst driveTime asked row write. unfold write_succeeds, write_response.
  destruct cond.
  - unfold bind at 1. rewrite calculateDriveTime_frame.
    destruct (drive_time_result env loc) as [t|];
      destruct (VenueForm.update_key (Draft.id fd)) as [i|]; run_monad;
      match goal with
      | |- context [venues_update ?e ?r ?i] =>
          destruct (venues_update e r i) as [?|[?|]]
      | |- context [venues_insert ?e ?r] =>
          destruct (venues_insert e r) as [?|[?|]]
      end; simpl; rewrite <- ?app_assoc; reflexivity.
  - destruct (VenueForm.update_key (Draft.id fd)) as [i|]; run_monad;
      match goal with
      | |- context [venues_update ?e ?r ?i] =>
          destruct (venues_update e r i) as [?|[?|]]
      | |- context [venues_insert ?e ?r] =>
          destruct (venues_insert e r) as [?|[?|]]
      end; simpl; rewrite <- ?app_assoc; reflexivity.
Qed.

Lemma drive_time_events_quiet (destination : string) :
  alerts (drive_time_events env destination) = [] /\
  Session.occurs_OnSave (drive_time_events env destination) = false.
Proof.
  unfold drive_time_events, VenueForm.calculateDriveTime.
  run_monad. break_match; split; reflexivity.
Qed.

End WithIdentifier.

Lemma occurs_OnSave_app {Id} (t1 t2 : list (event Id)) :
  Session.occurs_OnSave (t1 ++ t2)
  = (Session.occurs_OnSave t1 || Session.occurs_OnSave t2)%bool.
Proof. apply existsb_app. Qed.

(** X12.  A save never throws and never changes the draft; it clears the
    loading flag and makes one store write.  When the store accepts the
    write, [onSave] is called and no message is shown; when the request
    rejects or answers with an error, [onSave] is not called and the one
    message shown is "Error saving venue". *)
Theorem save_outcome {Id} `{Identifier Id} (env : Env Id)
    (initialData : option (Draft.t Id)) (s : VenueForm.State Id) :
  let out := run (VenueForm.handleSubmit env initialData) s in
  let tr := trace (snd out) in
  fst out = Ok tt /\
  state (snd out)
  = VenueForm.mkState (VenueForm.formData s) false (VenueForm.searching s) /\
  exists write,
    writes tr = [write] /\
    Session.occurs_OnSave tr = write_succeeds env write /\
    alerts tr = (if write_succeeds env write then []
                 else ["Error saving venue"]).
Proof.
  intros out tr. subst tr out. unfold run.
  rewrite handleSubmit_ending. cbn [fst snd state trace].
  split; [reflexivity|]. split; [reflexivity|].
  set (fd := VenueForm.formData s).
  set (loc := nullish (Draft.location fd) "").
  set (asked := if recompute_condition initialData fd
                then drive_time_events env loc else []).
  assert (Hasked : writes asked = [] /\ alerts asked = [] /\
                   Session.occurs_OnSave asked = false).
  { subst asked. destruct (recompute_condition initialData fd).
    - split; [apply drive_time_events_writes|apply drive_time_events_quiet].
    - repeat split. }
  destruct Hasked as (Hw & Ha & Ho).
  match goal with
  | |- context [write_succeeds env ?w] => set (write := w)
  end.
  exists write. rewrite app_nil_l.
  unfold writes in *. rewrite !filter_app, !alerts_app, !occurs_OnSave_app.
  rewrite Hw, Ha, Ho.
  assert (Hwrite : filter is_write [write] = [write] /\ alerts [write] = [] /\
                   Session.occurs_OnSave [write] = false).
  { subst write. destruct (VenueForm.update_key (Draft.id fd));
      repeat split. }
  destruct Hwrite as (-> & -> & ->).
  destruct (write_succeeds env write); repeat split.
Qed.

(** X13.  The heading of the form tells what a save will do: under
    "Edit Venue" the save updates the venue whose identifier the draft
    holds, under "Add Venue" it inserts. *)
Theorem heading_announces_the_write {Id} `{Identifier Id} (env : Env Id)
    (initialData : option (Draft.t Id)) (s : VenueForm.State Id) :
  let tr := trace (snd (run (VenueForm.handleSubmit env initialData) s)) in
  (VenueForm.heading s = "Edit Venue" \/ VenueForm.heading s = "Add Venue") /\
  (VenueForm.heading s = "Edit Venue" ->
   exists row i,
     Draft.id (VenueForm.formData s) = Value i /\
     writes tr = [UpdateVenue row i]) /\
  (VenueForm.heading s = "Add Venue" ->
   exists row, writes tr = [InsertVenue row]).
Proof.
  intros tr.
  destruct (save_writes env initialData s) as (row & Hw & _).
  fold tr in Hw. unfold VenueForm.heading.
  destruct (Draft.id (VenueForm.formData s)) as [| |i]; cbn in Hw |- *.
  - split; [now right|]. split; [discriminate|]. intros _. now exists row.
  - split; [now right|]. split; [discriminate|]. intros _. now exists row.
  - destruct (id_truthy i).
    + split; [now left|]. split; [|discriminate].
      intros _. now exists row, i.
    + split; [now right|]. split; [discriminate|]. intros _. now exists row.
Qed.

(** The heading theorem at the draft of stored venue 7 and at a new
    draft. *)
Lemma heading_announces_the_write_witness :
  (exists row i,
     Draft.id Sample.stored_draft = Value i /\
     writes (trace (snd (run
       (VenueForm.handleSubmit Sample.offline None)
       (VenueForm.mkState Sample.stored_draft false false))))
     = [UpdateVenue row i]) /\
  (exists row,
     writes (trace (snd (run
       (VenueForm.handleSubmit Sample.offline None)
       (VenueForm.mkState Sample.new_draft false false))))
     = [InsertVenue row]).
Proof.
  split.
  - apply (heading_announces_the_write Sample.offline None
             (VenueForm.mkState Sample.stored_draft false false)).
    reflexivity.
  - apply (heading_announces_the_write Sample.offline None
             (VenueForm.mkState Sample.new_draft false false)).
    reflexivity.
Defined.

Lemma strict_eq_refl (x : field string) : strict_eq x x = true.
Proof. destruct x; simpl; try reflexivity. apply String.eqb_refl. Qed.

(** X14.  Opening the form on a stored venue and saving at once.  When
    the venue's identifier is truthy, as the code tests it, the save is a
    plain update: no request goes to the directions API and the one write
    is an update under the venue's identifier whose row is the initial
    draft, with the stored drive time and with [active] true when the
    stored flag is null.  When the identifier is falsy (0, the empty
    string) the one write is an insert of the initial draft, and with a
    key and a non-empty location one request goes to the directions
    API. *)
Theorem unedited_save {Id} `{Identifier Id} (env : Env Id)
    (venue : Row.t Id) :
  let initialData := Some (Draft.of_row venue) in
  let s := VenueForm.initialState initialData in
  let tr := trace (snd (run (VenueForm.handleSubmit env initialData) s)) in
  (id_truthy (Row.id venue) = true ->
   directions_requests tr = [] /\
   writes tr =
   [UpdateVenue
      (mkData (VenueForm.initialFormData initialData)
         (match Row.active venue with Some b => b | None => true end)
         (match Row.drive_time_minutes venue with
          | Some m => Value (Fin m)
          | None => Null
          end))
      (Row.id venue)]) /\
  (id_truthy (Row.id venue) = false ->
   (exists row,
      writes tr = [InsertVenue row] /\
      base row = VenueForm.initialFormData initialData) /\
   directions_requests tr =
   match Row.location venue, usable_key (VITE_GOOGLE_MAPS_API_KEY env) with
   | Some location, Some apiKey =>
       if (location =? "")%string then []
       else [ComputeRoutes apiKey location]
   | _, _ => []
   end).
Proof.
  intros initialData s tr.
  assert (Hloc : Draft.location (VenueForm.formData s)
                 = Draft.of_option (Row.location venue)).
  { subst s initialData. cbn. now destruct (Row.location venue). }
  assert (Hcond : recompute_condition initialData (VenueForm.formData s)
                  = (truthy_string (Draft.of_option (Row.location venue))
                     && negb (id_truthy (Row.id venue)))%bool).
  { unfold recompute_condition. rewrite Hloc.
    assert (Hinit : VenueForm.prop initialData Draft.location
                    = Draft.of_option (Row.location venue)) by reflexivity.
    rewrite Hinit, strict_eq_refl. reflexivity. }
  pose proof (save_requests env initialData s) as Hreq. cbv zeta in Hreq.
  fold tr in Hreq. rewrite Hcond, Hloc in Hreq.
  destruct (save_writes env initialData s)
    as (row & Hw & Hbase & Hactive & Hdt).
  fold tr in Hw. rewrite Hcond in Hdt.
  assert (Hkey : VenueForm.update_key (Draft.id (VenueForm.formData s))
                 = if id_truthy (Row.id venue) then Some (Row.id venue)
                   else None) by reflexivity.
  rewrite Hkey in Hw.
  split; intros Hid; rewrite Hid in *.
  - rewrite andb_false_r in *. split; [exact Hreq|].
    rewrite Hw. f_equal. f_equal.
    destruct row as [rb ra rd]. cbn [base save_active
                                     save_drive_time_minutes] in *.
    subst rb ra rd. subst s initialData. cbn.
    destruct (Row.active venue), (Row.drive_time_minutes venue); reflexivity.
  - split; [exists row; split; [exact Hw|exact Hbase]|].
    rewrite Hreq.
    destruct (Row.location venue) as [location|]; [|reflexivity].
    cbn. destruct (location =? "")%string; cbn;
      destruct (usable_key (VITE_GOOGLE_MAPS_API_KEY env)); reflexivity.
Qed.

(** The form opened on stored venue 7 and saved at once, and the same
    with the venue stored under the identifier 0. *)
Lemma unedited_save_witness :
  directions_requests (trace (snd (run
    (VenueForm.handleSubmit (Sample.online (Some "key") DurationAbsent [])
       (Some (Draft.of_row Sample.stored)))
    (VenueForm.initialState (Some (Draft.of_row Sample.stored))))))
  = [] /\
  directions_requests (trace (snd (run
    (VenueForm.handleSubmit (Sample.online (Some "key") DurationAbsent [])
       (Some (Draft.of_row Sample.stored_zero)))
    (VenueForm.initialState (Some (Draft.of_row Sample.stored_zero))))))
  = [ComputeRoutes "key" "Edinburgh Castle"].
Proof.
  split.
  - apply (unedited_save
             (Sample.online (Some "key") DurationAbsent []) Sample.stored).
    reflexivity.
  - apply (unedited_save
             (Sample.online (Some "key") DurationAbsent [])
             Sample.stored_zero).
    reflexivity.
Defined.

(** *** What the operations of the monad keep *)
Section Preserves.
Context {Id St : Type} (P : St -> Prop).

Lemma preserves_ret {A} (a : A) : preserves (Id := Id) P (ret a).
Proof. intros w Hw. exact Hw. Qed.

Lemma preserves_throw {A} (e : error) :
  preserves (Id := Id) (A := A) P (throw e).
Proof. intros w Hw. exact Hw. Qed.

Lemma preserves_emit (ev : event Id) : preserves P (emit ev).
Proof. intros w Hw. exact Hw. Qed.

Lemma preserves_get : preserves (Id := Id) P get.
Proof. intros w Hw. exact Hw. Qed.

Lemma preserves_await {A} (r : response A) :
  preserves (Id := Id) P (await r).
Proof. intros w Hw. destruct r; exact Hw. Qed.

Lemma preserves_modify (f : St -> St) :
  (forall s, P s -> P (f s)) -> preserves (Id := Id) P (modify f).
Proof. intros Hf w Hw. exact (Hf _ Hw). Qed.

Lemma preserves_bind {A B} (c : M Id St A) (k : A -> M Id St B) :
  preserves P c -> (forall a, preserves P (k a)) -> preserves P (bind c k).
Proof.
  intros Hc Hk w Hw. specialize (Hc w Hw). unfold bind.
  destruct (c w) as [[a|e] w']; cbn [snd] in *; [now apply Hk|exact Hc].
Qed.

Lemma preserves_try_catch {A} (c : M Id St A) (h : error -> M Id St A) :
  preserves P c -> (forall e, preserves P (h e)) ->
  preserves P (try_catch c h).
Proof.
  intros Hc Hh w Hw. specialize (Hc w Hw). unfold try_catch.
  destruct (c w) as [[a|e] w']; cbn [snd] in *; [exact Hc|now apply Hh].
Qed.

Lemma preserves_try_finally {A} (c : M Id St A) (f : M Id St unit) :
  preserves P c -> preserves P f -> preserves P (try_finally c f).
Proof.
  intros Hc Hf w Hw. specialize (Hc w Hw). unfold try_finally.
  destruct (c w) as [r w']. cbn [snd] in Hc. specialize (Hf w' Hc).
  destruct (f w') as [[u|e] w'']; exact Hf.
Qed.

End Preserves.

Section FormPreserves.
Context {Id : Type} `{Identifier Id}.
Variable env : Env Id.

Lemma preserves_uploadEach {St} (P : St -> Prop) (files : list File) :
  forall n acc, preserves P (VenueForm.uploadEach env n files acc).
Proof.
  induction files as [|file rest IH]; intros n acc; cbn [VenueForm.uploadEach].
  - apply preserves_ret.
  - apply preserves_bind; [apply preserves_emit|intros _].
    apply preserves_bind; [apply preserves_await|intros [[e|] url]].
    + apply preserves_throw.
    + apply IH.
Qed.

Lemma preserves_calculateDriveTime {St} (P : St -> Prop)
    (destination : string) :
  preserves P (VenueForm.calculateDriveTime env destination).
Proof.
  intros w Hw. now rewrite calculateDriveTime_frame.
Qed.

Lemma uploadImages_begin_keeps (i : field Id) (d : field Z) (files : list File) :
  preserves (identity i d) (VenueForm.uploadImages_begin files).
Proof.
  intros w Hw. unfold VenueForm.uploadImages_begin, VenueForm.setLoading.
  run_monad. break_match; exact Hw.
Qed.

Lemma uploadImages_end_keeps (i : field Id) (d : field Z) (filesToUpload : list File) :
  preserves (identity i d) (VenueForm.uploadImages_end env filesToUpload).
Proof.
  unfold VenueForm.uploadImages_end, VenueForm.setFormData,
    VenueForm.setLoading.
  apply preserves_try_finally; [|apply preserves_modify; intros s Hs; exact Hs].
  apply preserves_try_catch.
  - apply preserves_bind; [apply preserves_uploadEach|intros urls].
    apply preserves_modify. intros s Hs. exact Hs.
  - intros e. apply preserves_bind; intros; apply preserves_emit.
Qed.

Lemma handleBrochureUpload_begin_keeps (i : field Id) (d : field Z) (files : option (list File)) :
  preserves (identity i d) (VenueForm.handleBrochureUpload_begin files).
Proof.
  intros w Hw. destruct files as [[|file rest]|]; exact Hw.
Qed.

Lemma handleBrochureUpload_end_keeps (i : field Id) (d : field Z) (file : File) :
  preserves (identity i d) (VenueForm.handleBrochureUpload_end env file).
Proof.
  unfold VenueForm.handleBrochureUpload_end, VenueForm.setFormData,
    VenueForm.setLoading.
  apply preserves_try_finally; [|apply preserves_modify; intros s Hs; exact Hs].
  apply preserves_try_catch.
  - apply preserves_bind; [apply preserves_emit|intros _].
    apply preserves_bind; [apply preserves_await|intros [[e|] url]].
    + apply preserves_throw.
    + apply preserves_modify. intros s Hs. exact Hs.
  - intros e. apply preserves_bind; intros; apply preserves_emit.
Qed.

Lemma handleAutoFillLocation_begin_keeps (i : field Id) (d : field Z) :
  preserves (identity i d) (VenueForm.handleAutoFillLocation_begin env).
Proof.
  intros w Hw.
  unfold VenueForm.handleAutoFillLocation_begin, VenueForm.setSearching.
  run_monad. break_match; exact Hw.
Qed.

Lemma handleAutoFillLocation_end_keeps (i : field Id) (d : field Z) (apiKey textQuery : string) :
  preserves (identity i d)
    (VenueForm.handleAutoFillLocation_end env apiKey textQuery).
Proof.
  unfold VenueForm.handleAutoFillLocation_end, VenueForm.setFormData,
    VenueForm.setSearching.
  apply preserves_try_finally; [|apply preserves_modify; intros s Hs; exact Hs].
  apply preserves_try_catch.
  - apply preserves_bind; [apply preserves_emit|intros _].
    apply preserves_bind; [apply preserves_await|intros response].
    destruct (negb (ok response)); [apply preserves_throw|].
    apply preserves_bind; [apply preserves_await|intros searchData].
    destruct (places searchData) as [[|place rest]|];
      try apply preserves_emit.
    apply preserves_modify. intros s Hs. exact Hs.
  - intros e. apply preserves_bind; intros; apply preserves_emit.
Qed.

Lemma handleSubmit_begin_keeps (i : field Id) (d : field Z) :
  preserves (identity i d) (VenueForm.handleSubmit_begin (Id := Id)).
Proof. intros w Hw. exact Hw. Qed.

Lemma handleSubmit_end_keeps (i : field Id) (d : field Z) (initialData : option (Draft.t Id))
    (formData : Draft.t Id) :
  preserves (identity i d)
    (VenueForm.handleSubmit_end env initialData formData).
Proof.
  unfold VenueForm.handleSubmit_end, VenueForm.setLoading.
  apply preserves_try_finally; [|apply preserves_modify; intros s Hs; exact Hs].
  apply preserves_try_catch.
  - apply preserves_bind.
    { destruct (truthy_string (Draft.location formData) && _)%bool;
        [|apply preserves_ret].
      apply preserves_bind; [apply preserves_calculateDriveTime|].
      intros [t|]; apply preserves_ret. }
    intros driveTime.
    apply preserves_bind; [|intros _; apply preserves_emit].
    destruct (VenueForm.update_key (Draft.id formData)) as [key|];
      (apply preserves_bind; [apply preserves_emit|intros _];
       apply preserves_bind; [apply preserves_await|intros [e|]];
       [apply preserves_throw|apply preserves_ret]).
  - intros e. apply preserves_bind; intros; apply preserves_emit.
Qed.

End FormPreserves.

(** No event of the form changes the identifier or the drive time of the
    draft. *)
Lemma step_keeps {Id} `{Identifier Id} (initialData : option (Draft.t Id))
    (s s' : VenueForm.State Id) :
  VenueForm.step initialData s s' ->
  Draft.id (VenueForm.formData s') = Draft.id (VenueForm.formData s) /\
  Draft.drive_time_minutes (VenueForm.formData s')
  = Draft.drive_time_minutes (VenueForm.formData s).
Proof.
  intros Hstep.
  assert (Hs : identity (Draft.id (VenueForm.formData s))
                 (Draft.drive_time_minutes (VenueForm.formData s)) s)
    by (split; reflexivity).
  destruct Hstep; unfold run.
  - cbn. destruct name; cbn; auto.
  - cbn. auto.
  - cbn. auto.
  - cbn. auto.
  - auto.
  - cbn. auto.
  - exact (uploadImages_begin_keeps _ _ files (mkWorld s []) Hs).
  - exact (uploadImages_end_keeps env _ _ filesToUpload (mkWorld s []) Hs).
  - exact (handleBrochureUpload_begin_keeps _ _ files (mkWorld s []) Hs).
  - exact (handleBrochureUpload_end_keeps env _ _ file (mkWorld s []) Hs).
  - exact (handleAutoFillLocation_begin_keeps env _ _ (mkWorld s []) Hs).
  - exact (handleAutoFillLocation_end_keeps env _ _ apiKey textQuery
             (mkWorld s []) Hs).
  - exact (handleSubmit_begin_keeps _ _ (mkWorld s []) Hs).
  - exact (handleSubmit_end_keeps env _ _ initialData formData
             (mkWorld s []) Hs).
Qed.

(** X15.  However the form that the list controller opens is used, and
    however its uploads, its auto-fill and its saves overlap, the draft
    keeps the identifier and the drive time of the venue it was opened on
    (none and null for a new venue): no input, upload, removal,
    reordering, brochure, auto-fill or save changes them. *)
Theorem form_keeps_identity {Id} `{Identifier Id}
    (venue : option (Row.t Id)) (s : VenueForm.State Id) :
  VenueForm.reachable (option_map Draft.of_row venue) s ->
  Draft.id (VenueForm.formData s)
  = match venue with
    | Some v => Value (Row.id v)
    | None => Undefined
    end /\
  Draft.drive_time_minutes (VenueForm.formData s)
  = match venue with
    | Some v => Draft.of_option (Row.drive_time_minutes v)
    | None => Null
    end.
Proof.
  induction 1 as [|s s' _ (IHid & IHdt) Hstep].
  - destruct venue as [v|]; [|split; reflexivity].
    split; [reflexivity|]. cbn.
    now destruct (Row.drive_time_minutes v).
  - destruct (step_keeps _ s s' Hstep) as (Hid & Hdt).
    rewrite Hid, Hdt. auto.
Qed.

(** The form opened on stored venue 7, after a paste of a photo has
    started and an image has been removed while it uploads. *)
Lemma form_keeps_identity_witness :
  Draft.id (VenueForm.formData
    (state (snd (run (VenueForm.removeImage 0)
       (state (snd (run (VenueForm.uploadImages_begin [Sample.photo "a.jpg"])
                      (VenueForm.initialState
                         (Some (Draft.of_row Sample.stored))))))))))
  = Value 7%Z.
Proof.
  apply (form_keeps_identity (Some Sample.stored)).
  eapply VenueForm.reach_step; [|apply VenueForm.step_remove].
  eapply VenueForm.reach_step; [|apply VenueForm.step_upload_begin].
  apply VenueForm.reach_init.
Defined.

(** X16.  What kind of write a save makes is settled when the list
    controller opens the form: whatever is done in the form before, a
    save started from it updates the venue the form was opened on when
    that venue's identifier is truthy, as the code tests it, and inserts a
    new row when the form was opened for a new venue or on a venue whose
    identifier is falsy (0, the empty string). *)
Theorem save_kind_fixed_at_opening {Id} `{Identifier Id} (env : Env Id)
    (venue : option (Row.t Id)) (s : VenueForm.State Id) :
  VenueForm.reachable (option_map Draft.of_row venue) s ->
  exists row,
    writes (trace (snd (run
      (VenueForm.handleSubmit env (option_map Draft.of_row venue)) s)))
    = [match venue with
       | Some v => if id_truthy (Row.id v) then UpdateVenue row (Row.id v)
                   else InsertVenue row
       | None => InsertVenue row
       end].
Proof.
  intros Hreach.
  assert (Hid : Draft.id (VenueForm.formData s)
                = VenueForm.prop (option_map Draft.of_row venue) Draft.id).
  { induction Hreach as [|s s' _ IH Hstep]; [reflexivity|].
    destruct (step_keeps _ s s' Hstep) as (-> & _). exact IH. }
  destruct (save_writes env (option_map Draft.of_row venue) s)
    as (row & Hw & _).
  exists row. rewrite Hw, Hid.
  destruct venue as [v|]; [|reflexivity].
  cbn. now destruct (id_truthy (Row.id v)).
Qed.

(** The form opened for a new venue, saved after a name is typed. *)
Lemma save_kind_fixed_at_opening_witness :
  exists row,
    writes (trace (snd (run
      (VenueForm.handleSubmit Sample.offline None)
      (state (snd (run (VenueForm.handleChange Draft.input_name "Castle")
                     (VenueForm.initialState (Id := Z) None)))))))
    = [InsertVenue row].
Proof.
  apply (save_kind_fixed_at_opening Sample.offline None).
  eapply VenueForm.reach_step; [apply VenueForm.reach_init|].
  apply VenueForm.step_change.
Defined.

End SessionFacts.

(* ================================================================== *)
(** ** The list controller: fetching, views and the screen *)
(* ================================================================== *)

Module ListFacts.
Import JS JSFacts AppFacts.

(** The whole effect of a fetch, in one equation. *)
Lemma fetchVenues_run {Id} (env : Env Id) (w : world Id (App.State Id)) :
  App.fetchVenues env w =
  (Ok tt,
   mkWorld
     (App.mkState
        (match venues_select env with
         | Resolves (Some d, None) => d
         | Resolves (None, None) => []
         | _ => App.venues (state w)
         end)
        false (App.view (state w)) (App.editingVenue (state w))
        (App.sortOption (state w)))
     (trace w ++
      SelectVenues ::
      (if select_fails env then [ConsoleError "Error fetching venues:"]
       else []))).
Proof.
  unfold select_fails, App.fetchVenues, App.setLoading, App.setVenues.
  run_monad.
  destruct (venues_select env) as [e|[[d|] [e|]]]; simpl;
    rewrite <- ?app_assoc; reflexivity.
Qed.

Lemma handleSave_run {Id} (env : Env Id) (w : world Id (App.State Id)) :
  App.handleSave env w =
  (Ok tt,
   mkWorld
     (App.mkState
        (match venues_select env with
         | Resolves (Some d, None) => d
         | Resolves (None, None) => []
         | _ => App.venues (state w)
         end)
        false App.view_list None (App.sortOption (state w)))
     (trace w ++
      SelectVenues ::
      (if select_fails env then [ConsoleError "Error fetching venues:"]
       else []))).
Proof.
  unfold App.handleSave. unfold bind at 1. rewrite fetchVenues_run.
  reflexivity.
Qed.

Lemma sort_sorted_id {A} (key : A -> number) (l : list A) :
  (forall a, is_nan (key a) = false) ->
  StronglySorted (key_le key) l -> sort (by_key key) l = l.
Proof.
  intros Hkey. induction 1 as [|x r Hr IH Hx]; [reflexivity|].
  cbn [sort fold_right]. fold (sort (by_key key) r). rewrite IH.
  destruct r as [|y r']; [reflexivity|].
  cbn [insert]. unfold by_key at 1. rewrite gt0_sub by apply Hkey.
  apply Forall_inv in Hx. unfold key_le, leb in Hx.
  apply negb_true_iff in Hx. now rewrite Hx.
Qed.

(** X17.  In the list view a finished fetch never leaves the spinner on
    screen.  After a successful select the screen shows the cards of the
    rows received, sorted by the current key, or "No venues yet" when the
    store sent no rows or null.  After a failed select it shows the cards
    of the venues that were in memory, and "No venues yet" when there were
    none, as on a first load. *)
Theorem fetch_screen {Id} (localeCompare : string -> string -> number)
    (env : Env Id) (s : App.State Id) :
  App.view s = App.view_list ->
  let s' := state (snd (run (App.fetchVenues env) s)) in
  App.render localeCompare s' <> App.Spinner /\
  (forall data,
     venues_select env = Resolves (data, None) ->
     App.render localeCompare s' =
     match data with
     | Some (v :: r) =>
         App.Cards (App.sortedVenues localeCompare (App.sortOption s) (v :: r))
     | _ => App.NoVenuesYet
     end) /\
  (select_fails env = true ->
   App.render localeCompare s' =
   match App.venues s with
   | [] => App.NoVenuesYet
   | l => App.Cards (App.sortedVenues localeCompare (App.sortOption s) l)
   end).
Proof.
  intros Hview s'. subst s'. unfold run. rewrite fetchVenues_run.
  cbn [snd state]. unfold App.render, select_fails.
  cbn [App.view App.loading App.venues App.sortOption]. rewrite Hview.
  split.
  { match goal with
    | |- (if ?b then _ else _) <> _ => destruct b; discriminate
    end. }
  split.
  - intros data ->. destruct data as [[|v r]|]; reflexivity.
  - destruct (venues_select env) as [e|[[d|] [e|]]]; try discriminate;
      intros _; destruct (App.venues s); reflexivity.
Qed.

(** The screen after the first fetch when the store is out of reach. *)
Lemma fetch_screen_witness :
  App.render Sample.ordinalCompare
    (state (snd (run (App.fetchVenues Sample.offline) App.initialState)))
  = App.NoVenuesYet.
Proof.
  pose proof (fetch_screen Sample.ordinalCompare Sample.offline
                App.initialState eq_refl) as Hthm.
  cbv zeta in Hthm. destruct Hthm as (_ & _ & Hfail).
  exact (Hfail eq_refl).
Defined.

Lemma step_view {Id} (s s' : App.State Id) :
  App.step s s' ->
  match App.view s with
  | App.view_edit => exists v, App.editingVenue s = Some v
  | _ => App.editingVenue s = None
  end ->
  match App.view s' with
  | App.view_edit => exists v, App.editingVenue s' = Some v
  | _ => App.editingVenue s' = None
  end.
Proof.
  intros Hstep Hinv. destruct Hstep.
  - unfold run. rewrite fetchVenues_run. exact Hinv.
  - cbn. now exists venue.
  - reflexivity.
  - unfold run. rewrite handleSave_run. reflexivity.
  - reflexivity.
  - exact Hinv.
Qed.

(** X18.  Whatever the user does and whatever the store answers, the
    venue being edited is set exactly in the edit view.  So the form is
    rendered with a venue when it was opened by an edit button and without
    one when it was opened by "Add Venue", also after an earlier edit. *)
Theorem form_data_matches_view {Id}
    (localeCompare : string -> string -> number) (s : App.State Id) :
  App.reachable s ->
  (App.view s = App.view_edit <-> App.editingVenue s <> None) /\
  (forall initialData,
     App.render localeCompare s = App.Form initialData ->
     (initialData = None <-> App.view s = App.view_create)).
Proof.
  intros Hreach.
  assert (Hinv : match App.view s with
                 | App.view_edit => exists v, App.editingVenue s = Some v
                 | _ => App.editingVenue s = None
                 end).
  { induction Hreach as [|s s' _ IH Hstep]; [reflexivity|].
    exact (step_view s s' Hstep IH). }
  unfold App.render.
  destruct (App.view s); split.
  - split; [discriminate|]. intros Hne. now destruct Hne.
  - intros d. destruct (App.loading s); [discriminate|].
    destruct (List.length (App.venues s) =? 0)%nat; discriminate.
  - split; [discriminate|]. intros Hne. now destruct Hne.
  - intros d [= <-]. split; [reflexivity|]. now intros _.
  - split; [|reflexivity]. intros _. destruct Hinv as (v & ->). discriminate.
  - intros d [= <-]. destruct Hinv as (v & ->).
    split; discriminate.
Qed.

(** "Add Venue" after an edit of venue A was cancelled. *)
Lemma form_data_matches_view_witness :
  App.view
    (state (snd (run App.handleCreate
       (state (snd (run App.handleCancel
          (state (snd (run (App.handleEdit Sample.vA)
                         App.initialState)))))))))
  = App.view_create.
Proof.
  pose proof (form_data_matches_view Sample.ordinalCompare
    (state (snd (run App.handleCreate
       (state (snd (run App.handleCancel
          (state (snd (run (App.handleEdit Sample.vA)
                         App.initialState)))))))))) as Hthm.
  assert (Hreach : App.reachable
    (state (snd (run App.handleCreate
       (state (snd (run App.handleCancel
          (state (snd (run (App.handleEdit Sample.vA)
                         (@App.initialState Z))))))))))).
  { eapply App.reach_step; [|apply App.step_create].
    eapply App.reach_step; [|apply App.step_cancel].
    eapply App.reach_step; [|apply App.step_edit].
    apply App.reach_init. }
  destruct (Hthm Hreach) as (_ & Hform).
  destruct (Hform None eq_refl) as (Hcreate & _).
  exact (Hcreate eq_refl).
Defined.

(** X19.  The cards on screen are the venues in memory, each once, in
    some order: no sort key and no answer of the host's string comparison
    drops or repeats a venue.  Cards are shown only in the list view, when
    nothing is loading and there is at least one venue. *)
Theorem cards_are_the_venues {Id}
    (localeCompare : string -> string -> number) (s : App.State Id)
    (cards : list (Row.t Id)) :
  App.render localeCompare s = App.Cards cards ->
  Permutation cards (App.venues s) /\
  cards <> [] /\
  App.view s = App.view_list /\ App.loading s = false.
Proof.
  unfold App.render.
  destruct (App.view s); try discriminate.
  destruct (App.loading s); try discriminate.
  destruct (App.venues s) as [|v r] eqn:Hv; [discriminate|].
  cbn [List.length Nat.eqb]. intros Heq.
  assert (Hperm : Permutation cards (v :: r)).
  { injection Heq as Hc. rewrite <- Hc.
    exact (sort_perm
             (App.compareVenues localeCompare (App.sortOption s)) (v :: r)). }
  repeat split; [exact Hperm|].
  intros ->. apply Permutation_nil in Hperm. discriminate.
Qed.

(** The cards of the list controller after a first fetch of two venues. *)
Lemma cards_are_the_venues_witness :
  Permutation
    (App.sortedVenues Sample.ordinalCompare App.alphabetic
       [Sample.vC; Sample.vA])
    [Sample.vC; Sample.vA].
Proof.
  apply (cards_are_the_venues Sample.ordinalCompare Sample.loaded).
  reflexivity.
Defined.

(** X20.  Venues that arrive already in ascending order of the sort key
    are shown in the order they arrived, for the distance key and for the
    Saturday price key. *)
Theorem ordered_venues_keep_their_order {Id}
    (localeCompare : string -> string -> number) (venues : list (Row.t Id)) :
  (StronglySorted (key_le App.dist) venues ->
   App.sortedVenues localeCompare App.distance venues = venues) /\
  (StronglySorted
     (key_le (fun v => App.getPrice (Row.price_saturday v))) venues ->
   App.sortedVenues localeCompare App.price_saturday venues = venues).
Proof.
  unfold App.sortedVenues. rewrite compare_distance, compare_price.
  split; intros Hsorted.
  - apply sort_sorted_id; [apply dist_not_nan|exact Hsorted].
  - apply sort_sorted_id; [|exact Hsorted].
    intros a. apply getPrice_not_nan.
Qed.

(** The venues C:10, A:30, B:null arrive in ascending distance. *)
Lemma ordered_venues_keep_their_order_witness :
  App.sortedVenues Sample.ordinalCompare App.distance
    [Sample.vC; Sample.vA; Sample.vB] = [Sample.vC; Sample.vA; Sample.vB].
Proof.
  apply (ordered_venues_keep_their_order Sample.ordinalCompare
           [Sample.vC; Sample.vA; Sample.vB]).
  repeat constructor.
Defined.

End ListFacts.

(* ================================================================== *)
(** ** The form inside the list controller *)
(* ================================================================== *)

Module FlowFacts.
Import JS DriveTimeFacts SaveFacts UploadFacts SessionFacts ListFacts.

Lemma selects_app {Id} (a b : list (event Id)) :
  selects (a ++ b) = selects a ++ selects b.
Proof. apply filter_app. Qed.

Lemma drive_time_events_selects {Id} `{Identifier Id} (env : Env Id)
    (destination : string) :
  selects (drive_time_events env destination) = [].
Proof.
  unfold drive_time_events, VenueForm.calculateDriveTime.
  run_monad. break_match; reflexivity.
Qed.

(** X21.  A submit of the form shown by the list controller makes one
    store write and leaves the draft as it is.  When the write succeeds
    the controller refetches the venues once, after the write, and goes
    back to the list view with no venue being edited and the sort key
    kept; no message is shown.  When the write fails the controller is
    left exactly as it was, so the form stays open with its draft, nothing
    is refetched and the one message shown is "Error saving venue". *)
Theorem submit_outcome {Id} `{Identifier Id} (env : Env Id)
    (app : App.State Id) (form : VenueForm.State Id) :
  let result := Session.submit env app form in
  let app' := fst (fst result) in
  let form' := snd (fst result) in
  let tr := snd result in
  VenueForm.formData form' = VenueForm.formData form /\
  VenueForm.loading form' = false /\
  exists before write after,
    tr = before ++ write :: after /\
    writes before = [] /\ selects before = [] /\
    writes [write] = [write] /\ writes after = [] /\
    (write_succeeds env write = true ->
     selects after = [SelectVenues] /\
     alerts tr = [] /\
     App.view app' = App.view_list /\
     App.editingVenue app' = None /\
     App.loading app' = false /\
     App.sortOption app' = App.sortOption app) /\
    (write_succeeds env write = false ->
     selects after = [] /\
     alerts tr = ["Error saving venue"] /\
     app' = app).
Proof.
  intros result app' form' tr. subst tr form' app' result.
  unfold Session.submit, run.
  rewrite handleSubmit_ending, handleSave_run. cbn [snd state trace].
  rewrite !app_nil_l.
  set (fd := VenueForm.formData form).
  set (loc := nullish (Draft.location fd) "").
  set (asked := if recompute_condition (Session.initialData app) fd
                then drive_time_events env loc else []).
  assert (Hasked : writes asked = [] /\ alerts asked = [] /\
                   Session.occurs_OnSave asked = false /\
                   selects asked = []).
  { subst asked. destruct (recompute_condition (Session.initialData app) fd).
    - split; [apply drive_time_events_writes|].
      destruct (drive_time_events_quiet env loc) as (Ha & Ho).
      split; [exact Ha|]. split; [exact Ho|].
      apply drive_time_events_selects.
    - repeat split. }
  destruct Hasked as (Hw & Ha & Ho & Hs).
  match goal with
  | |- context [write_succeeds env ?w] => set (write := w)
  end.
  assert (Hwrite : writes [write] = [write] /\ alerts [write] = [] /\
                   Session.occurs_OnSave [write] = false).
  { subst write. destruct (VenueForm.update_key (Draft.id fd));
      repeat split. }
  destruct Hwrite as (Hww & Hwa & Hwo).
  rewrite !occurs_OnSave_app, Ho, Hwo.
  destruct (write_succeeds env write) eqn:Hok; cbn [Session.occurs_OnSave
    existsb orb fst snd VenueForm.formData VenueForm.loading].
  - split; [reflexivity|]. split; [reflexivity|].
    eexists asked, write, _. split.
    { rewrite <- !app_assoc. cbn [List.app]. reflexivity. }
    split; [exact Hw|]. split; [exact Hs|]. split; [exact Hww|].
    split.
    { destruct (select_fails env); reflexivity. }
    split; [|intros Hno; congruence].
    intros _. split.
    { destruct (select_fails env); reflexivity. }
    split.
    { rewrite !alerts_app, Ha, Hwa.
      destruct (select_fails env); reflexivity. }
    repeat split.
  - split; [reflexivity|]. split; [reflexivity|].
    eexists asked, write, _. split; [reflexivity|].
    split; [exact Hw|]. split; [exact Hs|]. split; [exact Hww|].
    split; [reflexivity|].
    split; [intros Hyes; congruence|].
    intros _. split; [reflexivity|]. split; [|reflexivity].
    rewrite !alerts_app, Ha, Hwa. reflexivity.
Qed.

(** A submit of a new draft while the store is out of reach: the
    controller stays as it was. *)
Lemma submit_outcome_witness :
  fst (fst (Session.submit Sample.offline App.initialState
              (VenueForm.mkState Sample.new_draft false false)))
  = App.initialState.
Proof.
  pose proof (submit_outcome Sample.offline App.initialState
                (VenueForm.mkState Sample.new_draft false false)) as Hthm.
  cbv zeta in Hthm.
  destruct Hthm as (_ & _ & before & write & after & _ & _ & _ & _ & _ & _
                    & Hfail).
  assert (Hno : write_succeeds Sample.offline write = false)
    by (destruct write; reflexivity).
  destruct (Hfail Hno) as (_ & _ & Happ). exact Happ.
Defined.

End FlowFacts.

(* ================================================================== *)
(** ** The venue card: images, prices and the map *)
(* ================================================================== *)

Module CardStateFacts.
Import JS.

Lemma truthy_url_some (url : option string) (u : string) :
  VenueCard.truthy_url url = Some u -> url = Some u /\ u <> ""%string.
Proof.
  destruct url as [v|]; simpl; [|discriminate].
  destruct (String.eqb_spec v ""); [discriminate|].
  intros [= <-]. now split.
Qed.

(** The hovered and the selected image of a card are images of its venue. *)
Lemma card_invariant {Id} (venue : Row.t Id) (s : VenueCard.State) :
  VenueCard.reachable venue s ->
  (forall u, VenueCard.hoveredImage s = Some u ->
     u <> ""%string /\
     exists k, (1 <= k < 4)%nat /\
               nth_error (VenueCard.images venue) k = Some u) /\
  (forall u, VenueCard.selectedImage s = Some u ->
     VenueCard.isImageOpen s = true /\ u <> ""%string /\
     exists k, (k < 4)%nat /\ nth_error (VenueCard.images venue) k = Some u).
Proof.
  induction 1 as [|s s' _ (IHh & IHs) Hstep].
  - split; intros u; discriminate.
  - assert (Hsmall : forall offset u,
              (offset < 3)%nat ->
              VenueCard.truthy_url (VenueCard.smallImage venue offset) = Some u ->
              u <> ""%string /\
              exists k, (1 <= k < 4)%nat /\
                        nth_error (VenueCard.images venue) k = Some u).
    { intros offset u Hlt Hu. apply truthy_url_some in Hu as (Hu & Hne).
      split; [exact Hne|]. exists (offset + 1)%nat. split; [lia|exact Hu]. }
    assert (Hdisplay : forall u,
              VenueCard.displayImage venue s = Some u ->
              u <> ""%string /\
              exists k, (k < 4)%nat /\
                        nth_error (VenueCard.images venue) k = Some u).
    { intros u. unfold VenueCard.displayImage.
      destruct (VenueCard.truthy_url (VenueCard.hoveredImage s)) as [h|] eqn:Eh.
      - intros [= <-]. apply truthy_url_some in Eh as (Eh & Hne).
        destruct (IHh h Eh) as (_ & k & Hk & Hnth).
        split; [exact Hne|]. exists k. split; [lia|exact Hnth].
      - unfold VenueCard.heroImage. intros Hu.
        apply truthy_url_some in Hu as (Hu & Hne).
        split; [exact Hne|]. exists 0%nat. split; [lia|exact Hu]. }
    destruct Hstep.
    + unfold VenueCard.enterSmallImage.
      destruct (VenueCard.truthy_url (VenueCard.smallImage venue offset))
        as [h|] eqn:Eh; [|now split].
      split; [|exact IHs].
      intros u [= <-]. exact (Hsmall offset h H Eh).
    + split; [discriminate|exact IHs].
    + unfold VenueCard.openImageModal.
      destruct (VenueCard.truthy_url (VenueCard.displayImage venue s))
        as [h|] eqn:Eh; [|now split].
      split; [exact IHh|].
      intros u [= <-]. apply truthy_url_some in Eh as (Eh & _).
      destruct (Hdisplay h Eh) as (Hne & k & Hk & Hnth).
      split; [reflexivity|]. split; [exact Hne|]. now exists k.
    + unfold VenueCard.openImageModal.
      destruct (VenueCard.truthy_url (VenueCard.smallImage venue offset))
        as [h|] eqn:Eh; [|now split].
      split; [exact IHh|].
      intros u [= <-].
      destruct (Hsmall offset h H Eh) as (Hne & k & Hk & Hnth).
      split; [reflexivity|]. split; [exact Hne|].
      exists k. split; [lia|exact Hnth].
    + unfold VenueCard.closeImageModal. destruct open; cbn.
      * split; [exact IHh|]. intros u Hu.
        destruct (IHs u Hu) as (_ & Hrest). split; [reflexivity|exact Hrest].
      * split; [exact IHh|discriminate].
    + split; [exact IHh|exact IHs].
    + split; [exact IHh|exact IHs].
Qed.

(** X22.  Whatever the pointer, the focus and the clicks do on a card,
    the image it displays and the image in its dialog are non-empty URLs
    among the first four images of its venue, and an image is selected
    only while the dialog is open.  A card of a venue without images
    displays none and never selects one. *)
Theorem card_shows_venue_images {Id} (venue : Row.t Id)
    (s : VenueCard.State) :
  VenueCard.reachable venue s ->
  (forall u, VenueCard.displayImage venue s = Some u ->
     u <> ""%string /\
     exists k, (k < 4)%nat /\ nth_error (VenueCard.images venue) k = Some u) /\
  (forall u, VenueCard.selectedImage s = Some u ->
     VenueCard.isImageOpen s = true /\ u <> ""%string /\
     exists k, (k < 4)%nat /\ nth_error (VenueCard.images venue) k = Some u) /\
  (VenueCard.images venue = [] ->
   VenueCard.displayImage venue s = None /\ VenueCard.selectedImage s = None).
Proof.
  intros Hreach. destruct (card_invariant venue s Hreach) as (Hh & Hs).
  assert (Hdisplay : forall u,
            VenueCard.displayImage venue s = Some u ->
            u <> ""%string /\
            exists k, (k < 4)%nat /\
                      nth_error (VenueCard.images venue) k = Some u).
  { intros u. unfold VenueCard.displayImage.
    destruct (VenueCard.truthy_url (VenueCard.hoveredImage s)) as [h|] eqn:Eh.
    - intros [= <-]. apply truthy_url_some in Eh as (Eh & Hne).
      destruct (Hh h Eh) as (_ & k & Hk & Hnth).
      split; [exact Hne|]. exists k. split; [lia|exact Hnth].
    - unfold VenueCard.heroImage. intros Hu.
      apply truthy_url_some in Hu as (Hu & Hne).
      split; [exact Hne|]. exists 0%nat. split; [lia|exact Hu]. }
  split; [exact Hdisplay|]. split; [exact Hs|].
  intros Hnil. split.
  - destruct (VenueCard.displayImage venue s) as [u|] eqn:Eu; [|reflexivity].
    destruct (Hdisplay u eq_refl) as (_ & k & _ & Hnth).
    rewrite Hnil in Hnth. destruct k; discriminate.
  - destruct (VenueCard.selectedImage s) as [u|] eqn:Eu; [|reflexivity].
    destruct (Hs u eq_refl) as (_ & _ & k & _ & Hnth).
    rewrite Hnil in Hnth. destruct k; discriminate.
Qed.

(** The card of venue A, which has no images, after a click on the
    displayed image. *)
Lemma card_shows_venue_images_witness :
  VenueCard.selectedImage
    (VenueCard.openImageModal
       (VenueCard.displayImage Sample.vA VenueCard.initialState)
       VenueCard.initialState) = None.
Proof.
  apply (card_shows_venue_images Sample.vA).
  - eapply VenueCard.reach_step; [apply VenueCard.reach_init|].
    apply VenueCard.step_open_displayed.
  - reflexivity.
Defined.

(** X23.  A price cell shows a dash exactly for a null or empty price and
    "Unavailable" exactly for the price "Unavailable"; any other price is
    shown after a pound sign.  Every venue whose Saturday cell shows a
    dash or "Unavailable" has the sort value +infinity, so it is sorted
    after every venue with a finite Saturday price. *)
Theorem unpriced_cells_sort_last (price : option string) :
  (VenueCard.priceDisplay price = "-"%string <->
   price = None \/ price = Some ""%string) /\
  (VenueCard.priceDisplay price = "Unavailable"%string <->
   price = Some "Unavailable"%string) /\
  (forall p, price = Some p -> p <> ""%string -> p <> "Unavailable"%string ->
     VenueCard.priceDisplay price = String (ascii_of_nat 163) p) /\
  (VenueCard.priceDisplay price = "-"%string \/
   VenueCard.priceDisplay price = "Unavailable"%string ->
   App.getPrice price = PInf).
Proof.
  assert (Hother : forall p, p <> ""%string -> p <> "Unavailable"%string ->
            VenueCard.priceDisplay (Some p) = String (ascii_of_nat 163) p).
  { intros p H1 H2. unfold VenueCard.priceDisplay.
    destruct (String.eqb_spec p ""); [contradiction|].
    destruct (String.eqb_spec p "Unavailable"); [contradiction|].
    reflexivity. }
  assert (Hdash : VenueCard.priceDisplay price = "-"%string <->
                  price = None \/ price = Some ""%string).
  { destruct price as [p|]; [|split; auto].
    destruct (String.eqb_spec p "") as [->|H1]; [split; auto|].
    destruct (String.eqb_spec p "Unavailable") as [->|H2].
    - split; [discriminate|]. intros [?|?]; discriminate.
    - rewrite (Hother p H1 H2). split; [discriminate|].
      intros [?|[= ->]]; [discriminate|contradiction]. }
  assert (Hun : VenueCard.priceDisplay price = "Unavailable"%string <->
                price = Some "Unavailable"%string).
  { destruct price as [p|]; [|split; discriminate].
    destruct (String.eqb_spec p "") as [->|H1]; [split; discriminate|].
    destruct (String.eqb_spec p "Unavailable") as [->|H2]; [split; auto|].
    rewrite (Hother p H1 H2). split; [discriminate|].
    intros [= ->]. contradiction. }
  split; [exact Hdash|]. split; [exact Hun|]. split.
  - intros p -> H1 H2. now apply Hother.
  - intros [Hd|Hu].
    + apply Hdash in Hd as [->| ->]; reflexivity.
    + apply Hun in Hu as ->. reflexivity.
Qed.

(** The cell of the sample venue whose Saturday price is "Unavailable". *)
Lemma unpriced_cells_sort_last_witness :
  App.getPrice (Row.price_saturday Sample.vUnavailable) = PInf.
Proof.
  apply (unpriced_cells_sort_last (Row.price_saturday Sample.vUnavailable)).
  right. reflexivity.
Defined.

Lemma encode_unit_safe (c : ascii) :
  forallb (fun d => is_unreserved d || (d =? "%")%char)
    (list_ascii_of_string (encode_unit c)) = true.
Proof.
  destruct c as [[] [] [] [] [] [] [] []]; vm_compute; reflexivity.
Qed.

Lemma list_ascii_app (a b : string) :
  list_ascii_of_string (a ++ b)
  = list_ascii_of_string a ++ list_ascii_of_string b.
Proof.
  induction a as [|c r IH]; simpl; [reflexivity|]. now rewrite IH.
Qed.

Lemma encodeURIComponent_safe (s : string) :
  forallb (fun d => is_unreserved d || (d =? "%")%char)
    (list_ascii_of_string (encodeURIComponent s)) = true.
Proof.
  induction s as [|c r IH]; simpl; [reflexivity|].
  rewrite list_ascii_app, forallb_app, encode_unit_safe. exact IH.
Qed.



End CardStateFacts.

(* ================================================================== *)
(** ** The venue form: operations that overlap *)
(* ================================================================== *)

Module OverlapFacts.
Import JS.

Section WithIdentifier.
Context {Id : Type} `{Identifier Id}.
Variable env : Env Id.

(** Each asynchronous handler, run with nothing in between, is its first
    part followed at once by its second part. *)
Lemma uploadImages_split (files : list File)
    (w : world Id (VenueForm.State Id)) :
  VenueForm.uploadImages env files w =
  (r <- VenueForm.uploadImages_begin files ;;
   match r with
   | Some filesToUpload => VenueForm.uploadImages_end env filesToUpload
   | None => ret tt
   end) w.
Proof.
  unfold VenueForm.uploadImages, VenueForm.uploadImages_begin,
    VenueForm.uploadImages_end, VenueForm.setLoading.
  unfold bind, get, modify, ret, emit. cbn [state trace].
  destruct (List.length files =? 0)%nat; [reflexivity|].
  destruct (VenueForm.MAX_IMAGES <=? _)%nat; reflexivity.
Qed.

Lemma handlePaste_split (clipboardFiles : list File)
    (w : world Id (VenueForm.State Id)) :
  snd (VenueForm.handlePaste env clipboardFiles w) =
  snd ((r <- VenueForm.handlePaste_begin clipboardFiles ;;
        match r with
        | Some filesToUpload => VenueForm.uploadImages_end env filesToUpload
        | None => ret tt
        end) w).
Proof.
  unfold VenueForm.handlePaste, VenueForm.handlePaste_begin.
  destruct (List.length _ =? 0)%nat; [reflexivity|].
  unfold bind at 1. rewrite uploadImages_split.
  match goal with
  | |- snd (match ?c with _ => _ end) = snd ?d =>
      change d with c; destruct c as [[u|e] w']; reflexivity
  end.
Qed.

Lemma handleBrochureUpload_split (files : option (list File))
    (w : world Id (VenueForm.State Id)) :
  VenueForm.handleBrochureUpload env files w =
  (r <- VenueForm.handleBrochureUpload_begin files ;;
   match r with
   | Some file => VenueForm.handleBrochureUpload_end env file
   | None => ret tt
   end) w.
Proof.
  destruct files as [[|file rest]|]; reflexivity.
Qed.

Lemma handleAutoFillLocation_split (w : world Id (VenueForm.State Id)) :
  VenueForm.handleAutoFillLocation env w =
  (r <- VenueForm.handleAutoFillLocation_begin env ;;
   match r with
   | Some (apiKey, textQuery) =>
       VenueForm.handleAutoFillLocation_end env apiKey textQuery
   | None => ret tt
   end) w.
Proof.
  unfold VenueForm.handleAutoFillLocation,
    VenueForm.handleAutoFillLocation_begin,
    VenueForm.handleAutoFillLocation_end, VenueForm.setSearching,
    VenueForm.setFormData.
  unfold bind, get, modify, ret, emit, try_finally, try_catch.
  cbn [state trace].
  destruct (negb (truthy_string (Draft.name (VenueForm.formData (state w)))));
    [reflexivity|].
  destruct (usable_key (VITE_GOOGLE_MAPS_API_KEY env)) as [apiKey|];
    reflexivity.
Qed.

Lemma handleSubmit_split (initialData : option (Draft.t Id))
    (w : world Id (VenueForm.State Id)) :
  VenueForm.handleSubmit env initialData w =
  (formData <- VenueForm.handleSubmit_begin ;;
   VenueForm.handleSubmit_end env initialData formData) w.
Proof. reflexivity. Qed.

End WithIdentifier.

(** C3.  A form with 9 images receives two pastes of one photo each, the
    second one while the first is still uploading; both uploads succeed.
    Each paste checks the cap on the draft of its own render, which holds
    9 images, and accepts its photo; each appends to the draft of the
    moment its upload ends.  The draft ends with 11 images, and the state
    is one the form reaches.  The same two pastes one after the other end
    with 10 images and the message of the cap. *)
Theorem overlapping_pastes_exceed_cap :
  let env := Sample.online None DurationAbsent [] in
  let a := Sample.photo "a.jpg" in
  let b := Sample.photo "b.jpg" in
  let s0 := VenueForm.mkState (Sample.draft_with_images 9) false false in
  let first := run (VenueForm.handlePaste_begin [a]) s0 in
  let s1 := state (snd first) in
  let second := run (VenueForm.handlePaste_begin [b]) s1 in
  let s2 := state (snd second) in
  let s3 := state (snd (run (VenueForm.uploadImages_end env [a]) s2)) in
  let s4 := state (snd (run (VenueForm.uploadImages_end env [b]) s3)) in
  let t1 := snd (run (VenueForm.handlePaste env [a]) s0) in
  let t2 := snd (run (VenueForm.handlePaste env [b]) (state t1)) in
  VenueForm.imageCount s0 = 9%nat /\
  (fst first = Ok (Some [a]) /\ VenueForm.loading s1 = true /\
   VenueForm.imageCount s1 = 9%nat) /\
  (fst second = Ok (Some [b]) /\ VenueForm.imageCount s2 = 9%nat) /\
  VenueForm.imageCount s3 = 10%nat /\
  (VenueForm.imageCount s4 = 11%nat /\ VenueForm.loading s4 = false) /\
  VenueForm.reachable (Some (Sample.draft_with_images 9)) s4 /\
  (VenueForm.imageCount (state t1) = 10%nat /\
   VenueForm.imageCount (state t2) = 10%nat /\
   trace t2 = [Alert "Maximum 10 images allowed"]).
Proof.
  intros env a b s0 first s1 second s2 s3 s4 t1 t2.
  split; [reflexivity|].
  split; [repeat split|].
  split; [repeat split|].
  split; [vm_compute; reflexivity|].
  split; [split; vm_compute; reflexivity|].
  split; [|repeat split; vm_compute; reflexivity].
  subst s4 s3 s2 second s1 first.
  eapply VenueForm.reach_step; [|apply VenueForm.step_upload_end].
  eapply VenueForm.reach_step; [|apply VenueForm.step_upload_end].
  eapply VenueForm.reach_step;
    [|exact (VenueForm.step_upload_begin _ _ [b])].
  eapply VenueForm.reach_step;
    [|exact (VenueForm.step_upload_begin _ _ [a])].
  exact (VenueForm.reach_init (Some (Sample.draft_with_images 9))).
Qed.

End OverlapFacts.
